(** * Road-defect reporting backend: report ingestion, spatial aggregation
      and the work lifecycle

    A shallow embedding of the request handlers of the report, admin and
    contractor controllers, of the table definitions of the database
    initialisation script, of the routers that lead to the handlers and
    the optional authentication middleware, and of the JavaScript
    built-ins the handlers rely on ([parseFloat],
    [Number.prototype.toFixed], [||], truthiness).

    Conventions.
    - A JavaScript number is an IEEE-754 binary64 value, written as a
      [spec_float] (sign, integer mantissa, binary exponent); nothing is
      rounded except where JavaScript rounds (reading a decimal literal).
    - The MySQL store is a record of tables, each a list of typed rows in
      insertion order.  A statement either succeeds and yields a new store
      or raises; a statement that raises changes no row.  Strings are
      compared exactly, and a string bound to an ENUM column has to be one
      of its members.
    - The storage engine may reject any statement for a reason that is
      not part of the model (a value out of range for its column, a
      foreign key, a lost connection, a lock timeout): this is the [fault]
      oracle of the environment, asked once per statement.
    - Handlers run one at a time; every handler starts on a session of its
      own with no transaction open. *)

From Stdlib Require Import ZArith NArith List String Ascii Bool Lia.
From Stdlib Require Import DecimalString Permutation.
From Stdlib Require Import Floats.SpecFloat.
Import ListNotations.

Local Open Scope string_scope.
Local Open Scope Z_scope.

(* ===================================================================== *)
(** * JavaScript values and built-ins                                     *)
(* ===================================================================== *)

(** A field of a JSON request body as the handlers read it. *)
Inductive jsv :=
| JUndef
| JNull
| JBool (b : bool)
| JNum (x : spec_float)
| JStr (s : string).

(** Truthiness, as [!v], [v || w] and [if (v)] see it. *)
Definition truthy (v : jsv) : bool :=
  match v with
  | JUndef | JNull => false
  | JBool b => b
  | JNum (S754_zero _) | JNum S754_nan => false
  | JNum _ => true
  | JStr s => negb (s =? "")%string
  end.

(** [a || b] *)
Definition js_or (a b : jsv) : jsv := if truthy a then a else b.

(** [s || d] for an optional string field and a string default. *)
Definition str_or (s : option string) (d : string) : string :=
  match s with
  | Some x => if (x =? "")%string then d else x
  | None => d
  end.

(** [s || null] for an optional string field. *)
Definition str_or_null (s : option string) : option string :=
  match s with
  | Some x => if (x =? "")%string then None else Some x
  | None => None
  end.

(** [!id] for an optional numeric identifier: missing and 0 are falsy. *)
Definition id_truthy (i : option Z) : bool :=
  match i with
  | Some z => negb (z =? 0)
  | None => false
  end.

(** ** Reading a decimal literal as a binary64 number *)

Definition prec64 : Z := 53.
Definition emax64 : Z := 1024.

(** The binary64 value nearest to [(-1)^neg * m * 10^e10], ties to even:
    exact integer arithmetic, then one rounding. *)
Definition double_of_decimal (neg : bool) (m : N) (e10 : Z) : spec_float :=
  match m with
  | N0 => S754_zero neg
  | Npos p =>
      if 0 <=? e10
      then binary_round prec64 emax64 neg (p * Z.to_pos (10 ^ e10)) 0
      else
        let '(q, e, l) :=
          SFdiv_core_binary prec64 emax64 (Zpos p) 0 (10 ^ (- e10)) 0 in
        binary_round_aux prec64 emax64 neg q e l
  end.

Definition ascii_code (c : ascii) : Z := Z.of_N (N_of_ascii c).

(** StrWhiteSpaceChar, restricted to its ASCII members. *)
Definition is_ws (c : ascii) : bool :=
  let n := ascii_code c in
  ((9 <=? n) && (n <=? 13)) || (n =? 32).

Definition digit_of (c : ascii) : option N :=
  let n := ascii_code c in
  if (48 <=? n) && (n <=? 57) then Some (Z.to_N (n - 48)) else None.

Fixpoint skip_ws (s : string) : string :=
  match s with
  | String c r => if is_ws c then skip_ws r else s
  | EmptyString => s
  end.

(** Reads the longest run of decimal digits at the head of [s] on top of
    the accumulator: the value read, how many digits, and the rest. *)
Fixpoint take_digits (s : string) (acc : N) (cnt : Z) : N * Z * string :=
  match s with
  | String c r =>
      match digit_of c with
      | Some d => take_digits r (acc * 10 + d)%N (cnt + 1)
      | None => (acc, cnt, s)
      end
  | EmptyString => (acc, cnt, s)
  end.

Definition take_sign (s : string) : bool * string :=
  match s with
  | String "-" r => (true, r)
  | String "+" r => (false, r)
  | _ => (false, s)
  end.

(** ExponentPart: [e] or [E], an optional sign and at least one digit;
    anything else leaves the exponent at 0. *)
Definition take_exponent (s : string) : Z :=
  match s with
  | String c r =>
      if (ascii_code c =? 101) || (ascii_code c =? 69) then
        let '(eneg, r1) := take_sign r in
        let '(ev, ecnt, _) := take_digits r1 0%N 0 in
        if ecnt =? 0 then 0 else if eneg then - Z.of_N ev else Z.of_N ev
      else 0
  | EmptyString => 0
  end.

(** [parseFloat] of a string: leading white space is skipped, the longest
    prefix that is a StrDecimalLiteral is read, and the result is NaN when
    there is none. *)
Definition parseFloat_string (s : string) : spec_float :=
  let '(neg, r0) := take_sign (skip_ws s) in
  if prefix "Infinity" r0 then S754_infinity neg
  else
    let '(ip, n1, r1) := take_digits r0 0%N 0 in
    let '(mant, n2, r2) :=
      match r1 with
      | String "." r => take_digits r ip 0
      | _ => (ip, 0, r1)
      end in
    if n1 + n2 =? 0 then S754_nan
    else double_of_decimal neg mant (take_exponent r2 - n2).

(** [parseFloat(v)] converts [v] to a string first.  A number prints to a
    literal that reads back as the same number, except that [-0] prints as
    ["0"]; [undefined], [null] and booleans print to words that are not
    numeric. *)
Definition parseFloat (v : jsv) : spec_float :=
  match v with
  | JNum (S754_zero _) => S754_zero false
  | JNum x => x
  | JStr s => parseFloat_string s
  | JUndef | JNull | JBool _ => S754_nan
  end.

(** ** [Number.prototype.toFixed] *)

(** The integer [n] for which [n / 10^f] is closest to [m * 2^e], the
    larger one when two are equally close. *)
Definition fixed_units (f : Z) (m : positive) (e : Z) : Z :=
  if 0 <=? e then Zpos m * 2 ^ e * 10 ^ f
  else (2 * (Zpos m * 10 ^ f) + 2 ^ (- e)) / (2 * 2 ^ (- e)).

(** [m * 2^e >= 10^21] *)
Definition ge_1e21 (m : positive) (e : Z) : bool :=
  if 0 <=? e then 10 ^ 21 <=? Zpos m * 2 ^ e
  else 10 ^ 21 * 2 ^ (- e) <=? Zpos m.

Definition decimal_digits (n : Z) : string :=
  NilEmpty.string_of_uint (N.to_uint (Z.to_N n)).

Fixpoint zeros (k : nat) : string :=
  match k with
  | O => ""
  | S k' => String "0" (zeros k')
  end.

(** Steps 9-10 of toFixed for [f] fraction digits: the digits of [n],
    padded on the left to [f + 1] characters, with a point before the
    last [f]. *)
Definition fixed_digits (f : nat) (n : Z) : string :=
  let m := decimal_digits n in
  let k := String.length m in
  let m' := if (k <=? f)%nat then zeros (f + 1 - k) ++ m else m in
  let k' := String.length m' in
  substring 0 (k' - f) m' ++ "." ++ substring (k' - f) f m'.

(** [x.toFixed(4)].  [Number_toString] is the built-in conversion of a
    number to a string, which toFixed falls back to from 10^21 on. *)
Definition toFixed4 (Number_toString : spec_float -> string)
    (x : spec_float) : string :=
  match x with
  | S754_nan => "NaN"
  | S754_infinity s => if s then "-Infinity" else "Infinity"
  | S754_zero _ => fixed_digits 4 0
  | S754_finite s m e =>
      if ge_1e21 m e then Number_toString x
      else (if s then "-" else "") ++ fixed_digits 4 (fixed_units 4 m e)
  end.

(** ** The spatial grid key

    [updateAggregatedLocation], first three lines:
      lat = parseFloat(data.latitude).toFixed(4)
      lng = parseFloat(data.longitude).toFixed(4)
      gridId = `${lat}_${lng}` *)
Definition gridId (Number_toString : spec_float -> string)
    (latitude longitude : jsv) : string :=
  let lat := toFixed4 Number_toString (parseFloat latitude) in
  let lng := toFixed4 Number_toString (parseFloat longitude) in
  lat ++ "_" ++ lng.

(** ** The rounded coordinate, as a number

    What "the coordinate rounded to 4 decimal places" denotes for a finite
    double: the signed count of ten-thousandths, nearest to the value, the
    one of larger magnitude at a tie.  Not used by the code; the grid key
    is compared with it. *)
Definition rounded4 (x : spec_float) : option Z :=
  match x with
  | S754_zero _ => Some 0
  | S754_finite s m e =>
      Some (if s then - fixed_units 4 m e else fixed_units 4 m e)
  | _ => None
  end.

(** [x < 0] *)
Definition is_negative (x : spec_float) : bool :=
  match x with
  | S754_finite s _ _ => s
  | S754_infinity s => s
  | _ => false
  end.

(** A finite number below 10^21 in magnitude. *)
Definition plain (x : spec_float) : bool :=
  match x with
  | S754_zero _ => true
  | S754_finite _ m e => negb (ge_1e21 m e)
  | _ => false
  end.

(* ===================================================================== *)
(** * The schema (database initialisation script)                         *)
(* ===================================================================== *)

(** ENUM('Low', 'Medium', 'High') *)
Inductive Severity := Low | Medium | High.

(** reports.status *)
Inductive ReportStatus :=
  RPending | RReviewed | RAssigned | RInProgress | RResolved.

(** aggregated_locations.status *)
Inductive LocationStatus :=
  LPending | LAssigned | LInProgress | LPendingVerification | LVerified
| LFixed.

(** work_assignments.status *)
Inductive AssignmentStatus :=
  WAssigned | WInProgress | WPendingVerification | WCompleted | WVerified.

Definition string_of_severity (s : Severity) : string :=
  match s with Low => "Low" | Medium => "Medium" | High => "High" end.

(** A string bound to an ENUM column: a member, or the statement is
    rejected. *)
Definition severity_of_string (s : string) : option Severity :=
  if (s =? "Low")%string then Some Low
  else if (s =? "Medium")%string then Some Medium
  else if (s =? "High")%string then Some High
  else None.

Definition assignment_status_of_string (s : string)
  : option AssignmentStatus :=
  if (s =? "assigned")%string then Some WAssigned
  else if (s =? "in_progress")%string then Some WInProgress
  else if (s =? "pending_verification")%string then Some WPendingVerification
  else if (s =? "completed")%string then Some WCompleted
  else if (s =? "verified")%string then Some WVerified
  else None.

(** The columns of each table, in the order of their CREATE TABLE. *)
Definition users_columns : list string :=
  ["id"; "email"; "password"; "role"; "device_id"; "device_model";
   "device_platform"; "app_version"; "created_at"; "updated_at"].

Definition reports_columns : list string :=
  ["id"; "report_id"; "user_id"; "device_id"; "reported_at";
   "total_potholes"; "total_patchy_roads"; "health_score"; "status";
   "created_at"; "updated_at"].

Definition pothole_detections_columns : list string :=
  ["id"; "report_id"; "location_id"; "latitude"; "longitude"; "severity";
   "z_axis_acceleration"; "speed_kmh"; "timestamp"; "synced";
   "confirmation_count"; "road_type"; "created_at"].

Definition road_anomalies_columns : list string :=
  ["id"; "report_id"; "location_id"; "start_latitude"; "start_longitude";
   "end_latitude"; "end_longitude"; "severity"; "start_timestamp";
   "end_timestamp"; "duration_seconds"; "created_at"].

Definition aggregated_locations_columns : list string :=
  ["id"; "grid_id"; "latitude"; "longitude"; "road_name"; "total_potholes";
   "total_patchy"; "highest_severity"; "report_count"; "ward";
   "first_reported_at"; "last_reported_at"; "status"; "verified_at";
   "created_at"; "updated_at"].

Definition contractors_columns : list string :=
  ["id"; "user_id"; "company_name"; "contact_email"; "contact_phone";
   "service_area_lat"; "service_area_lng"; "service_radius_km"; "is_active";
   "created_at"].

Definition work_assignments_columns : list string :=
  ["id"; "aggregated_location_id"; "contractor_id"; "assigned_by";
   "assigned_at"; "due_date"; "status"; "completed_at"; "admin_notes";
   "notes"].

(** Rows carry the columns that some handler below reads or writes. *)
Record users_row := {
  u_id : Z;
  u_device_id : option string
}.

Record reports_row := {
  r_id : Z;
  r_report_id : string;
  r_user_id : option Z;
  r_device_id : string;
  r_reported_at : string;
  r_total_potholes : Z;
  r_total_patchy_roads : Z;
  r_health_score : Z;
  r_status : ReportStatus
}.

Record pothole_detections_row := {
  pd_id : Z;
  pd_report_id : Z;
  pd_location_id : jsv;
  pd_latitude : jsv;
  pd_longitude : jsv;
  pd_severity : Severity;
  pd_timestamp : string;
  pd_synced : bool
}.

Record road_anomalies_row := {
  ra_id : Z;
  ra_report_id : Z;
  ra_location_id : jsv;
  ra_start_latitude : jsv;
  ra_start_longitude : jsv;
  ra_end_latitude : jsv;
  ra_end_longitude : jsv;
  ra_severity : Severity;
  ra_start_timestamp : string;
  ra_end_timestamp : string;
  ra_duration_seconds : jsv
}.

Record aggregated_locations_row := {
  al_id : Z;
  al_grid_id : string;
  al_latitude : string;
  al_longitude : string;
  al_total_potholes : Z;
  al_total_patchy : Z;
  al_highest_severity : Severity;
  al_report_count : Z;
  al_first_reported_at : option string;
  al_last_reported_at : option string;
  al_status : LocationStatus;
  al_verified_at : option string
}.

Record contractors_row := {
  c_id : Z;
  c_user_id : option Z;
  c_is_active : bool
}.

Record work_assignments_row := {
  wa_id : Z;
  wa_aggregated_location_id : Z;
  wa_contractor_id : Z;
  wa_assigned_by : option Z;
  wa_assigned_at : string;
  wa_due_date : option string;
  wa_status : AssignmentStatus;
  wa_completed_at : option string;
  wa_admin_notes : option string;
  wa_notes : option string
}.

Record tables := {
  users : list users_row;
  reports : list reports_row;
  pothole_detections : list pothole_detections_row;
  road_anomalies : list road_anomalies_row;
  aggregated_locations : list aggregated_locations_row;
  contractors : list contractors_row;
  work_assignments : list work_assignments_row
}.

(** The AUTO_INCREMENT counters; they are not transactional. *)
Record counters := {
  next_report : Z;
  next_pothole_detection : Z;
  next_road_anomaly : Z;
  next_aggregated_location : Z;
  next_work_assignment : Z
}.

Record database := {
  rows : tables;
  auto_increment : counters
}.

Definition set_reports (v : list reports_row) (t : tables) : tables :=
  {| users := users t; reports := v;
     pothole_detections := pothole_detections t;
     road_anomalies := road_anomalies t;
     aggregated_locations := aggregated_locations t;
     contractors := contractors t; work_assignments := work_assignments t |}.

Definition set_pothole_detections (v : list pothole_detections_row)
    (t : tables) : tables :=
  {| users := users t; reports := reports t; pothole_detections := v;
     road_anomalies := road_anomalies t;
     aggregated_locations := aggregated_locations t;
     contractors := contractors t; work_assignments := work_assignments t |}.

Definition set_road_anomalies (v : list road_anomalies_row) (t : tables)
  : tables :=
  {| users := users t; reports := reports t;
     pothole_detections := pothole_detections t; road_anomalies := v;
     aggregated_locations := aggregated_locations t;
     contractors := contractors t; work_assignments := work_assignments t |}.

Definition set_aggregated_locations (v : list aggregated_locations_row)
    (t : tables) : tables :=
  {| users := users t; reports := reports t;
     pothole_detections := pothole_detections t;
     road_anomalies := road_anomalies t; aggregated_locations := v;
     contractors := contractors t; work_assignments := work_assignments t |}.

Definition set_work_assignments (v : list work_assignments_row)
    (t : tables) : tables :=
  {| users := users t; reports := reports t;
     pothole_detections := pothole_detections t;
     road_anomalies := road_anomalies t;
     aggregated_locations := aggregated_locations t;
     contractors := contractors t; work_assignments := v |}.

(* ===================================================================== *)
(** * Sessions, statements and transactions                               *)
(* ===================================================================== *)

(** What a statement or a built-in can throw.  The handlers look only at
    [error.code === "ER_DUP_ENTRY"]. *)
Inductive exn :=
| ER_DUP_ENTRY          (* a UNIQUE key would be duplicated *)
| ER_BAD_FIELD_ERROR    (* the statement names an unknown column *)
| WARN_DATA_TRUNCATED   (* a string is not a member of its ENUM column *)
| ER_BAD_NULL_ERROR     (* NULL is bound to a NOT NULL column *)
| ER_REJECTED           (* the engine rejects the statement: [fault] *)
| RangeError.           (* Date.prototype.toISOString on an invalid date *)

(** What a handler finds around it. *)
Record environment := {
  (** whether the engine rejects the [n]-th statement of this request *)
  fault : nat -> bool;
  (** SQL [NOW()] *)
  NOW : string;
  (** [new Date().toISOString()] *)
  Date_now : string;
  (** [new Date(s).toISOString()], [None] when the date is invalid *)
  Date_iso : string -> option string;
  (** [String(x)] for a number *)
  Number_toString : spec_float -> string
}.

Inductive access := Read | Write.

(** What reaches the storage layer, in order. *)
Inductive event :=
| EvGetConnection
| EvBeginTransaction
| EvQuery (a : access) (table : string)
| EvCommit
| EvRollback
| EvRelease.

(** The connection a handler works on: the store as this connection sees
    it, the rows as of [beginTransaction] while a transaction is open, how
    many statements were sent, and the storage events so far. *)
Record session := {
  db : database;
  undo : option tables;
  issued : nat;
  trace : list event
}.

Inductive result (A : Type) :=
| Ok (a : A)
| Throw (e : exn).
Arguments Ok {A} a.
Arguments Throw {A} e.

Definition M (A : Type) : Type := session -> result A * session.

Definition ret {A} (a : A) : M A := fun s => (Ok a, s).

Definition throw {A} (e : exn) : M A := fun s => (Throw e, s).

Definition bind {A B} (m : M A) (k : A -> M B) : M B :=
  fun s =>
    match m s with
    | (Ok a, s') => k a s'
    | (Throw e, s') => (Throw e, s')
    end.

Notation "x <- m ;; k" := (bind m (fun x => k))
  (at level 61, m at next level, right associativity).
Notation "m ;;; k" := (bind m (fun _ => k))
  (at level 61, right associativity).

(** [for (const x of l) { await f(x) }] *)
Fixpoint for_each {A} (f : A -> M unit) (l : list A) : M unit :=
  match l with
  | [] => ret tt
  | x :: l' => f x ;;; for_each f l'
  end.

Definition log (e : event) (s : session) : session :=
  {| db := db s; undo := undo s; issued := issued s;
     trace := trace s ++ [e] |}.

Definition known_columns (schema used : list string) : bool :=
  forallb (fun c => existsb (String.eqb c) schema) used.

(** [await connection.query(sql, params)]: one statement on [table] that
    names the columns [used] and whose effect on the store is [run]. *)
Definition query {A} (env : environment) (a : access) (table : string)
    (schema used : list string)
    (run : database -> result (A * database)) : M A :=
  fun s =>
    let s1 := {| db := db s; undo := undo s; issued := S (issued s);
                 trace := trace s ++ [EvQuery a table] |} in
    if fault env (issued s) then (Throw ER_REJECTED, s1)
    else if negb (known_columns schema used)
    then (Throw ER_BAD_FIELD_ERROR, s1)
    else
      match run (db s) with
      | Ok (v, d) =>
          (Ok v, {| db := d; undo := undo s; issued := S (issued s);
                    trace := trace s ++ [EvQuery a table] |})
      | Throw e => (Throw e, s1)
      end.

(** [await db.promise().getConnection()] *)
Definition getConnection (s : session) : session := log EvGetConnection s.

(** [await connection.beginTransaction()] *)
Definition beginTransaction : M unit :=
  fun s =>
    (Ok tt, {| db := db s; undo := Some (rows (db s)); issued := issued s;
               trace := trace s ++ [EvBeginTransaction] |}).

(** [await connection.commit()] *)
Definition commit : M unit :=
  fun s =>
    (Ok tt, {| db := db s; undo := None; issued := issued s;
               trace := trace s ++ [EvCommit] |}).

(** [await connection.rollback()]: the rows go back to what they were at
    [beginTransaction]; the counters stay. *)
Definition rollback (s : session) : session :=
  {| db := match undo s with
           | Some t => {| rows := t;
                          auto_increment := auto_increment (db s) |}
           | None => db s
           end;
     undo := None; issued := issued s;
     trace := trace s ++ [EvRollback] |}.

(** [connection.release()] *)
Definition release (s : session) : session := log EvRelease s.

Record response_of (B : Type) := {
  status : Z;
  body : B
}.
Arguments status {B} r.
Arguments body {B} r.

(** The JSON bodies the handlers send. *)
Inductive json :=
| Message (message : string)
| Failure (message : string) (error : exn)
| Conflict (message error : string)
| Submitted (reportId : string)
    (dbId totalPotholes totalPatchy healthScore : Z) (state : string)
| Assignment (message : string) (assignmentId : Z)
| Assignments (message : string) (assignmentIds : list Z)
| Verified (message : string) (locationUpdated assignmentUpdated : bool)
| BatchVerified (message : string) (locationsUpdated assignmentsUpdated : Z).

Definition response := response_of json.

Definition respond (code : Z) (b : json) : response :=
  {| status := code; body := b |}.

(** A handler started on store [d]: what it answers, the store it leaves,
    and what reached the storage layer. *)
Definition serve (h : session -> response * session) (d : database)
  : response * database * list event :=
  let '(r, s) := h {| db := d; undo := None; issued := O; trace := [] |} in
  (r, db s, trace s).

Definition with_rows (f : tables -> tables) (d : database) : database :=
  {| rows := f (rows d); auto_increment := auto_increment d |}.

Definition set_next_report (v : Z) (c : counters) : counters :=
  {| next_report := v;
     next_pothole_detection := next_pothole_detection c;
     next_road_anomaly := next_road_anomaly c;
     next_aggregated_location := next_aggregated_location c;
     next_work_assignment := next_work_assignment c |}.

Definition set_next_pothole_detection (v : Z) (c : counters) : counters :=
  {| next_report := next_report c;
     next_pothole_detection := v;
     next_road_anomaly := next_road_anomaly c;
     next_aggregated_location := next_aggregated_location c;
     next_work_assignment := next_work_assignment c |}.

Definition set_next_road_anomaly (v : Z) (c : counters) : counters :=
  {| next_report := next_report c;
     next_pothole_detection := next_pothole_detection c;
     next_road_anomaly := v;
     next_aggregated_location := next_aggregated_location c;
     next_work_assignment := next_work_assignment c |}.

Definition set_next_aggregated_location (v : Z) (c : counters) : counters :=
  {| next_report := next_report c;
     next_pothole_detection := next_pothole_detection c;
     next_road_anomaly := next_road_anomaly c;
     next_aggregated_location := v;
     next_work_assignment := next_work_assignment c |}.

Definition set_next_work_assignment (v : Z) (c : counters) : counters :=
  {| next_report := next_report c;
     next_pothole_detection := next_pothole_detection c;
     next_road_anomaly := next_road_anomaly c;
     next_aggregated_location := next_aggregated_location c;
     next_work_assignment := v |}.

(** An UPDATE over a table: the rows that satisfy [p] are replaced by
    their image under [f]; the count is [affectedRows] (the driver asks
    for matched rows). *)
Definition update_where {R} (p : R -> bool) (f : R -> R) (l : list R)
  : list R :=
  map (fun r => if p r then f r else r) l.

Definition affected {R} (p : R -> bool) (l : list R) : Z :=
  Z.of_nat (List.length (filter p l)).

(* ===================================================================== *)
(** * [controllers/report_controller.js]                                  *)
(* ===================================================================== *)

Fixpoint replace_first (a b : ascii) (s : string) : string :=
  match s with
  | String c r =>
      if Ascii.eqb c a then String b r else String c (replace_first a b r)
  | EmptyString => EmptyString
  end.

(** [iso.slice(0, 19).replace('T', ' ')] *)
Definition mysql_format (iso : string) : string :=
  replace_first "T" " " (substring 0 19 iso).

(** [toMySQLDatetime] *)
Definition toMySQLDatetime (env : environment) (isoString : option string)
  : M string :=
  match str_or_null isoString with
  | None => ret (mysql_format (Date_now env))
  | Some s =>
      match Date_iso env s with
      | Some iso => ret (mysql_format iso)
      | None => throw RangeError
      end
  end.

(** One entry of [req.body.anomalies]. *)
Record anomaly := {
  a_type : option string;
  a_location_id : jsv;
  a_latitude : jsv;
  a_longitude : jsv;
  a_start_latitude : jsv;
  a_start_longitude : jsv;
  a_end_latitude : jsv;
  a_end_longitude : jsv;
  a_severity : option string;
  a_timestamp : option string;
  a_start_timestamp : option string;
  a_end_timestamp : option string;
  a_duration_seconds : jsv
}.

(** The [data] argument of [updateAggregatedLocation]. *)
Record detection := {
  d_latitude : jsv;
  d_longitude : jsv;
  d_severity : option string
}.

(** [const severityOrder = { "Low": 1, "Medium": 2, "High": 3 }];
    [None] is [undefined]. *)
Definition severityOrder (s : string) : option Z :=
  if (s =? "Low")%string then Some 1
  else if (s =? "Medium")%string then Some 2
  else if (s =? "High")%string then Some 3
  else None.

(** [a > b] on two lookups: false as soon as one is [undefined]. *)
Definition js_gt (a b : option Z) : bool :=
  match a, b with
  | Some x, Some y => y <? x
  | _, _ => false
  end.

(** SELECT * FROM aggregated_locations WHERE grid_id = ? *)
Definition select_aggregated_by_grid (env : environment) (grid : string)
  : M (list aggregated_locations_row) :=
  query env Read "aggregated_locations" aggregated_locations_columns
    ["grid_id"]
    (fun d =>
       Ok (filter (fun r => (al_grid_id r =? grid)%string)
             (aggregated_locations (rows d)), d)).

Definition merge_into (dp dq : Z) (h : Severity) (now : string)
    (r : aggregated_locations_row) : aggregated_locations_row :=
  {| al_id := al_id r; al_grid_id := al_grid_id r;
     al_latitude := al_latitude r; al_longitude := al_longitude r;
     al_total_potholes := al_total_potholes r + dp;
     al_total_patchy := al_total_patchy r + dq;
     al_highest_severity := h;
     al_report_count := al_report_count r + 1;
     al_first_reported_at := al_first_reported_at r;
     al_last_reported_at := Some now;
     al_status := al_status r; al_verified_at := al_verified_at r |}.

(** UPDATE aggregated_locations
    SET total_potholes = total_potholes + ?, total_patchy = total_patchy + ?,
        highest_severity = ?, report_count = report_count + 1,
        last_reported_at = NOW()
    WHERE grid_id = ? *)
Definition update_aggregated (env : environment) (dp dq : Z)
    (newHighest grid : string) : M unit :=
  query env Write "aggregated_locations" aggregated_locations_columns
    ["total_potholes"; "total_patchy"; "highest_severity"; "report_count";
     "last_reported_at"; "grid_id"]
    (fun d =>
       let hit := fun r => (al_grid_id r =? grid)%string in
       if existsb hit (aggregated_locations (rows d)) then
         match severity_of_string newHighest with
         | Some h =>
             Ok (tt, with_rows (fun t =>
                   set_aggregated_locations
                     (update_where hit (merge_into dp dq h (NOW env))
                        (aggregated_locations t)) t) d)
         | None => Throw WARN_DATA_TRUNCATED
         end
       else Ok (tt, d)).

(** INSERT INTO aggregated_locations
      (grid_id, latitude, longitude, total_potholes, total_patchy,
       highest_severity, first_reported_at, last_reported_at)
    VALUES (?, ?, ?, ?, ?, ?, NOW(), NOW())
    [report_count] and [status] take their defaults, 1 and 'pending'. *)
Definition insert_aggregated (env : environment) (grid lat lng : string)
    (tp tq : Z) (severity : string) : M unit :=
  query env Write "aggregated_locations" aggregated_locations_columns
    ["grid_id"; "latitude"; "longitude"; "total_potholes"; "total_patchy";
     "highest_severity"; "first_reported_at"; "last_reported_at"]
    (fun d =>
       match severity_of_string severity with
       | None => Throw WARN_DATA_TRUNCATED
       | Some h =>
           if existsb (fun r => (al_grid_id r =? grid)%string)
                (aggregated_locations (rows d))
           then Throw ER_DUP_ENTRY
           else
             let id := next_aggregated_location (auto_increment d) in
             let r := {| al_id := id; al_grid_id := grid;
                         al_latitude := lat; al_longitude := lng;
                         al_total_potholes := tp; al_total_patchy := tq;
                         al_highest_severity := h; al_report_count := 1;
                         al_first_reported_at := Some (NOW env);
                         al_last_reported_at := Some (NOW env);
                         al_status := LPending; al_verified_at := None |} in
             Ok (tt,
                 {| rows := set_aggregated_locations
                              (aggregated_locations (rows d) ++ [r]) (rows d);
                    auto_increment :=
                      set_next_aggregated_location (id + 1)
                        (auto_increment d) |})
       end).

(** [updateAggregatedLocation(connection, data, type)] *)
Definition updateAggregatedLocation (env : environment) (data : detection)
    (type : string) : M unit :=
  let lat := toFixed4 (Number_toString env) (parseFloat (d_latitude data)) in
  let lng := toFixed4 (Number_toString env) (parseFloat (d_longitude data)) in
  let grid := (lat ++ "_" ++ lng)%string in
  let severity := str_or (d_severity data) "Medium" in
  existing <- select_aggregated_by_grid env grid ;;
  match existing with
  | current :: _ =>
      let newHighest :=
        if js_gt (severityOrder severity)
             (severityOrder (string_of_severity (al_highest_severity current)))
        then severity
        else string_of_severity (al_highest_severity current) in
      update_aggregated env
        (if (type =? "pothole")%string then 1 else 0)
        (if (type =? "patchy")%string then 1 else 0)
        newHighest grid
  | [] =>
      insert_aggregated env grid lat lng
        (if (type =? "pothole")%string then 1 else 0)
        (if (type =? "patchy")%string then 1 else 0)
        severity
  end.

(** The request of [submitReport]: [req.user?.id] and the fields read
    from [req.body]. *)
Record submit_request := {
  sr_user : option Z;
  sr_report_id : option string;
  sr_device_id : option string;
  sr_reported_at : option string;
  sr_anomalies : option (list anomaly)
}.

(** SELECT id FROM users WHERE device_id = ? *)
Definition select_users_by_device (env : environment) (device : string)
  : M (list users_row) :=
  query env Read "users" users_columns ["id"; "device_id"]
    (fun d =>
       Ok (filter (fun u => match u_device_id u with
                            | Some x => (x =? device)%string
                            | None => false
                            end) (users (rows d)), d)).

(** INSERT INTO reports (report_id, user_id, device_id, reported_at,
      total_potholes, total_patchy_roads, health_score, status)
    VALUES (?, ?, ?, ?, ?, ?, ?, 'pending')
    [report_id] is UNIQUE; the result is [insertId]. *)
Definition insert_report (env : environment) (report_id : string)
    (userId : option Z) (device_id reported_at : string)
    (total_potholes total_patchy_roads health_score : Z) : M Z :=
  query env Write "reports" reports_columns
    ["report_id"; "user_id"; "device_id"; "reported_at"; "total_potholes";
     "total_patchy_roads"; "health_score"; "status"]
    (fun d =>
       if existsb (fun r => (r_report_id r =? report_id)%string)
            (reports (rows d))
       then Throw ER_DUP_ENTRY
       else
         let id := next_report (auto_increment d) in
         let r := {| r_id := id; r_report_id := report_id;
                     r_user_id := userId; r_device_id := device_id;
                     r_reported_at := reported_at;
                     r_total_potholes := total_potholes;
                     r_total_patchy_roads := total_patchy_roads;
                     r_health_score := health_score;
                     r_status := RPending |} in
         Ok (id, {| rows := set_reports (reports (rows d) ++ [r]) (rows d);
                    auto_increment :=
                      set_next_report (id + 1) (auto_increment d) |})).

(** INSERT INTO pothole_detections
      (report_id, location_id, latitude, longitude, severity, timestamp,
       synced)
    VALUES (?, ?, ?, ?, ?, ?, TRUE) *)
Definition insert_pothole_detection (env : environment) (report : Z)
    (location_id latitude longitude : jsv) (severity timestamp : string)
  : M unit :=
  query env Write "pothole_detections" pothole_detections_columns
    ["report_id"; "location_id"; "latitude"; "longitude"; "severity";
     "timestamp"; "synced"]
    (fun d =>
       match severity_of_string severity with
       | None => Throw WARN_DATA_TRUNCATED
       | Some sv =>
           let id := next_pothole_detection (auto_increment d) in
           let r := {| pd_id := id; pd_report_id := report;
                       pd_location_id := location_id;
                       pd_latitude := latitude; pd_longitude := longitude;
                       pd_severity := sv; pd_timestamp := timestamp;
                       pd_synced := true |} in
           Ok (tt,
               {| rows := set_pothole_detections
                            (pothole_detections (rows d) ++ [r]) (rows d);
                  auto_increment :=
                    set_next_pothole_detection (id + 1)
                      (auto_increment d) |})
       end).

(** INSERT INTO road_anomalies
      (report_id, location_id, start_latitude, start_longitude,
       end_latitude, end_longitude, severity, start_timestamp,
       end_timestamp, duration_seconds)
    VALUES (?, ?, ?, ?, ?, ?, ?, ?, ?, ?) *)
Definition insert_road_anomaly (env : environment) (report : Z)
    (location_id start_latitude start_longitude end_latitude
       end_longitude : jsv)
    (severity start_timestamp end_timestamp : string)
    (duration_seconds : jsv) : M unit :=
  query env Write "road_anomalies" road_anomalies_columns
    ["report_id"; "location_id"; "start_latitude"; "start_longitude";
     "end_latitude"; "end_longitude"; "severity"; "start_timestamp";
     "end_timestamp"; "duration_seconds"]
    (fun d =>
       match severity_of_string severity with
       | None => Throw WARN_DATA_TRUNCATED
       | Some sv =>
           let id := next_road_anomaly (auto_increment d) in
           let r := {| ra_id := id; ra_report_id := report;
                       ra_location_id := location_id;
                       ra_start_latitude := start_latitude;
                       ra_start_longitude := start_longitude;
                       ra_end_latitude := end_latitude;
                       ra_end_longitude := end_longitude;
                       ra_severity := sv;
                       ra_start_timestamp := start_timestamp;
                       ra_end_timestamp := end_timestamp;
                       ra_duration_seconds := duration_seconds |} in
           Ok (tt,
               {| rows := set_road_anomalies
                            (road_anomalies (rows d) ++ [r]) (rows d);
                  auto_increment :=
                    set_next_road_anomaly (id + 1) (auto_increment d) |})
       end).

(** [a.type === t] *)
Definition has_type (t : string) (a : anomaly) : bool :=
  match a_type a with
  | Some x => (x =? t)%string
  | None => false
  end.

(** [Math.max(0, 100 - (potholes.length * 15 + patchyRoads.length * 5))] *)
Definition healthScore (potholes patchyRoads : list anomaly) : Z :=
  let penalty :=
    Z.of_nat (List.length potholes) * 15
    + Z.of_nat (List.length patchyRoads) * 5 in
  Z.max 0 (100 - penalty).

(** The body of the first loop of [submitReport]. *)
Definition ingest_pothole (env : environment) (dbReportId : Z)
    (pothole : anomaly) : M unit :=
  ts <- toMySQLDatetime env (a_timestamp pothole) ;;
  insert_pothole_detection env dbReportId (a_location_id pothole)
    (a_latitude pothole) (a_longitude pothole)
    (str_or (a_severity pothole) "Medium") ts ;;;
  updateAggregatedLocation env
    {| d_latitude := a_latitude pothole;
       d_longitude := a_longitude pothole;
       d_severity := a_severity pothole |} "pothole".

(** The body of the second loop of [submitReport]. *)
Definition ingest_patchy (env : environment) (dbReportId : Z)
    (patchy : anomaly) : M unit :=
  t1 <- toMySQLDatetime env (a_start_timestamp patchy) ;;
  t2 <- toMySQLDatetime env (a_end_timestamp patchy) ;;
  insert_road_anomaly env dbReportId (a_location_id patchy)
    (js_or (a_start_latitude patchy) (a_latitude patchy))
    (js_or (a_start_longitude patchy) (a_longitude patchy))
    (a_end_latitude patchy) (a_end_longitude patchy)
    (str_or (a_severity patchy) "Medium") t1 t2
    (a_duration_seconds patchy) ;;;
  updateAggregatedLocation env
    {| d_latitude := js_or (a_start_latitude patchy) (a_latitude patchy);
       d_longitude := js_or (a_start_longitude patchy) (a_longitude patchy);
       d_severity := a_severity patchy |} "patchy".

(** What [submitReport] does once the three required fields are there,
    up to the end of its [try] block. *)
Definition submitReport_ingest (env : environment) (req : submit_request)
    (report_id device_id : string) (anomalies : list anomaly)
  : M response :=
  userId <-
    (if id_truthy (sr_user req) then ret (sr_user req)
     else
       users <- select_users_by_device env device_id ;;
       match users with
       | u :: _ => ret (Some (u_id u))
       | [] => ret None
       end) ;;
  let potholes := filter (has_type "pothole") anomalies in
  let patchyRoads := filter (has_type "road_anomaly") anomalies in
  let score := healthScore potholes patchyRoads in
  reported <- toMySQLDatetime env (sr_reported_at req) ;;
  dbReportId <-
    insert_report env report_id userId device_id reported
      (Z.of_nat (List.length potholes))
      (Z.of_nat (List.length patchyRoads)) score ;;
  for_each (ingest_pothole env dbReportId) potholes ;;;
  for_each (ingest_patchy env dbReportId) patchyRoads ;;;
  commit ;;;
  ret (respond 201
         (Submitted report_id dbReportId
            (Z.of_nat (List.length potholes))
            (Z.of_nat (List.length patchyRoads)) score "pending")).

(** What [submitReport] runs inside its [try] block. *)
Definition submitReport_try (env : environment) (req : submit_request)
  : M response :=
  beginTransaction ;;;
  match str_or_null (sr_report_id req), str_or_null (sr_device_id req),
        sr_anomalies req with
  | Some report_id, Some device_id, Some anomalies =>
      submitReport_ingest env req report_id device_id anomalies
  | _, _, _ =>
      ret (respond 400
             (Message
                "Missing required fields: report_id, device_id, anomalies"))
  end.

(** A handler on a connection of its own:
      const connection = await db.promise().getConnection();
      try { ... } catch (error) { await connection.rollback(); ... }
      finally { connection.release(); } *)
Definition transactional (try_block : M response)
    (catch_block : exn -> response) (s0 : session) : response * session :=
  match try_block (getConnection s0) with
  | (Ok r, s) => (r, release s)
  | (Throw e, s) => (catch_block e, release (rollback s))
  end.

(** A handler that sends its statements through the pool, each one
    committed on its own:  try { ... } catch (error) { ... } *)
Definition pooled (try_block : M response) (catch_block : exn -> response)
    (s0 : session) : response * session :=
  match try_block s0 with
  | (Ok r, s) => (r, s)
  | (Throw e, s) => (catch_block e, s)
  end.

(** [exports.submitReport] *)
Definition submitReport (env : environment) (req : submit_request)
  : session -> response * session :=
  transactional (submitReport_try env req)
    (fun e =>
       match e with
       | ER_DUP_ENTRY =>
           respond 409 (Conflict "Report already submitted"
                          "Duplicate report_id")
       | _ => respond 500 (Failure "Failed to submit report" e)
       end).

(** ** Work assignments *)

(** SELECT id FROM aggregated_locations WHERE id = ?
    ([None] binds NULL, which equals no id.) *)
Definition select_location_by_id (env : environment) (id : option Z)
  : M (list aggregated_locations_row) :=
  query env Read "aggregated_locations" aggregated_locations_columns ["id"]
    (fun d =>
       Ok (filter (fun r => match id with
                            | Some i => al_id r =? i
                            | None => false
                            end) (aggregated_locations (rows d)), d)).

(** SELECT id FROM contractors WHERE id = ? AND is_active = TRUE *)
Definition select_active_contractor (env : environment) (id : option Z)
  : M (list contractors_row) :=
  query env Read "contractors" contractors_columns ["id"; "is_active"]
    (fun d =>
       Ok (filter (fun c => match id with
                            | Some i => (c_id c =? i) && c_is_active c
                            | None => false
                            end) (contractors (rows d)), d)).

(** status NOT IN ('completed', 'verified') *)
Definition is_open (st : AssignmentStatus) : bool :=
  match st with
  | WCompleted | WVerified => false
  | _ => true
  end.

(** SELECT id FROM work_assignments
    WHERE aggregated_location_id = ?
      AND status NOT IN ('completed', 'verified') *)
Definition select_open_assignments (env : environment)
    (location : option Z) : M (list work_assignments_row) :=
  query env Read "work_assignments" work_assignments_columns
    ["id"; "aggregated_location_id"; "status"]
    (fun d =>
       Ok (filter (fun w => match location with
                            | Some l => (wa_aggregated_location_id w =? l)
                                        && is_open (wa_status w)
                            | None => false
                            end)
             (work_assignments (rows d)), d)).

Definition reassigned (contractor : Z) (due notes : option string)
    (w : work_assignments_row) : work_assignments_row :=
  {| wa_id := wa_id w;
     wa_aggregated_location_id := wa_aggregated_location_id w;
     wa_contractor_id := contractor; wa_assigned_by := wa_assigned_by w;
     wa_assigned_at := wa_assigned_at w; wa_due_date := due;
     wa_status := WAssigned; wa_completed_at := wa_completed_at w;
     wa_admin_notes := wa_admin_notes w; wa_notes := notes |}.

(** UPDATE work_assignments
    SET contractor_id = ?, due_date = ?, notes = ?, status = 'assigned'
    WHERE id = ? *)
Definition update_assignment (env : environment) (contractor : option Z)
    (due notes : option string) (id : Z) : M Z :=
  query env Write "work_assignments" work_assignments_columns
    ["contractor_id"; "due_date"; "notes"; "status"; "id"]
    (fun d =>
       let hit := fun w => wa_id w =? id in
       match contractor with
       | Some c =>
           Ok (affected hit (work_assignments (rows d)),
               with_rows (fun t =>
                 set_work_assignments
                   (update_where hit (reassigned c due notes)
                      (work_assignments t)) t) d)
       | None =>
           if existsb hit (work_assignments (rows d))
           then Throw ER_BAD_NULL_ERROR
           else Ok (0, d)
       end).

Definition with_location_status (st : LocationStatus)
    (r : aggregated_locations_row) : aggregated_locations_row :=
  {| al_id := al_id r; al_grid_id := al_grid_id r;
     al_latitude := al_latitude r; al_longitude := al_longitude r;
     al_total_potholes := al_total_potholes r;
     al_total_patchy := al_total_patchy r;
     al_highest_severity := al_highest_severity r;
     al_report_count := al_report_count r;
     al_first_reported_at := al_first_reported_at r;
     al_last_reported_at := al_last_reported_at r;
     al_status := st; al_verified_at := al_verified_at r |}.

(** UPDATE aggregated_locations SET status = <st> WHERE id = ?
    ([None] binds NULL, which equals no id.) *)
Definition update_location_status (env : environment)
    (st : LocationStatus) (id : option Z) : M Z :=
  query env Write "aggregated_locations" aggregated_locations_columns
    ["status"; "id"]
    (fun d =>
       let hit := fun r => match id with
                           | Some i => al_id r =? i
                           | None => false
                           end in
       Ok (affected hit (aggregated_locations (rows d)),
           with_rows (fun t =>
             set_aggregated_locations
               (update_where hit (with_location_status st)
                  (aggregated_locations t)) t) d)).

(** INSERT INTO work_assignments
      (aggregated_location_id, contractor_id, [assigned_by,] due_date, notes)
    VALUES (...)
    [status] and [assigned_at] take their defaults, 'assigned' and now;
    the first two columns are NOT NULL; the result is [insertId]. *)
Definition insert_work_assignment (env : environment) (used : list string)
    (location contractor assigned_by : option Z)
    (due notes : option string) : M Z :=
  query env Write "work_assignments" work_assignments_columns used
    (fun d =>
       match location, contractor with
       | Some l, Some c =>
           let id := next_work_assignment (auto_increment d) in
           let w := {| wa_id := id; wa_aggregated_location_id := l;
                       wa_contractor_id := c;
                       wa_assigned_by := assigned_by;
                       wa_assigned_at := NOW env; wa_due_date := due;
                       wa_status := WAssigned; wa_completed_at := None;
                       wa_admin_notes := None; wa_notes := notes |} in
           Ok (id,
               {| rows := set_work_assignments
                            (work_assignments (rows d) ++ [w]) (rows d);
                  auto_increment :=
                    set_next_work_assignment (id + 1) (auto_increment d) |})
       | _, _ => Throw ER_BAD_NULL_ERROR
       end).

(** The body of [createWorkAssignment], [assignToContractor] and
    [batchAssign]. *)
Record assign_request := {
  as_user : option Z;
  as_locationId : option Z;
  as_locationIds : option (list Z);
  as_contractorId : option Z;
  as_dueDate : option string;
  as_notes : option string
}.

Definition createWorkAssignment_try (env : environment)
    (req : assign_request) : M response :=
  let locationId := as_locationId req in
  let contractorId := as_contractorId req in
  if negb (id_truthy locationId) || negb (id_truthy contractorId)
  then ret (respond 400 (Message "locationId and contractorId are required"))
  else
    locations <- select_location_by_id env locationId ;;
    match locations with
    | [] => ret (respond 404 (Message "Location not found"))
    | _ :: _ =>
      contractors <- select_active_contractor env contractorId ;;
      match contractors with
      | [] => ret (respond 404 (Message "Contractor not found or inactive"))
      | _ :: _ =>
        existing <- select_open_assignments env locationId ;;
        match existing with
        | first :: _ =>
            update_assignment env contractorId
              (str_or_null (as_dueDate req)) (str_or_null (as_notes req))
              (wa_id first) ;;;
            update_location_status env LAssigned locationId ;;;
            ret (respond 200
                   (Assignment "Assignment updated successfully"
                      (wa_id first)))
        | [] =>
            insertId <-
              insert_work_assignment env
                ["aggregated_location_id"; "contractor_id"; "due_date";
                 "notes"]
                locationId contractorId None
                (str_or_null (as_dueDate req))
                (str_or_null (as_notes req)) ;;
            update_location_status env LAssigned locationId ;;;
            ret (respond 201
                   (Assignment "Assignment created successfully" insertId))
        end
      end
    end.

(** [exports.createWorkAssignment] (report controller) *)
Definition createWorkAssignment (env : environment) (req : assign_request)
  : session -> response * session :=
  pooled (createWorkAssignment_try env req)
    (fun e => respond 500 (Failure "Failed to create assignment" e)).

(** ** Verification (report controller) *)

Definition assignment_status_eqb (a b : AssignmentStatus) : bool :=
  match a, b with
  | WAssigned, WAssigned | WInProgress, WInProgress
  | WPendingVerification, WPendingVerification
  | WCompleted, WCompleted | WVerified, WVerified => true
  | _, _ => false
  end.

Definition verified_now (now : string) (r : aggregated_locations_row)
  : aggregated_locations_row :=
  {| al_id := al_id r; al_grid_id := al_grid_id r;
     al_latitude := al_latitude r; al_longitude := al_longitude r;
     al_total_potholes := al_total_potholes r;
     al_total_patchy := al_total_patchy r;
     al_highest_severity := al_highest_severity r;
     al_report_count := al_report_count r;
     al_first_reported_at := al_first_reported_at r;
     al_last_reported_at := al_last_reported_at r;
     al_status := LVerified; al_verified_at := Some now |}.

(** UPDATE aggregated_locations
    SET status = 'verified', verified_at = NOW() WHERE id = ? *)
Definition update_location_verified (env : environment) (id : Z) : M Z :=
  query env Write "aggregated_locations" aggregated_locations_columns
    ["status"; "verified_at"; "id"]
    (fun d =>
       let hit := fun r => al_id r =? id in
       Ok (affected hit (aggregated_locations (rows d)),
           with_rows (fun t =>
             set_aggregated_locations
               (update_where hit (verified_now (NOW env))
                  (aggregated_locations t)) t) d)).

Definition closed_as (st : AssignmentStatus) (now : string)
    (admin_notes : option string) (w : work_assignments_row)
  : work_assignments_row :=
  {| wa_id := wa_id w;
     wa_aggregated_location_id := wa_aggregated_location_id w;
     wa_contractor_id := wa_contractor_id w;
     wa_assigned_by := wa_assigned_by w;
     wa_assigned_at := wa_assigned_at w; wa_due_date := wa_due_date w;
     wa_status := st; wa_completed_at := Some now;
     wa_admin_notes := admin_notes; wa_notes := wa_notes w |}.

(** aggregated_location_id = ? AND status IN (...) *)
Definition on_location_in (location : Z) (sts : list AssignmentStatus)
    (w : work_assignments_row) : bool :=
  (wa_aggregated_location_id w =? location)
  && existsb (assignment_status_eqb (wa_status w)) sts.

(** UPDATE work_assignments
    SET status = <st>, completed_at = NOW(), admin_notes = ?
    WHERE aggregated_location_id = ? AND status IN <from> *)
Definition update_assignments_closed (env : environment)
    (st : AssignmentStatus) (from : list AssignmentStatus)
    (admin_notes : option string) (location : Z) : M Z :=
  query env Write "work_assignments" work_assignments_columns
    ["status"; "completed_at"; "admin_notes"; "aggregated_location_id"]
    (fun d =>
       let hit := on_location_in location from in
       Ok (affected hit (work_assignments (rows d)),
           with_rows (fun t =>
             set_work_assignments
               (update_where hit (closed_as st (NOW env) admin_notes)
                  (work_assignments t)) t) d)).

(** [req.params.locationId] and the body of the verify and reject
    handlers. *)
Record verify_request := {
  vr_locationId : Z;
  vr_locationIds : option (list Z);
  vr_notes : option string;
  vr_reason : option string
}.

Definition verifyLocation_try (env : environment) (req : verify_request)
  : M response :=
  let locationId := vr_locationId req in
  locationResult <- update_location_verified env locationId ;;
  if locationResult =? 0
  then ret (respond 404 (Message "Location not found"))
  else
    assignmentResult <-
      update_assignments_closed env WVerified
        [WPendingVerification; WInProgress; WAssigned]
        (Some (str_or (vr_notes req) "Verified from dashboard"))
        locationId ;;
    ret (respond 200
           (Verified "Work verified successfully"
              (0 <? locationResult) (0 <? assignmentResult))).

(** [exports.verifyLocation] *)
Definition verifyLocation (env : environment) (req : verify_request)
  : session -> response * session :=
  pooled (verifyLocation_try env req)
    (fun e => respond 500 (Failure "Failed to verify work" e)).

(** The loop of [batchVerifyLocations], with its two running sums. *)
Fixpoint batchVerifyLocations_loop (env : environment)
    (notes : option string) (locationIds : list Z)
    (locationsUpdated assignmentsUpdated : Z) : M (Z * Z) :=
  match locationIds with
  | [] => ret (locationsUpdated, assignmentsUpdated)
  | locationId :: rest =>
      locResult <- update_location_verified env locationId ;;
      assignResult <-
        update_assignments_closed env WVerified
          [WPendingVerification; WInProgress; WAssigned]
          (Some (str_or notes "Batch verified from dashboard"))
          locationId ;;
      batchVerifyLocations_loop env notes rest
        (locationsUpdated + locResult) (assignmentsUpdated + assignResult)
  end.

(** [`${n} locations ...`] *)
Definition count_text (n : nat) (tail : string) : string :=
  (decimal_digits (Z.of_nat n) ++ tail)%string.

Definition batchVerifyLocations_try (env : environment)
    (req : verify_request) : M response :=
  beginTransaction ;;;
  match vr_locationIds req with
  | Some ((_ :: _) as locationIds) =>
      sums <- batchVerifyLocations_loop env (vr_notes req) locationIds 0 0 ;;
      commit ;;;
      ret (respond 200
             (BatchVerified
                (count_text (List.length locationIds)
                   " locations verified successfully")
                (fst sums) (snd sums)))
  | _ => ret (respond 400 (Message "locationIds are required"))
  end.

(** [exports.batchVerifyLocations] *)
Definition batchVerifyLocations (env : environment) (req : verify_request)
  : session -> response * session :=
  transactional (batchVerifyLocations_try env req)
    (fun e => respond 500 (Failure "Failed to batch verify" e)).

(* ===================================================================== *)
(** * [controllers/admin_controller.js]                                   *)
(* ===================================================================== *)

Definition assignToContractor_try (env : environment)
    (req : assign_request) : M response :=
  let locationId := as_locationId req in
  let contractorId := as_contractorId req in
  locations <- select_location_by_id env locationId ;;
  match locations with
  | [] => ret (respond 404 (Message "Location not found"))
  | _ :: _ =>
    contractors <- select_active_contractor env contractorId ;;
    match contractors with
    | [] => ret (respond 404 (Message "Contractor not found or inactive"))
    | _ :: _ =>
        insertId <-
          insert_work_assignment env
            ["aggregated_location_id"; "contractor_id"; "assigned_by";
             "due_date"; "notes"]
            locationId contractorId (as_user req)
            (as_dueDate req) (as_notes req) ;;
        update_location_status env LAssigned locationId ;;;
        ret (respond 201
               (Assignment "Assignment created successfully" insertId))
    end
  end.

(** [exports.assignToContractor] *)
Definition assignToContractor (env : environment) (req : assign_request)
  : session -> response * session :=
  pooled (assignToContractor_try env req)
    (fun e => respond 500 (Failure "Failed to create assignment" e)).

(** The loop of [batchAssign]; [assignmentIds] grows by [push]. *)
Fixpoint batchAssign_loop (env : environment) (req : assign_request)
    (locationIds : list Z) (assignmentIds : list Z) : M (list Z) :=
  match locationIds with
  | [] => ret assignmentIds
  | locationId :: rest =>
      due <-
        match str_or_null (as_dueDate req) with
        | Some dueDate =>
            t <- toMySQLDatetime env (Some dueDate) ;; ret (Some t)
        | None => ret None
        end ;;
      insertId <-
        insert_work_assignment env
          ["aggregated_location_id"; "contractor_id"; "assigned_by";
           "due_date"; "notes"]
          (Some locationId) (as_contractorId req) (as_user req)
          due (as_notes req) ;;
      update_location_status env LAssigned (Some locationId) ;;;
      batchAssign_loop env req rest (assignmentIds ++ [insertId])
  end.

Definition batchAssign_try (env : environment) (req : assign_request)
  : M response :=
  beginTransaction ;;;
  match as_locationIds req with
  | Some ((_ :: _) as locationIds) =>
      if negb (id_truthy (as_contractorId req))
      then ret (respond 400
                  (Message "locationIds and contractorId are required"))
      else
        contractors <- select_active_contractor env (as_contractorId req) ;;
        match contractors with
        | [] =>
            ret (respond 404 (Message "Contractor not found or inactive"))
        | _ :: _ =>
            assignmentIds <- batchAssign_loop env req locationIds [] ;;
            commit ;;;
            ret (respond 201
                   (Assignments
                      (count_text (List.length locationIds)
                         " locations assigned successfully")
                      assignmentIds))
        end
  | _ =>
      ret (respond 400
             (Message "locationIds and contractorId are required"))
  end.

(** [exports.batchAssign] *)
Definition batchAssign (env : environment) (req : assign_request)
  : session -> response * session :=
  transactional (batchAssign_try env req)
    (fun e => respond 500 (Failure "Failed to batch assign" e)).

Definition verifyWork_try (env : environment) (req : verify_request)
  : M response :=
  let locationId := vr_locationId req in
  update_location_verified env locationId ;;;
  update_assignments_closed env WCompleted [WInProgress] (vr_notes req)
    locationId ;;;
  ret (respond 200 (Message "Work verified successfully")).

(** [exports.verifyWork] *)
Definition verifyWork (env : environment) (req : verify_request)
  : session -> response * session :=
  pooled (verifyWork_try env req)
    (fun e => respond 500 (Failure "Failed to verify work" e)).

Definition batchVerify_try (env : environment) (req : verify_request)
  : M response :=
  beginTransaction ;;;
  match vr_locationIds req with
  | Some ((_ :: _) as locationIds) =>
      for_each
        (fun locationId =>
           update_location_verified env locationId ;;;
           update_assignments_closed env WCompleted
             [WAssigned; WInProgress] (vr_notes req) locationId ;;;
           ret tt)
        locationIds ;;;
      commit ;;;
      ret (respond 200
             (Message (count_text (List.length locationIds)
                         " locations verified successfully")))
  | _ => ret (respond 400 (Message "locationIds are required"))
  end.

(** [exports.batchVerify] *)
Definition batchVerify (env : environment) (req : verify_request)
  : session -> response * session :=
  transactional (batchVerify_try env req)
    (fun e => respond 500 (Failure "Failed to batch verify" e)).

Definition reopened (admin_notes : option string) (w : work_assignments_row)
  : work_assignments_row :=
  {| wa_id := wa_id w;
     wa_aggregated_location_id := wa_aggregated_location_id w;
     wa_contractor_id := wa_contractor_id w;
     wa_assigned_by := wa_assigned_by w;
     wa_assigned_at := wa_assigned_at w; wa_due_date := wa_due_date w;
     wa_status := WInProgress; wa_completed_at := wa_completed_at w;
     wa_admin_notes := admin_notes; wa_notes := wa_notes w |}.

(** UPDATE work_assignments
    SET status = 'in_progress', admin_notes = ?
    WHERE aggregated_location_id = ? AND status = 'pending_verification' *)
Definition update_assignments_reopened (env : environment)
    (reason : option string) (location : Z) : M Z :=
  query env Write "work_assignments" work_assignments_columns
    ["status"; "admin_notes"; "aggregated_location_id"]
    (fun d =>
       let hit := on_location_in location [WPendingVerification] in
       Ok (affected hit (work_assignments (rows d)),
           with_rows (fun t =>
             set_work_assignments
               (update_where hit (reopened reason) (work_assignments t)) t)
             d)).

Definition rejectVerification_try (env : environment)
    (req : verify_request) : M response :=
  let locationId := vr_locationId req in
  update_assignments_reopened env (vr_reason req) locationId ;;;
  update_location_status env LAssigned (Some locationId) ;;;
  ret (respond 200
         (Message "Verification rejected, sent back to contractor")).

(** [exports.rejectVerification] *)
Definition rejectVerification (env : environment) (req : verify_request)
  : session -> response * session :=
  pooled (rejectVerification_try env req)
    (fun e => respond 500 (Failure "Failed to reject verification" e)).

(* ===================================================================== *)
(** * [controllers/contractor_controller.js]                              *)
(* ===================================================================== *)

(** [req.user.id], [req.params.jobId] and the body of [updateJobStatus]. *)
Record job_request := {
  jr_user : Z;
  jr_jobId : Z;
  jr_status : option string;
  jr_notes : option string
}.

(** SELECT id FROM contractors WHERE user_id = ? *)
Definition select_contractor_by_user (env : environment) (user : Z)
  : M (list contractors_row) :=
  query env Read "contractors" contractors_columns ["id"; "user_id"]
    (fun d =>
       Ok (filter (fun c => match c_user_id c with
                            | Some u => u =? user
                            | None => false
                            end) (contractors (rows d)), d)).

(** SELECT * FROM work_assignments WHERE id = ? AND contractor_id = ? *)
Definition select_job (env : environment) (job contractor : Z)
  : M (list work_assignments_row) :=
  query env Read "work_assignments" work_assignments_columns
    ["id"; "contractor_id"]
    (fun d =>
       Ok (filter (fun w => (wa_id w =? job)
                            && (wa_contractor_id w =? contractor))
             (work_assignments (rows d)), d)).

Definition newline : string := String (ascii_of_nat 10) "".

Definition job_updated (st : AssignmentStatus) (note : string)
    (w : work_assignments_row) : work_assignments_row :=
  {| wa_id := wa_id w;
     wa_aggregated_location_id := wa_aggregated_location_id w;
     wa_contractor_id := wa_contractor_id w;
     wa_assigned_by := wa_assigned_by w;
     wa_assigned_at := wa_assigned_at w; wa_due_date := wa_due_date w;
     wa_status := st; wa_completed_at := wa_completed_at w;
     wa_admin_notes := wa_admin_notes w;
     wa_notes :=
       Some (match wa_notes w with Some n => n | None => "" end
             ++ newline ++ note)%string |}.

(** UPDATE work_assignments
    SET status = ?, notes = CONCAT(COALESCE(notes, ''), '\n', ?),
        completion_date = ?
    WHERE id = ?
    The rows carry no [completion_date]: where the statement is accepted
    it sets the other two columns. *)
Definition update_job (env : environment) (st note : string)
    (completionDate : option string) (job : Z) : M Z :=
  query env Write "work_assignments" work_assignments_columns
    ["status"; "notes"; "completion_date"; "id"]
    (fun d =>
       let hit := fun w => wa_id w =? job in
       if existsb hit (work_assignments (rows d)) then
         match assignment_status_of_string st with
         | Some s =>
             Ok (affected hit (work_assignments (rows d)),
                 with_rows (fun t =>
                   set_work_assignments
                     (update_where hit (job_updated s note)
                        (work_assignments t)) t) d)
         | None => Throw WARN_DATA_TRUNCATED
         end
       else Ok (0, d)).

Definition validStatuses : list string :=
  ["assigned"; "in_progress"; "completed"; "verified"].

(** [validStatuses.includes(status)] *)
Definition includes (l : list string) (s : option string) : bool :=
  match s with
  | Some x => existsb (String.eqb x) l
  | None => false
  end.

Definition updateJobStatus_try (env : environment) (req : job_request)
  : M response :=
  if negb (includes validStatuses (jr_status req))
  then ret (respond 400 (Message "Invalid status"))
  else
    let st := str_or (jr_status req) "" in
    contractors <- select_contractor_by_user env (jr_user req) ;;
    match contractors with
    | [] => ret (respond 404 (Message "Contractor profile not found"))
    | contractor :: _ =>
      jobs <- select_job env (jr_jobId req) (c_id contractor) ;;
      match jobs with
      | [] => ret (respond 404 (Message "Job not found"))
      | job :: _ =>
          let completionDate :=
            if (st =? "completed")%string then Some (Date_now env)
            else None in
          update_job env st (str_or (jr_notes req) "") completionDate
            (jr_jobId req) ;;;
          (if (st =? "completed")%string
           then update_location_status env LFixed
                  (Some (wa_aggregated_location_id job)) ;;; ret tt
           else ret tt) ;;;
          ret (respond 200 (Message "Job status updated successfully"))
      end
    end.

(** [exports.updateJobStatus] *)
Definition updateJobStatus (env : environment) (req : job_request)
  : session -> response * session :=
  pooled (updateJobStatus_try env req)
    (fun e => respond 500 (Failure "Failed to update job" e)).

(* ===================================================================== *)
(** * [controllers/report_controller.js]: reading back, status changes    *)
(* ===================================================================== *)

(** The bodies of the handlers of this part and of the next one: the
    bodies above, and three of their own. *)
Inductive reply :=
| Plain (b : json)
| StatusUpdated (message status : string)
| ReportDetails (report : reports_row) (user : option users_row)
    (potholes : list pothole_detections_row)
    (roadAnomalies : list road_anomalies_row)
| JobStats (total_jobs : Z) (assigned in_progress completed verified
                              : option Z).

(** [res.status(code).json(b)] *)
Definition answer {B} (code : Z) (b : B) : response_of B :=
  {| status := code; body := b |}.

(** [pooled] and [serve] for a handler with bodies of type [B]. *)
Definition pooled_of {B} (try_block : M (response_of B))
    (catch_block : exn -> response_of B) (s0 : session)
  : response_of B * session :=
  match try_block s0 with
  | (Ok r, s) => (r, s)
  | (Throw e, s) => (catch_block e, s)
  end.

Definition serve_of {B} (h : session -> response_of B * session)
    (d : database) : response_of B * database * list event :=
  let '(r, s) := h {| db := d; undo := None; issued := O; trace := [] |} in
  (r, db s, trace s).

(** ** [updateReportStatus] *)

Definition report_status_of_string (s : string) : option ReportStatus :=
  if (s =? "pending")%string then Some RPending
  else if (s =? "reviewed")%string then Some RReviewed
  else if (s =? "assigned")%string then Some RAssigned
  else if (s =? "in_progress")%string then Some RInProgress
  else if (s =? "resolved")%string then Some RResolved
  else None.

Definition with_report_status (st : ReportStatus) (r : reports_row)
  : reports_row :=
  {| r_id := r_id r; r_report_id := r_report_id r;
     r_user_id := r_user_id r; r_device_id := r_device_id r;
     r_reported_at := r_reported_at r;
     r_total_potholes := r_total_potholes r;
     r_total_patchy_roads := r_total_patchy_roads r;
     r_health_score := r_health_score r; r_status := st |}.

(** UPDATE reports SET status = ? WHERE report_id = ? *)
Definition update_report_status (env : environment) (st report_id : string)
  : M Z :=
  query env Write "reports" reports_columns ["status"; "report_id"]
    (fun d =>
       let hit := fun r => (r_report_id r =? report_id)%string in
       if existsb hit (reports (rows d)) then
         match report_status_of_string st with
         | Some s =>
             Ok (affected hit (reports (rows d)),
                 with_rows (fun t =>
                   set_reports
                     (update_where hit (with_report_status s) (reports t))
                     t) d)
         | None => Throw WARN_DATA_TRUNCATED
         end
       else Ok (0, d)).

(** [req.params.reportId] and [req.body.status]. *)
Record status_request := {
  st_reportId : string;
  st_status : option string
}.

Definition reportStatuses : list string :=
  ["pending"; "reviewed"; "assigned"; "in_progress"; "resolved"].

Definition updateReportStatus_try (env : environment)
    (req : status_request) : M (response_of reply) :=
  if negb (includes reportStatuses (st_status req))
  then ret (answer 400 (Plain (Message "Invalid status")))
  else
    let st := str_or (st_status req) "" in
    result <- update_report_status env st (st_reportId req) ;;
    if result =? 0
    then ret (answer 404 (Plain (Message "Report not found")))
    else ret (answer 200 (StatusUpdated "Status updated successfully" st)).

(** [exports.updateReportStatus] *)
Definition updateReportStatus (env : environment) (req : status_request)
  : session -> response_of reply * session :=
  pooled_of (updateReportStatus_try env req)
    (fun e => answer 500 (Plain (Failure "Failed to update status" e))).

(** ** [getReportById] *)

(** reports r LEFT JOIN users u ON r.user_id = u.id, for one report *)
Definition left_join_user (us : list users_row) (r : reports_row)
  : list (reports_row * option users_row) :=
  match filter (fun u => match r_user_id r with
                         | Some i => u_id u =? i
                         | None => false
                         end) us with
  | [] => [(r, None)]
  | u :: l => map (fun x => (r, Some x)) (u :: l)
  end.

(** SELECT r.*, u.email as user_email
    FROM reports r LEFT JOIN users u ON r.user_id = u.id
    WHERE r.report_id = ?
    The joined users row stands for its email. *)
Definition select_report_with_user (env : environment) (reportId : string)
  : M (list (reports_row * option users_row)) :=
  query env Read "reports" (reports_columns ++ users_columns)
    ["user_id"; "id"; "email"; "report_id"]
    (fun d =>
       Ok (flat_map (left_join_user (users (rows d)))
             (filter (fun r => (r_report_id r =? reportId)%string)
                (reports (rows d))), d)).

(** SELECT * FROM pothole_detections WHERE report_id = ? *)
Definition select_potholes_of (env : environment) (report : Z)
  : M (list pothole_detections_row) :=
  query env Read "pothole_detections" pothole_detections_columns
    ["report_id"]
    (fun d =>
       Ok (filter (fun p => pd_report_id p =? report)
             (pothole_detections (rows d)), d)).

(** SELECT * FROM road_anomalies WHERE report_id = ? *)
Definition select_anomalies_of (env : environment) (report : Z)
  : M (list road_anomalies_row) :=
  query env Read "road_anomalies" road_anomalies_columns ["report_id"]
    (fun d =>
       Ok (filter (fun a => ra_report_id a =? report)
             (road_anomalies (rows d)), d)).

Definition getReportById_try (env : environment) (reportId : string)
  : M (response_of reply) :=
  reports <- select_report_with_user env reportId ;;
  match reports with
  | [] => ret (answer 404 (Plain (Message "Report not found")))
  | (report, user) :: _ =>
      potholes <- select_potholes_of env (r_id report) ;;
      anomalies <- select_anomalies_of env (r_id report) ;;
      ret (answer 200 (ReportDetails report user potholes anomalies))
  end.

(** [exports.getReportById] *)
Definition getReportById (env : environment) (reportId : string)
  : session -> response_of reply * session :=
  pooled_of (getReportById_try env reportId)
    (fun e => answer 500 (Plain (Failure "Failed to get report" e))).

(** ** [updateWorkAssignment] *)

(** [req.params.assignmentId] and the body.  [au_notes] is [None] for
    [undefined], [Some None] for [null]. *)
Record assignment_update := {
  au_assignmentId : Z;
  au_status : option string;
  au_notes : option (option string)
}.

Definition assignmentStatuses : list string :=
  ["assigned"; "in_progress"; "pending_verification"; "completed";
   "verified"].

Definition location_status_of_string (s : string) : option LocationStatus :=
  if (s =? "pending")%string then Some LPending
  else if (s =? "assigned")%string then Some LAssigned
  else if (s =? "in_progress")%string then Some LInProgress
  else if (s =? "pending_verification")%string
  then Some LPendingVerification
  else if (s =? "verified")%string then Some LVerified
  else if (s =? "fixed")%string then Some LFixed
  else None.

(** [status === 'completed' || status === 'verified'] *)
Definition closes (status : string) : bool :=
  (status =? "completed")%string || (status =? "verified")%string.

(** The [updates] array: one entry per column that is set. *)
Definition updates_of (status : option string)
    (notes : option (option string)) : list string :=
  match status with
  | Some st =>
      "status = ?" :: (if closes st then ["completed_at = NOW()"] else [])
  | None => []
  end
  ++ match notes with
     | Some _ => ["notes = ?"]
     | None => []
     end.

(** The columns that [updates] names. *)
Definition columns_of (status : option string)
    (notes : option (option string)) : list string :=
  match status with
  | Some st => "status" :: (if closes st then ["completed_at"] else [])
  | None => []
  end
  ++ match notes with
     | Some _ => ["notes"]
     | None => []
     end.

Definition assignment_changed (st : option AssignmentStatus)
    (stamp : option string) (notes : option (option string))
    (w : work_assignments_row) : work_assignments_row :=
  {| wa_id := wa_id w;
     wa_aggregated_location_id := wa_aggregated_location_id w;
     wa_contractor_id := wa_contractor_id w;
     wa_assigned_by := wa_assigned_by w;
     wa_assigned_at := wa_assigned_at w; wa_due_date := wa_due_date w;
     wa_status := match st with Some x => x | None => wa_status w end;
     wa_completed_at :=
       match stamp with Some now => Some now | None => wa_completed_at w end;
     wa_admin_notes := wa_admin_notes w;
     wa_notes := match notes with Some n => n | None => wa_notes w end |}.

(** UPDATE work_assignments SET ${updates.join(", ")} WHERE id = ? *)
Definition update_assignment_fields (env : environment)
    (status : option string) (notes : option (option string)) (id : Z)
  : M Z :=
  query env Write "work_assignments" work_assignments_columns
    (columns_of status notes ++ ["id"])
    (fun d =>
       let hit := fun w => wa_id w =? id in
       let changed := fun st stamp =>
         Ok (affected hit (work_assignments (rows d)),
             with_rows (fun t =>
               set_work_assignments
                 (update_where hit (assignment_changed st stamp notes)
                    (work_assignments t)) t) d) in
       if existsb hit (work_assignments (rows d)) then
         match status with
         | Some x =>
             match assignment_status_of_string x with
             | Some st =>
                 changed (Some st)
                   (if closes x then Some (NOW env) else None)
             | None => Throw WARN_DATA_TRUNCATED
             end
         | None => changed None None
         end
       else Ok (0, d)).

(** SELECT aggregated_location_id FROM work_assignments WHERE id = ? *)
Definition select_assignment_by_id (env : environment) (id : Z)
  : M (list work_assignments_row) :=
  query env Read "work_assignments" work_assignments_columns
    ["aggregated_location_id"; "id"]
    (fun d =>
       Ok (filter (fun w => wa_id w =? id) (work_assignments (rows d)), d)).

(** UPDATE aggregated_locations SET status = ? WHERE id = ? *)
Definition update_location_status_to (env : environment) (st : string)
    (id : Z) : M Z :=
  query env Write "aggregated_locations" aggregated_locations_columns
    ["status"; "id"]
    (fun d =>
       let hit := fun r => al_id r =? id in
       if existsb hit (aggregated_locations (rows d)) then
         match location_status_of_string st with
         | Some s =>
             Ok (affected hit (aggregated_locations (rows d)),
                 with_rows (fun t =>
                   set_aggregated_locations
                     (update_where hit (with_location_status s)
                        (aggregated_locations t)) t) d)
         | None => Throw WARN_DATA_TRUNCATED
         end
       else Ok (0, d)).

(** let locationStatus = status;
    if (status === 'completed') locationStatus = 'pending_verification';
    if (status === 'verified') locationStatus = 'verified'; *)
Definition locationStatus_of (status : string) : string :=
  let locationStatus := status in
  let locationStatus :=
    if (status =? "completed")%string then "pending_verification"
    else locationStatus in
  if (status =? "verified")%string then "verified" else locationStatus.

Definition updateWorkAssignment_try (env : environment)
    (req : assignment_update) : M response :=
  let assignmentId := au_assignmentId req in
  let status := str_or_null (au_status req) in
  let notes := au_notes req in
  if match status with
     | Some _ => negb (includes assignmentStatuses status)
     | None => false
     end
  then ret (respond 400 (Message "Invalid status"))
  else
    match updates_of status notes with
    | [] => ret (respond 400 (Message "No updates provided"))
    | _ :: _ =>
        result <- update_assignment_fields env status notes assignmentId ;;
        if result =? 0
        then ret (respond 404 (Message "Assignment not found"))
        else
          match status with
          | Some st =>
              assignment <- select_assignment_by_id env assignmentId ;;
              match assignment with
              | a :: _ =>
                  update_location_status_to env (locationStatus_of st)
                    (wa_aggregated_location_id a) ;;; ret tt
              | [] => ret tt
              end
          | None => ret tt
          end ;;;
          ret (respond 200 (Message "Assignment updated successfully"))
    end.

(** [exports.updateWorkAssignment] *)
Definition updateWorkAssignment (env : environment)
    (req : assignment_update) : session -> response * session :=
  pooled (updateWorkAssignment_try env req)
    (fun e => respond 500 (Failure "Failed to update assignment" e)).

(* ===================================================================== *)
(** * [controllers/contractor_controller.js]: job statistics              *)
(* ===================================================================== *)

(** COUNT( * ) *)
Definition count_rows {R} (l : list R) : Z := Z.of_nat (List.length l).

(** SUM(CASE WHEN status = <st> THEN 1 ELSE 0 END): NULL over no row. *)
Definition sum_case (st : AssignmentStatus) (l : list work_assignments_row)
  : option Z :=
  match l with
  | [] => None
  | _ :: _ =>
      Some (fold_right
              (fun w acc =>
                 (if assignment_status_eqb (wa_status w) st then 1 else 0)
                 + acc)
              0 l)
  end.

(** SELECT COUNT( * ) as total_jobs,
           SUM(CASE WHEN status = 'assigned' THEN 1 ELSE 0 END) as assigned,
           SUM(CASE WHEN status = 'in_progress' THEN 1 ELSE 0 END)
             as in_progress,
           SUM(CASE WHEN status = 'completed' THEN 1 ELSE 0 END)
             as completed,
           SUM(CASE WHEN status = 'verified' THEN 1 ELSE 0 END) as verified
    FROM work_assignments WHERE contractor_id = ?
    One row, always. *)
Definition select_job_stats (env : environment) (contractor : Z)
  : M reply :=
  query env Read "work_assignments" work_assignments_columns
    ["status"; "contractor_id"]
    (fun d =>
       let mine := filter (fun w => wa_contractor_id w =? contractor)
                     (work_assignments (rows d)) in
       Ok (JobStats (count_rows mine) (sum_case WAssigned mine)
             (sum_case WInProgress mine) (sum_case WCompleted mine)
             (sum_case WVerified mine), d)).

Definition getStats_try (env : environment) (user : Z)
  : M (response_of reply) :=
  contractors <- select_contractor_by_user env user ;;
  match contractors with
  | [] => ret (answer 404 (Plain (Message "Contractor profile not found")))
  | contractor :: _ =>
      stats <- select_job_stats env (c_id contractor) ;;
      ret (answer 200 stats)
  end.

(** [exports.getStats] (contractor controller), for [req.user.id] *)
Definition getStats (env : environment) (user : Z)
  : session -> response_of reply * session :=
  pooled_of (getStats_try env user)
    (fun e => answer 500 (Plain (Failure "Failed to get stats" e))).

(* ===================================================================== *)
(** * [routes]: which handler a request reaches                           *)
(* ===================================================================== *)

(** [s.split(c)] for a one-character separator. *)
Fixpoint split_on (c : ascii) (s : string) : list string :=
  match s with
  | EmptyString => [""]
  | String x r =>
      if Ascii.eqb x c then "" :: split_on c r
      else
        match split_on c r with
        | h :: t => String x h :: t
        | [] => [String x ""]
        end
  end.

(** A letter of ASCII in lower case; the routers are not case
    sensitive. *)
Definition lower (c : ascii) : ascii :=
  let n := ascii_code c in
  if (65 <=? n) && (n <=? 90) then ascii_of_N (Z.to_N (n + 32)) else c.

Fixpoint to_lower (s : string) : string :=
  match s with
  | EmptyString => EmptyString
  | String c r => String (lower c) (to_lower r)
  end.

Definition eqb_ci (a b : string) : bool := (to_lower a =? to_lower b)%string.

(** The segments between the slashes of a path that starts with a slash;
    one slash at the end is optional ([strict] is off). *)
Definition segments (path : string) : option (list string) :=
  match split_on "/" path with
  | "" :: rest =>
      Some match rev rest with
           | "" :: r => rev r
           | _ => rest
           end
  | _ => None
  end.

Inductive segment :=
| Lit (s : string)
| Par (name : string).

(** [:name] stands for one segment that is not empty. *)
Definition segment_of (s : string) : segment :=
  match s with
  | String ":" name => Par name
  | _ => Lit s
  end.

Fixpoint match_segments (pattern : list segment) (segs : list string)
  : option (list (string * string)) :=
  match pattern, segs with
  | [], [] => Some []
  | Lit l :: pattern', s :: segs' =>
      if eqb_ci l s then match_segments pattern' segs' else None
  | Par name :: pattern', s :: segs' =>
      if (s =? "")%string then None
      else option_map (cons (name, s)) (match_segments pattern' segs')
  | _, _ => None
  end.

(** [router.<verb>(path, ...stack, handler)] *)
Record route := {
  verb : string;
  path_pattern : string;
  stack : list string;
  handler : string
}.

(** [req.params] when the route takes the request, [None] when it does
    not: the verb has to be the method of the request ([get] also takes
    HEAD) and the pattern has to match the whole path. *)
Definition route_matches (r : route) (method path : string)
  : option (list (string * string)) :=
  let m := to_lower method in
  if (m =? verb r)%string
     || ((m =? "head")%string && (verb r =? "get")%string)
  then
    match segments (path_pattern r), segments path with
    | Some pattern, Some segs =>
        match_segments (map segment_of pattern) segs
    | _, _ => None
    end
  else None.

(** The route whose stack a request enters: the first one, in the order
    of registration, that takes it. *)
Fixpoint dispatch (routes : list route) (method path : string)
  : option (route * list (string * string)) :=
  match routes with
  | [] => None
  | r :: rest =>
      match route_matches r method path with
      | Some params => Some (r, params)
      | None => dispatch rest method path
      end
  end.

Definition admin_only : list string := ["auth"; "role(admin)"].

(** [routes/admin_routes.js] *)
Definition admin_routes : list route :=
  [ {| verb := "get"; path_pattern := "/dashboard"; stack := admin_only;
       handler := "dashboard" |};
    {| verb := "get"; path_pattern := "/users"; stack := admin_only;
       handler := "getAllUsers" |};
    {| verb := "get"; path_pattern := "/reports"; stack := admin_only;
       handler := "getAllReports" |};
    {| verb := "get"; path_pattern := "/potholes"; stack := admin_only;
       handler := "getPotholeDetections" |};
    {| verb := "get"; path_pattern := "/potholes/grouped";
       stack := admin_only; handler := "getPotholesGrouped" |};
    {| verb := "get"; path_pattern := "/contractors"; stack := admin_only;
       handler := "getContractors" |};
    {| verb := "post"; path_pattern := "/contractors"; stack := admin_only;
       handler := "createContractor" |};
    {| verb := "post"; path_pattern := "/assign"; stack := admin_only;
       handler := "assignToContractor" |};
    {| verb := "post"; path_pattern := "/assign/batch"; stack := admin_only;
       handler := "batchAssign" |};
    {| verb := "get"; path_pattern := "/assignments"; stack := admin_only;
       handler := "getAssignments" |};
    {| verb := "post"; path_pattern := "/verify/:locationId";
       stack := admin_only; handler := "verifyWork" |};
    {| verb := "post"; path_pattern := "/verify/batch"; stack := admin_only;
       handler := "batchVerify" |};
    {| verb := "post"; path_pattern := "/verify/:locationId/reject";
       stack := admin_only; handler := "rejectVerification" |};
    {| verb := "get"; path_pattern := "/map/points"; stack := admin_only;
       handler := "getMapPoints" |};
    {| verb := "get"; path_pattern := "/history"; stack := admin_only;
       handler := "getHistory" |} ].

(** [routes/report_routes.js] *)
Definition report_routes : list route :=
  [ {| verb := "post"; path_pattern := "/submit"; stack := ["optionalAuth"];
       handler := "submitReport" |};
    {| verb := "get"; path_pattern := "/"; stack := ["auth"];
       handler := "getAllReports" |};
    {| verb := "get"; path_pattern := "/:reportId"; stack := ["auth"];
       handler := "getReportById" |};
    {| verb := "get"; path_pattern := "/location/nearby"; stack := [];
       handler := "getReportsByLocation" |};
    {| verb := "get"; path_pattern := "/aggregated/locations"; stack := [];
       handler := "getAggregatedLocations" |};
    {| verb := "get"; path_pattern := "/contractors/list"; stack := [];
       handler := "getContractorsList" |};
    {| verb := "get"; path_pattern := "/assignments"; stack := [];
       handler := "getWorkAssignments" |};
    {| verb := "post"; path_pattern := "/assignments"; stack := [];
       handler := "createWorkAssignment" |};
    {| verb := "patch"; path_pattern := "/assignments/:assignmentId";
       stack := []; handler := "updateWorkAssignment" |};
    {| verb := "get"; path_pattern := "/history/verified"; stack := [];
       handler := "getVerifiedHistory" |};
    {| verb := "patch"; path_pattern := "/:reportId/status";
       stack := ["auth"]; handler := "updateReportStatus" |};
    {| verb := "get"; path_pattern := "/stats/overview"; stack := [];
       handler := "getStatistics" |} ].

(** [routes/contractor_routes.js] *)
Definition contractor_routes : list route :=
  [ {| verb := "get"; path_pattern := "/jobs";
       stack := ["auth"; "role(contractor)"]; handler := "jobs" |};
    {| verb := "patch"; path_pattern := "/jobs/:jobId/status";
       stack := ["auth"; "role(contractor)"];
       handler := "updateJobStatus" |};
    {| verb := "get"; path_pattern := "/profile";
       stack := ["auth"; "role(contractor)"]; handler := "getProfile" |};
    {| verb := "get"; path_pattern := "/stats";
       stack := ["auth"; "role(contractor)"]; handler := "getStats" |} ].

(* ===================================================================== *)
(** * [middlewares/optionalAuthMiddleware.js]                             *)
(* ===================================================================== *)

(** [req.user] after the middleware, [None] for [null]; [next()] is
    called on every path.  [jwt_verify token] is
    [jwt.verify(token, process.env.JWT_SECRET)], [None] when it throws. *)
Definition optionalAuthMiddleware {payload : Type}
    (jwt_verify : string -> option payload)
    (authorization : option string) : option payload :=
  match str_or_null authorization with
  | None => None
  | Some authHeader =>
      if negb (prefix "Bearer " authHeader) then None
      else
        let token := nth 1 (split_on " " authHeader) "" in
        jwt_verify token
  end.

(* ===================================================================== *)
(** * Quantities the statements below speak of                            *)
(* ===================================================================== *)

(** The severity ordering Low < Medium < High, as [severityOrder] ranks
    the members of the ENUM. *)
Definition severity_rank (s : Severity) : Z :=
  match s with Low => 1 | Medium => 2 | High => 3 end.

Definition severity_max (a b : Severity) : Severity :=
  if severity_rank a <? severity_rank b then b else a.

(** The largest severity of a start value, if any, and a list. *)
Definition merged_severity (start : option Severity) (l : list Severity)
  : option Severity :=
  fold_left
    (fun acc x =>
       Some (match acc with Some a => severity_max a x | None => x end))
    l start.

(** The rows of the grid cell [grid]. *)
Definition cell (grid : string) (d : database)
  : list aggregated_locations_row :=
  filter (fun r => (al_grid_id r =? grid)%string)
    (aggregated_locations (rows d)).

(** [highest_severity] of the grid cell, as a SELECT by [grid_id] reads
    it. *)
Definition highest_at (grid : string) (d : database) : option Severity :=
  match cell grid d with
  | r :: _ => Some (al_highest_severity r)
  | [] => None
  end.

(** The grid key [updateAggregatedLocation] computes for [x]. *)
Definition grid_of (env : environment) (x : detection) : string :=
  gridId (Number_toString env) (d_latitude x) (d_longitude x).

(** The severity [updateAggregatedLocation] merges for [x], when it is a
    member of the ENUM. *)
Definition detection_severity (x : detection) : option Severity :=
  severity_of_string (str_or (d_severity x) "Medium").

(** Detections merged one at a time, each with its [type] argument. *)
Definition merge_all (env : environment) (l : list (detection * string))
  : M unit :=
  for_each (fun x => updateAggregatedLocation env (fst x) (snd x)) l.

(** The severities that merging [l] takes into account. *)
Definition severities (l : list (detection * string)) : list Severity :=
  flat_map (fun x => match detection_severity (fst x) with
                     | Some sv => [sv]
                     | None => []
                     end) l.

(** Two coordinates in the same 4-decimal bucket on the same side of
    zero: both are read as finite numbers below 10^21, they round to the
    same ten-thousandths, and both are negative or neither is. *)
Definition same_rounding (a b : jsv) : Prop :=
  plain (parseFloat a) = true /\ plain (parseFloat b) = true /\
  rounded4 (parseFloat a) = rounded4 (parseFloat b) /\
  is_negative (parseFloat a) = is_negative (parseFloat b).

(** The open assignments of a location. *)
Definition open_on (location : Z) (d : database)
  : list work_assignments_row :=
  filter (fun w => (wa_aggregated_location_id w =? location)
                   && is_open (wa_status w))
    (work_assignments (rows d)).

Definition is_query (e : event) : bool :=
  match e with
  | EvQuery _ _ => true
  | _ => false
  end.

(** Two rows of [aggregated_locations] that agree on everything but
    [status] and [verified_at]. *)
Definition same_cell (r r' : aggregated_locations_row) : Prop :=
  al_id r' = al_id r /\ al_grid_id r' = al_grid_id r /\
  al_latitude r' = al_latitude r /\ al_longitude r' = al_longitude r /\
  al_total_potholes r' = al_total_potholes r /\
  al_total_patchy r' = al_total_patchy r /\
  al_highest_severity r' = al_highest_severity r /\
  al_report_count r' = al_report_count r /\
  al_first_reported_at r' = al_first_reported_at r /\
  al_last_reported_at r' = al_last_reported_at r.

(** Two rows of [work_assignments] that agree on everything but
    [status], [completed_at] and [admin_notes]. *)
Definition same_job (w w' : work_assignments_row) : Prop :=
  wa_id w' = wa_id w /\
  wa_aggregated_location_id w' = wa_aggregated_location_id w /\
  wa_contractor_id w' = wa_contractor_id w /\
  wa_assigned_by w' = wa_assigned_by w /\
  wa_assigned_at w' = wa_assigned_at w /\
  wa_due_date w' = wa_due_date w /\ wa_notes w' = wa_notes w.

(** Two stores that agree outside [aggregated_locations] and
    [work_assignments]. *)
Definition same_elsewhere (d d' : database) : Prop :=
  users (rows d') = users (rows d) /\
  reports (rows d') = reports (rows d) /\
  pothole_detections (rows d') = pothole_detections (rows d) /\
  road_anomalies (rows d') = road_anomalies (rows d) /\
  contractors (rows d') = contractors (rows d) /\
  auto_increment d' = auto_increment d.

(** The statements of a submission that goes through, in order. *)
Definition submit_statements (req : submit_request)
    (anomalies : list anomaly) : list event :=
  (if id_truthy (sr_user req) then [] else [EvQuery Read "users"])
  ++ [EvQuery Write "reports"]
  ++ flat_map (fun _ => [EvQuery Write "pothole_detections";
                         EvQuery Read "aggregated_locations";
                         EvQuery Write "aggregated_locations"])
       (filter (has_type "pothole") anomalies)
  ++ flat_map (fun _ => [EvQuery Write "road_anomalies";
                         EvQuery Read "aggregated_locations";
                         EvQuery Write "aggregated_locations"])
       (filter (has_type "road_anomaly") anomalies).

(** The storage events of a submission that goes through. *)
Definition submit_events (req : submit_request) (anomalies : list anomaly)
  : list event :=
  [EvGetConnection; EvBeginTransaction]
  ++ submit_statements req anomalies
  ++ [EvCommit; EvRelease].

(** [m] sends the statements [evs] when it returns: it leaves the
    transaction mark alone and appends nothing but statements to the
    trace; unless it throws, these are [evs], one statement counted for
    each, none of which the engine rejected. *)
Definition sends {A} (env : environment) (m : M A) (evs : list event)
  : Prop :=
  forall s r s', m s = (r, s') ->
    undo s' = undo s /\
    (exists sent, trace s' = (trace s ++ sent)%list /\
                  forallb is_query sent = true) /\
    match r with
    | Ok _ =>
        trace s' = (trace s ++ evs)%list /\
        issued s' = (issued s + List.length evs)%nat /\
        (forall k, (issued s <= k < issued s')%nat -> fault env k = false)
    | Throw _ => True
    end.

(** [t] is the rest of a [try] block that ends in [commit]: either it
    throws with the transaction still open and nothing but statements
    sent, or it sends [evs], commits and answers with a response that
    satisfies [P]. *)
Definition concludes (env : environment) (P : response -> Prop)
    (t : M response) (evs : list event) : Prop :=
  forall s r s', t s = (r, s') ->
    match r with
    | Throw _ =>
        undo s' = undo s /\
        exists sent, trace s' = (trace s ++ sent)%list /\
                     forallb is_query sent = true
    | Ok resp =>
        P resp /\
        trace s' = (trace s ++ evs ++ [EvCommit])%list /\
        issued s' = (issued s + List.length evs)%nat /\
        (forall k, (issued s <= k < issued s')%nat -> fault env k = false)
    end.

(** From store [d] to store [d']: the reports are untouched and the two
    detection tables have [i] and [j] rows more. *)
Definition grows (i j : nat) (d d' : database) : Prop :=
  reports (rows d') = reports (rows d) /\
  List.length (pothole_detections (rows d'))
  = (List.length (pothole_detections (rows d)) + i)%nat /\
  List.length (road_anomalies (rows d'))
  = (List.length (road_anomalies (rows d)) + j)%nat.

(** What [m] does to the store when it returns. *)
Definition effect {A} (m : M A) (P : database -> database -> Prop) : Prop :=
  forall s a s', m s = (Ok a, s') -> P (db s) (db s').

(** The state of [work_assignments] that the assign operations are
    meant to keep: [id] is a key, below the AUTO_INCREMENT counter, and no
    location has two open assignments. *)
Definition one_open_each (d : database) : Prop :=
  NoDup (map wa_id (work_assignments (rows d))) /\
  (forall w, In w (work_assignments (rows d)) ->
             wa_id w < next_work_assignment (auto_increment d)) /\
  (forall location, (List.length (open_on location d) <= 1)%nat).

(** ** Sample data *)

Definition quiet : environment :=
  {| fault := fun _ => false;
     NOW := "2024-05-01 10:00:00";
     Date_now := "2024-05-01T10:00:00.000Z";
     Date_iso := fun s => Some s;
     Number_toString := fun _ => "1e+21" |}.

(** The engine rejects the statement numbered [k] (from 0). *)
Definition failing_at (k : nat) : environment :=
  {| fault := fun n => Nat.eqb n k;
     NOW := NOW quiet; Date_now := Date_now quiet;
     Date_iso := Date_iso quiet;
     Number_toString := Number_toString quiet |}.

Definition fresh_counters : counters :=
  {| next_report := 1; next_pothole_detection := 1; next_road_anomaly := 1;
     next_aggregated_location := 1; next_work_assignment := 1 |}.

Definition empty_tables : tables :=
  {| users := []; reports := []; pothole_detections := [];
     road_anomalies := []; aggregated_locations := []; contractors := [];
     work_assignments := [] |}.

Definition empty_db : database :=
  {| rows := empty_tables; auto_increment := fresh_counters |}.

Definition num (neg : bool) (m : N) (e10 : Z) : jsv :=
  JNum (double_of_decimal neg m e10).

Definition entry (type : string) (lat lng : jsv) (severity : string)
  : anomaly :=
  {| a_type := Some type; a_location_id := JUndef;
     a_latitude := lat; a_longitude := lng;
     a_start_latitude := JUndef; a_start_longitude := JUndef;
     a_end_latitude := JUndef; a_end_longitude := JUndef;
     a_severity := Some severity; a_timestamp := None;
     a_start_timestamp := None; a_end_timestamp := None;
     a_duration_seconds := JUndef |}.

(** One pothole (High) and one road anomaly (Low) at the same rounded
    coordinates, and a second pothole elsewhere. *)
Definition three_detections : list anomaly :=
  [entry "pothole" (num false 130827 (-4)) (num false 802707 (-4)) "High";
   entry "road_anomaly" (JStr "13.08270") (JStr "80.27070") "Low";
   entry "pothole" (num false 130569 (-4)) (num false 802425 (-4)) "Medium"].

Definition sample_submission : submit_request :=
  {| sr_user := None; sr_report_id := Some "RPT-1";
     sr_device_id := Some "device-1"; sr_reported_at := None;
     sr_anomalies := Some three_detections |}.

Definition sample_location (id : Z) (st : LocationStatus)
  : aggregated_locations_row :=
  {| al_id := id; al_grid_id := "13.0827_80.2707";
     al_latitude := "13.0827"; al_longitude := "80.2707";
     al_total_potholes := 3; al_total_patchy := 2;
     al_highest_severity := High; al_report_count := 5;
     al_first_reported_at := Some "2024-04-26 10:00:00";
     al_last_reported_at := Some "2024-04-30 10:00:00";
     al_status := st; al_verified_at := None |}.

Definition sample_assignment (id location contractor : Z)
    (st : AssignmentStatus) : work_assignments_row :=
  {| wa_id := id; wa_aggregated_location_id := location;
     wa_contractor_id := contractor; wa_assigned_by := Some 1;
     wa_assigned_at := "2024-04-27 09:00:00"; wa_due_date := None;
     wa_status := st; wa_completed_at := None; wa_admin_notes := None;
     wa_notes := None |}.

(** One location, two active contractors (the second one owned by user
    7), and the given assignments. *)
Definition sample_db (st : LocationStatus)
    (assignments : list work_assignments_row) : database :=
  {| rows :=
       {| users := [{| u_id := 1; u_device_id := None |}];
          reports := []; pothole_detections := []; road_anomalies := [];
          aggregated_locations := [sample_location 1 st];
          contractors :=
            [{| c_id := 1; c_user_id := None; c_is_active := true |};
             {| c_id := 2; c_user_id := Some 7; c_is_active := true |}];
          work_assignments := assignments |};
     auto_increment :=
       {| next_report := 1; next_pothole_detection := 1;
          next_road_anomaly := 1; next_aggregated_location := 2;
          next_work_assignment := 10 |} |}.

(** A High pothole given as numbers and a Low road anomaly given as
    strings, both in the cell 13.0827_80.2707. *)
Definition two_in_one_cell : list (detection * string) :=
  [({| d_latitude := num false 130827 (-4);
       d_longitude := num false 802707 (-4);
       d_severity := Some "High" |}, "pothole");
   ({| d_latitude := JStr "13.08270"; d_longitude := JStr "80.27070";
       d_severity := Some "Low" |}, "patchy")].

(** A High pothole at longitude -0.00001 and a Low one at 0.00001, both
    at latitude 51.5: the two longitudes round to 0.0000. *)
Definition across_zero : list (detection * string) :=
  [({| d_latitude := num false 515 (-1); d_longitude := num true 1 (-5);
       d_severity := Some "High" |}, "pothole");
   ({| d_latitude := num false 515 (-1); d_longitude := num false 1 (-5);
       d_severity := Some "Low" |}, "pothole")].

Definition fresh_session (d : database) : session :=
  {| db := d; undo := None; issued := 0; trace := [] |}.

(** The store after the sample submission was accepted. *)
Definition stored_db : database :=
  Eval vm_compute in
    snd (fst (serve (submitReport quiet sample_submission) empty_db)).

(** The sample submission without its report identifier. *)
Definition anonymous_submission : submit_request :=
  {| sr_user := None; sr_report_id := None;
     sr_device_id := Some "device-1"; sr_reported_at := None;
     sr_anomalies := Some three_detections |}.

Definition assign_to (location contractor : Z) : assign_request :=
  {| as_user := Some 1; as_locationId := Some location;
     as_locationIds := Some [location]; as_contractorId := Some contractor;
     as_dueDate := None; as_notes := None |}.

Definition verify_of (location : Z) : verify_request :=
  {| vr_locationId := location; vr_locationIds := Some [location];
     vr_notes := None; vr_reason := Some "patch is uneven" |}.

(* ===================================================================== *)
(** * States and relations of the store-wide statements                   *)
(* ===================================================================== *)

(** [m] keeps [J], a property of the store and of the rows that a
    rollback would restore, whether it returns or throws. *)
Definition keeps {A} (J : database -> option tables -> Prop) (m : M A)
  : Prop :=
  forall s r s', m s = (r, s') -> J (db s) (undo s) -> J (db s') (undo s').

(** Every location has one open assignment at most, now and after a
    rollback to the rows of [d0]. *)
Definition one_open_since (d0 d : database) (u : option tables) : Prop :=
  one_open_each d /\
  next_work_assignment (auto_increment d0)
  <= next_work_assignment (auto_increment d) /\
  (u = None \/ u = Some (rows d0)).

(** No row is inserted and no counter moves: the store is as the rows
    that a rollback restores, with the counters of [d0]. *)
Definition no_insert_since (d0 d : database) (u : option tables) : Prop :=
  auto_increment d = auto_increment d0 /\ u = Some (rows d0).

(** [grid_id] is a key of [aggregated_locations] (it is declared
    UNIQUE). *)
Definition unique_grid (d : database) : Prop :=
  NoDup (map al_grid_id (aggregated_locations (rows d))).

(** What a later state of a grid cell keeps of an earlier one, and what
    can only grow. *)
Definition cell_grew (r r' : aggregated_locations_row) : Prop :=
  al_id r' = al_id r /\ al_grid_id r' = al_grid_id r /\
  al_latitude r' = al_latitude r /\ al_longitude r' = al_longitude r /\
  al_status r' = al_status r /\ al_verified_at r' = al_verified_at r /\
  al_first_reported_at r' = al_first_reported_at r /\
  al_total_potholes r <= al_total_potholes r' /\
  al_total_patchy r <= al_total_patchy r' /\
  al_report_count r <= al_report_count r' /\
  severity_rank (al_highest_severity r)
  <= severity_rank (al_highest_severity r').

(** The sum of a column over the cells. *)
Definition sum_of (f : aggregated_locations_row -> Z)
    (l : list aggregated_locations_row) : Z :=
  fold_right (fun r acc => f r + acc) 0 l.

(** From store [d] to store [d'], with [grid_id] a key: every cell of [d]
    is still there, in place, grown; the cells that come after them are
    new and 'pending'; and over all cells [total_potholes] went up by [i],
    [total_patchy] by [j] and [report_count] by [i + j]. *)
Definition tallies (i j : nat) (d d' : database) : Prop :=
  unique_grid d ->
  unique_grid d' /\
  (exists old' new,
     aggregated_locations (rows d') = (old' ++ new)%list /\
     Forall2 cell_grew (aggregated_locations (rows d)) old' /\
     Forall (fun r => al_status r = LPending /\ al_verified_at r = None)
       new) /\
  sum_of al_total_potholes (aggregated_locations (rows d'))
  = sum_of al_total_potholes (aggregated_locations (rows d)) + Z.of_nat i /\
  sum_of al_total_patchy (aggregated_locations (rows d'))
  = sum_of al_total_patchy (aggregated_locations (rows d)) + Z.of_nat j /\
  sum_of al_report_count (aggregated_locations (rows d'))
  = sum_of al_report_count (aggregated_locations (rows d))
    + Z.of_nat i + Z.of_nat j.

(** 1 for [true], 0 for [false]. *)
Definition one_if (b : bool) : nat := if b then 1%nat else 0%nat.

(** From store [d] to store [d']: users and reports are untouched, and
    the two detection tables have [i] and [j] rows more at their end, all
    of them of the report with id [report]. *)
Definition filed (report : Z) (i j : nat) (d d' : database) : Prop :=
  users (rows d') = users (rows d) /\
  reports (rows d') = reports (rows d) /\
  (exists ps,
     pothole_detections (rows d') = (pothole_detections (rows d) ++ ps)%list
     /\ List.length ps = i
     /\ Forall (fun p => pd_report_id p = report) ps) /\
  (exists qs,
     road_anomalies (rows d') = (road_anomalies (rows d) ++ qs)%list
     /\ List.length qs = j
     /\ Forall (fun q => ra_report_id q = report) qs).

(** Every detection belongs to a report that was inserted before: its
    [report_id] is below the AUTO_INCREMENT counter of [reports]. *)
Definition detections_refer_back (d : database) : Prop :=
  Forall (fun p => pd_report_id p < next_report (auto_increment d))
    (pothole_detections (rows d)) /\
  Forall (fun q => ra_report_id q < next_report (auto_increment d))
    (road_anomalies (rows d)).

(** [id] is one of [ids]. *)
Definition listed (ids : list Z) (id : Z) : bool := existsb (Z.eqb id) ids.

(** An open assignment of one of the locations [ids]. *)
Definition open_at (ids : list Z) (w : work_assignments_row) : bool :=
  listed ids (wa_aggregated_location_id w) && is_open (wa_status w).

(** How often a row of [l] has its id in [ids], counted once for each
    time the id is listed. *)
Definition listings (ids : list Z) (l : list aggregated_locations_row) : Z :=
  Z.of_nat
    (List.length
       (flat_map (fun id => filter (fun r => al_id r =? id) l) ids)).

(** The store after the locations [ids] were verified in one go, with
    [note] on the assignments that were closed. *)
Definition verified_in_bulk (now : string) (note : option string)
    (ids : list Z) (d : database) : database :=
  with_rows (fun t =>
    set_work_assignments
      (update_where (open_at ids) (closed_as WVerified now note)
         (work_assignments t))
      (set_aggregated_locations
         (update_where (fun r => listed ids (al_id r)) (verified_now now)
            (aggregated_locations t)) t)) d.

(** The statements a batch verification sends for the locations
    [ids]. *)
Definition batch_statements (ids : list Z) : list event :=
  flat_map (fun _ => [EvQuery Write "aggregated_locations";
                      EvQuery Write "work_assignments"]) ids.

(** A request to verify the locations [ids], without notes. *)
Definition verify_all (ids : list Z) : verify_request :=
  {| vr_locationId := 0; vr_locationIds := Some ids; vr_notes := None;
     vr_reason := None |}.

(** The rows that [batchAssign] inserts for the locations [ids], the
    first one with id [n]. *)
Fixpoint new_assignments (now : string) (contractor : Z)
    (assigned_by : option Z) (due notes : option string) (n : Z)
    (ids : list Z) : list work_assignments_row :=
  match ids with
  | [] => []
  | location :: rest =>
      {| wa_id := n; wa_aggregated_location_id := location;
         wa_contractor_id := contractor; wa_assigned_by := assigned_by;
         wa_assigned_at := now; wa_due_date := due; wa_status := WAssigned;
         wa_completed_at := None; wa_admin_notes := None;
         wa_notes := notes |}
      :: new_assignments now contractor assigned_by due notes (n + 1) rest
  end.

(** The store after [batchAssign] went through. *)
Definition assigned_in_bulk (now : string) (contractor : Z)
    (assigned_by : option Z) (due notes : option string) (ids : list Z)
    (d : database) : database :=
  {| rows :=
       set_work_assignments
         (work_assignments (rows d)
          ++ new_assignments now contractor assigned_by due notes
               (next_work_assignment (auto_increment d)) ids)%list
         (set_aggregated_locations
            (update_where (fun r => listed ids (al_id r))
               (with_location_status LAssigned)
               (aggregated_locations (rows d))) (rows d));
     auto_increment :=
       set_next_work_assignment
         (next_work_assignment (auto_increment d)
          + Z.of_nat (List.length ids)) (auto_increment d) |}.

(** The due date [batchAssign] stores: [None] for a missing or empty
    [dueDate], and nothing at all for one that is not a date. *)
Definition due_of (env : environment) (dueDate : option string)
  : option (option string) :=
  match str_or_null dueDate with
  | None => Some None
  | Some x => option_map (fun iso => Some (mysql_format iso)) (Date_iso env x)
  end.

(** The statements [batchAssign] sends for the locations [ids]. *)
Definition assign_statements (ids : list Z) : list event :=
  flat_map (fun _ => [EvQuery Write "work_assignments";
                      EvQuery Write "aggregated_locations"]) ids.

(** [k] consecutive ids from [n] on. *)
Fixpoint consecutive (n : Z) (k : nat) : list Z :=
  match k with
  | O => []
  | S k' => n :: consecutive (n + 1) k'
  end.

(** The status [updateWorkAssignment] gives the location of an assignment
    that it moves to [st]. *)
Definition location_status_for (st : AssignmentStatus) : LocationStatus :=
  match st with
  | WAssigned => LAssigned
  | WInProgress => LInProgress
  | WPendingVerification | WCompleted => LPendingVerification
  | WVerified => LVerified
  end.

(** A request to move assignment [id] to [status]. *)
Definition update_of (id : Z) (status : string)
    (notes : option (option string)) : assignment_update :=
  {| au_assignmentId := id; au_status := Some status; au_notes := notes |}.

(** A location with a closed assignment and an open one. *)
Definition reopening : database :=
  sample_db LAssigned
    [sample_assignment 1 1 1 WVerified; sample_assignment 2 1 2 WAssigned].

(** The jobs of a contractor, and how many of them are in a status. *)
Definition jobs_of (contractor : Z) (d : database)
  : list work_assignments_row :=
  filter (fun w => wa_contractor_id w =? contractor)
    (work_assignments (rows d)).

Definition in_status (st : AssignmentStatus)
    (l : list work_assignments_row) : Z :=
  Z.of_nat
    (List.length
       (filter (fun w => assignment_status_eqb (wa_status w) st) l)).

(** A path that the pattern of a route takes: every parameter is given
    the value 1. *)
Definition canonical (r : route) : string :=
  match segments (path_pattern r) with
  | Some (s :: l) =>
      concat ""
        (map (fun s => ("/" ++ match segment_of s with
                               | Par _ => "1"
                               | Lit x => x
                               end)%string) (s :: l))
  | _ => "/"
  end.

(** [s.includes(c)] for a character. *)
Fixpoint mentions (c : ascii) (s : string) : bool :=
  match s with
  | EmptyString => false
  | String x r => Ascii.eqb x c || mentions c r
  end.

(** The user a submission is attributed to: [req.user?.id] when it is
    truthy, else the first user registered with the device. *)
Definition owner_of (user : option Z) (device_id : string) (d : database)
  : option Z :=
  if id_truthy user then user
  else
    match filter (fun u => match u_device_id u with
                           | Some x => (x =? device_id)%string
                           | None => false
                           end) (users (rows d)) with
    | u :: _ => Some (u_id u)
    | [] => None
    end.

(** An empty store but for one user, registered with the device of the
    sample submission. *)
Definition registered : database :=
  {| rows :=
       {| users := [{| u_id := 4; u_device_id := Some "device-1" |}];
          reports := []; pothole_detections := []; road_anomalies := [];
          aggregated_locations := []; contractors := [];
          work_assignments := [] |};
     auto_increment := fresh_counters |}.

(* ===================================================================== *)
(** * Running the monad                                                   *)
(* ===================================================================== *)

Local Open Scope list_scope.

Lemma filter_empty_existsb {R} (p : R -> bool) (l : list R) :
  filter p l = [] -> existsb p l = false.
Proof.
  induction l as [|x l IH]; simpl; [reflexivity|].
  destruct (p x); [discriminate|exact IH].
Qed.

Lemma filter_cons_existsb {R} (p : R -> bool) (l : list R) x xs :
  filter p l = x :: xs -> existsb p l = true.
Proof.
  intros H. apply existsb_exists. exists x.
  assert (Hin : In x (filter p l)) by (rewrite H; left; reflexivity).
  apply filter_In in Hin. exact Hin.
Qed.

Lemma filter_update_where {R} (p : R -> bool) (f : R -> R) (l : list R) :
  (forall x, p x = true -> p (f x) = true) ->
  filter p (update_where p f l) = map f (filter p l).
Proof.
  intros Hp. induction l as [|x l IH]; simpl; [reflexivity|].
  destruct (p x) eqn:Hx.
  - rewrite (Hp x Hx). simpl. rewrite IH. reflexivity.
  - rewrite Hx. exact IH.
Qed.

Lemma filter_update_where_other {R} (p q : R -> bool) (f : R -> R)
    (l : list R) :
  (forall x, p x = true -> q x = false /\ q (f x) = false) ->
  filter q (update_where p f l) = filter q l.
Proof.
  intros Hp. induction l as [|x l IH]; simpl; [reflexivity|].
  destruct (p x) eqn:Hx.
  - destruct (Hp x Hx) as [H1 H2]. rewrite H1, H2. exact IH.
  - rewrite IH. reflexivity.
Qed.

Lemma bind_inv {A B} (m : M A) (k : A -> M B) s r s' :
  bind m k s = (r, s') ->
  (exists e, m s = (Throw e, s') /\ r = Throw e) \/
  (exists a s1, m s = (Ok a, s1) /\ k a s1 = (r, s')).
Proof.
  unfold bind. destruct (m s) as [[a | e] s1]; intros H.
  - right. eauto.
  - left. inversion H; subst. eauto.
Qed.

Lemma query_run {A} env a table schema used
    (run : database -> result (A * database)) s :
  fault env (issued s) = false ->
  known_columns schema used = true ->
  query env a table schema used run s =
  match run (db s) with
  | Ok (v, d) =>
      (Ok v, {| db := d; undo := undo s; issued := S (issued s);
                trace := trace s ++ [EvQuery a table] |})
  | Throw e =>
      (Throw e, {| db := db s; undo := undo s; issued := S (issued s);
                   trace := trace s ++ [EvQuery a table] |})
  end.
Proof.
  intros Hf Hc. unfold query. rewrite Hf, Hc. reflexivity.
Qed.

(** A statement that throws leaves the store as it was. *)
Lemma query_throw {A} env a table schema used
    (run : database -> result (A * database)) s e s' :
  query env a table schema used run s = (Throw e, s') -> db s' = db s.
Proof.
  unfold query.
  destruct (fault env (issued s)); [intros H; inversion H; reflexivity|].
  destruct (negb (known_columns schema used));
    [intros H; inversion H; reflexivity|].
  destruct (run (db s)) as [[v d] | e']; intros H; inversion H; reflexivity.
Qed.

Lemma sends_query {A} env a table schema used
    (run : database -> result (A * database)) :
  sends env (query env a table schema used run) [EvQuery a table].
Proof.
  intros s r s'. unfold query.
  assert (Hsent : exists sent,
             trace s ++ [EvQuery a table] = trace s ++ sent /\
             forallb is_query sent = true) by (eexists; split; reflexivity).
  destruct (fault env (issued s)) eqn:Hf;
    [intros H; inversion H; subst; simpl; auto|].
  destruct (negb (known_columns schema used));
    [intros H; inversion H; subst; simpl; auto|].
  destruct (run (db s)) as [[v d] | e']; intros H; inversion H; subst;
    simpl; auto.
  repeat split; auto.
  - lia.
  - intros k Hk. assert (k = issued s) by lia. subst. exact Hf.
Qed.

Lemma sends_nothing (s : session) :
  exists sent, trace s = trace s ++ sent /\ forallb is_query sent = true.
Proof. exists []. rewrite app_nil_r. auto. Qed.

Lemma sends_ret {A} env (a : A) : sends env (ret a) [].
Proof.
  intros s r s' H. inversion H; subst. simpl.
  rewrite app_nil_r. repeat split; auto using sends_nothing; intros; lia.
Qed.

Lemma sends_throw {A} env (e : exn) : sends env (@throw A e) [].
Proof.
  intros s r s' H. inversion H; subst. simpl. auto using sends_nothing.
Qed.

Lemma sent_trans (t0 t1 t2 : list event) :
  (exists sent, t1 = t0 ++ sent /\ forallb is_query sent = true) ->
  (exists sent, t2 = t1 ++ sent /\ forallb is_query sent = true) ->
  exists sent, t2 = t0 ++ sent /\ forallb is_query sent = true.
Proof.
  intros (a & -> & Ha) (b & -> & Hb). exists (a ++ b).
  rewrite app_assoc, forallb_app, Ha, Hb. auto.
Qed.

Lemma sends_bind {A B} env (m : M A) (k : A -> M B) e1 e2 :
  sends env m e1 -> (forall a, sends env (k a) e2) ->
  sends env (bind m k) (e1 ++ e2).
Proof.
  intros Hm Hk s r s' H.
  apply bind_inv in H as [(e & H & ->) | (a & s1 & H1 & H2)].
  - apply Hm in H as (Hu & Hs & _). simpl. auto.
  - apply Hm in H1 as (Hu1 & Hs1 & Ht1 & Hi1 & Hf1).
    apply Hk in H2 as (Hu2 & Hs2 & H2).
    split; [congruence|]. split; [eauto using sent_trans|].
    destruct r as [b | e]; [|exact I].
    destruct H2 as (Ht2 & Hi2 & Hf2).
    rewrite Ht2, Ht1, Hi2, Hi1, app_assoc, length_app.
    repeat split; auto; try lia.
    intros k0 Hk0.
    destruct (Nat.lt_ge_cases k0 (issued s1)); [apply Hf1|apply Hf2]; lia.
Qed.

Lemma sends_for_each {A} env (f : A -> M unit) e (l : list A) :
  (forall x, sends env (f x) e) ->
  sends env (for_each f l) (flat_map (fun _ => e) l).
Proof.
  intros Hf. induction l as [|x l IH]; simpl.
  - apply sends_ret.
  - apply sends_bind; auto.
Qed.

Lemma concludes_bind {A} env P (m : M A) (k : A -> M response) e1 e2 :
  sends env m e1 -> (forall a, concludes env P (k a) e2) ->
  concludes env P (bind m k) (e1 ++ e2).
Proof.
  intros Hm Hk s r s' H.
  apply bind_inv in H as [(e & H & ->) | (a & s1 & H1 & H2)].
  - apply Hm in H as (Hu & Hs & _). auto.
  - apply Hm in H1 as (Hu1 & Hs1 & Ht1 & Hi1 & Hf1).
    apply Hk in H2. destruct r as [resp | e].
    + destruct H2 as (HP & Ht2 & Hi2 & Hf2).
      rewrite Ht2, Ht1, Hi2, Hi1, length_app, <- !app_assoc.
      repeat split; auto; try lia.
      intros k0 Hk0.
      destruct (Nat.lt_ge_cases k0 (issued s1)); [apply Hf1|apply Hf2]; lia.
    + destruct H2 as (Hu2 & Hs2). split; [congruence|].
      eauto using sent_trans.
Qed.

Lemma concludes_commit env (P : response -> Prop) resp :
  P resp -> concludes env P (commit ;;; ret resp) [].
Proof.
  intros HP s r s' H. inversion H; subst. simpl.
  repeat split; auto; intros; lia.
Qed.

Lemma sends_toMySQLDatetime env iso : sends env (toMySQLDatetime env iso) [].
Proof.
  unfold toMySQLDatetime.
  destruct (str_or_null iso); [destruct (Date_iso env s)|];
    auto using sends_ret, sends_throw.
Qed.

Lemma sends_updateAggregatedLocation env data type :
  sends env (updateAggregatedLocation env data type)
    [EvQuery Read "aggregated_locations";
     EvQuery Write "aggregated_locations"].
Proof.
  unfold updateAggregatedLocation.
  apply (sends_bind env _ _ [_] [_]); [apply sends_query|].
  intros [|current rest]; apply sends_query.
Qed.

Lemma sends_ingest_pothole env dbReportId pothole :
  sends env (ingest_pothole env dbReportId pothole)
    [EvQuery Write "pothole_detections";
     EvQuery Read "aggregated_locations";
     EvQuery Write "aggregated_locations"].
Proof.
  unfold ingest_pothole.
  apply (sends_bind env _ _ [] [_; _; _]); [apply sends_toMySQLDatetime|].
  intros ts.
  apply (sends_bind env _ _ [_] [_; _]); [apply sends_query|].
  intros _. apply sends_updateAggregatedLocation.
Qed.

Lemma sends_ingest_patchy env dbReportId patchy :
  sends env (ingest_patchy env dbReportId patchy)
    [EvQuery Write "road_anomalies";
     EvQuery Read "aggregated_locations";
     EvQuery Write "aggregated_locations"].
Proof.
  unfold ingest_patchy.
  apply (sends_bind env _ _ [] [_; _; _]); [apply sends_toMySQLDatetime|].
  intros t1.
  apply (sends_bind env _ _ [] [_; _; _]); [apply sends_toMySQLDatetime|].
  intros t2.
  apply (sends_bind env _ _ [_] [_; _]); [apply sends_query|].
  intros _. apply sends_updateAggregatedLocation.
Qed.

(* ===================================================================== *)
(** * What the statements of a submission do to the tables                *)
(* ===================================================================== *)

Lemma effect_query {A} env a table schema used
    (run : database -> result (A * database))
    (P : database -> database -> Prop) :
  (forall d v d', run d = Ok (v, d') -> P d d') ->
  effect (query env a table schema used run) P.
Proof.
  intros Hrun s v s'. unfold query.
  destruct (fault env (issued s)); [discriminate|].
  destruct (negb (known_columns schema used)); [discriminate|].
  destruct (run (db s)) as [[v' d'] | e] eqn:E; [|discriminate].
  intros H. inversion H; subst. cbn [db]. eapply Hrun, E.
Qed.

Lemma grows_refl (d : database) : grows 0 0 d d.
Proof. unfold grows. repeat split; lia. Qed.

Lemma grows_trans i1 j1 i2 j2 (d d' d'' : database) :
  grows i1 j1 d d' -> grows i2 j2 d' d'' ->
  grows (i1 + i2) (j1 + j2) d d''.
Proof.
  unfold grows. intros (R1 & P1 & A1) (R2 & P2 & A2).
  repeat split; [congruence|lia|lia].
Qed.

Lemma effect_ret {A} (a : A) : effect (ret a) (grows 0 0).
Proof. intros s x s' H. inversion H; subst. apply grows_refl. Qed.

Lemma effect_bind {A B} (m : M A) (k : A -> M B) i1 j1 i2 j2 :
  effect m (grows i1 j1) -> (forall a, effect (k a) (grows i2 j2)) ->
  effect (bind m k) (grows (i1 + i2) (j1 + j2)).
Proof.
  intros Hm Hk s b s' H.
  apply bind_inv in H as [(e & _ & Hc) | (a & s1 & H1 & H2)];
    [discriminate Hc|].
  eapply grows_trans; [eapply Hm, H1|eapply Hk, H2].
Qed.

Lemma effect_for_each {A} (f : A -> M unit) i j (l : list A) :
  (forall x, effect (f x) (grows i j)) ->
  effect (for_each f l) (grows (List.length l * i) (List.length l * j)).
Proof.
  intros Hf. induction l as [|x l IH]; cbn [for_each List.length].
  - apply effect_ret.
  - change (S (List.length l) * i)%nat with (i + List.length l * i)%nat.
    change (S (List.length l) * j)%nat with (j + List.length l * j)%nat.
    apply effect_bind; [apply Hf|intros _; exact IH].
Qed.

Lemma effect_toMySQLDatetime env iso :
  effect (toMySQLDatetime env iso) (grows 0 0).
Proof.
  intros s a s' H. unfold toMySQLDatetime in H.
  destruct (str_or_null iso); [destruct (Date_iso env s0)|];
    inversion H; subst; apply grows_refl.
Qed.

Lemma effect_updateAggregatedLocation env data type :
  effect (updateAggregatedLocation env data type) (grows 0 0).
Proof.
  unfold updateAggregatedLocation.
  apply (effect_bind _ _ 0 0 0 0).
  - apply effect_query. intros d v d' H. inversion H; subst.
    apply grows_refl.
  - intros [|current rest]; apply effect_query; intros d v d' H;
      cbv zeta in H.
    + destruct (severity_of_string _); [|discriminate].
      destruct (existsb _ _); [discriminate|].
      inversion H; subst. unfold grows. cbn. repeat split; lia.
    + destruct (existsb _ _); [|inversion H; subst; apply grows_refl].
      destruct (severity_of_string _); [|discriminate].
      inversion H; subst. unfold grows. cbn. repeat split; lia.
Qed.

Lemma effect_ingest_pothole env dbReportId pothole :
  effect (ingest_pothole env dbReportId pothole) (grows 1 0).
Proof.
  unfold ingest_pothole.
  apply (effect_bind _ _ 0 0 1 0); [apply effect_toMySQLDatetime|].
  intros ts. apply (effect_bind _ _ 1 0 0 0).
  - apply effect_query. intros d v d' H.
    destruct (severity_of_string _); [|discriminate].
    inversion H; subst. unfold grows. cbn.
    rewrite length_app. cbn. repeat split; lia.
  - intros _. apply effect_updateAggregatedLocation.
Qed.

Lemma effect_ingest_patchy env dbReportId patchy :
  effect (ingest_patchy env dbReportId patchy) (grows 0 1).
Proof.
  unfold ingest_patchy.
  apply (effect_bind _ _ 0 0 0 1); [apply effect_toMySQLDatetime|].
  intros t1.
  apply (effect_bind _ _ 0 0 0 1); [apply effect_toMySQLDatetime|].
  intros t2. apply (effect_bind _ _ 0 1 0 0).
  - apply effect_query. intros d v d' H.
    destruct (severity_of_string _); [|discriminate].
    inversion H; subst. unfold grows. cbn.
    rewrite length_app. cbn. repeat split; lia.
  - intros _. apply effect_updateAggregatedLocation.
Qed.

Lemma effect_resolve_user env req device_id :
  effect
    (if id_truthy (sr_user req) then ret (sr_user req)
     else
       users <- select_users_by_device env device_id ;;
       match users with
       | u :: _ => ret (Some (u_id u))
       | [] => ret None
       end)
    (grows 0 0).
Proof.
  destruct (id_truthy (sr_user req)); [apply effect_ret|].
  apply (effect_bind _ _ 0 0 0 0).
  - apply effect_query. intros d v d' H. inversion H; subst.
    apply grows_refl.
  - intros [|u us]; apply effect_ret.
Qed.

(** The header insert, when it goes through, appends one row that
    carries its arguments and the status 'pending'. *)
Lemma insert_report_effect env report_id userId device_id reported p a
    score s dbReportId s' :
  insert_report env report_id userId device_id reported p a score s
  = (Ok dbReportId, s') ->
  reports (rows (db s'))
  = reports (rows (db s))
    ++ [{| r_id := dbReportId; r_report_id := report_id;
           r_user_id := userId; r_device_id := device_id;
           r_reported_at := reported; r_total_potholes := p;
           r_total_patchy_roads := a; r_health_score := score;
           r_status := RPending |}] /\
  pothole_detections (rows (db s')) = pothole_detections (rows (db s)) /\
  road_anomalies (rows (db s')) = road_anomalies (rows (db s)).
Proof.
  unfold insert_report, query.
  destruct (fault env (issued s)); [discriminate|].
  destruct (negb (known_columns _ _)); [discriminate|].
  destruct (existsb _ _); [discriminate|].
  intros H. inversion H; subst. cbn. repeat split.
Qed.

(** What an accepted submission leaves in the three tables it inserts
    into. *)
Lemma submit_rows env req report_id device_id anomalies s resp s' :
  submitReport_ingest env req report_id device_id anomalies s
  = (Ok resp, s') ->
  let potholes := filter (has_type "pothole") anomalies in
  let patchyRoads := filter (has_type "road_anomaly") anomalies in
  exists header,
    reports (rows (db s')) = reports (rows (db s)) ++ [header] /\
    r_report_id header = report_id /\
    r_device_id header = device_id /\
    r_total_potholes header = Z.of_nat (List.length potholes) /\
    r_total_patchy_roads header = Z.of_nat (List.length patchyRoads) /\
    r_health_score header = healthScore potholes patchyRoads /\
    r_status header = RPending /\
    resp = respond 201
             (Submitted report_id (r_id header)
                (Z.of_nat (List.length potholes))
                (Z.of_nat (List.length patchyRoads))
                (healthScore potholes patchyRoads) "pending") /\
    List.length (pothole_detections (rows (db s')))
    = (List.length (pothole_detections (rows (db s)))
       + List.length potholes)%nat /\
    List.length (road_anomalies (rows (db s')))
    = (List.length (road_anomalies (rows (db s)))
       + List.length patchyRoads)%nat.
Proof.
  intros H. cbv zeta. unfold submitReport_ingest in H.
  apply bind_inv in H as [(e & _ & Hc) | (userId & s1 & HU & H)];
    [discriminate Hc|].
  cbv zeta in H.
  apply bind_inv in H as [(e & _ & Hc) | (reported & s2 & HT & H)];
    [discriminate Hc|].
  apply bind_inv in H as [(e & _ & Hc) | (dbId & s3 & HI & H)];
    [discriminate Hc|].
  apply bind_inv in H as [(e & _ & Hc) | (u1 & s4 & HF1 & H)];
    [discriminate Hc|].
  apply bind_inv in H as [(e & _ & Hc) | (u2 & s5 & HF2 & H)];
    [discriminate Hc|].
  inversion H; subst resp s'; clear H. cbn [db].
  apply effect_resolve_user in HU as (RU & PU & AU).
  apply effect_toMySQLDatetime in HT as (RT & PT & AT).
  apply insert_report_effect in HI as (RI & PI & AI).
  apply (effect_for_each _ 1 0 _ (effect_ingest_pothole env dbId))
    in HF1 as (R1 & P1 & A1).
  apply (effect_for_each _ 0 1 _ (effect_ingest_patchy env dbId))
    in HF2 as (R2 & P2 & A2).
  eexists. split.
  { rewrite R2, R1, RI, RT, RU. reflexivity. }
  cbn [r_report_id r_device_id r_total_potholes r_total_patchy_roads
         r_health_score r_status r_id].
  repeat split.
  - rewrite P2, P1, PI, PT, PU. lia.
  - rewrite A2, A1, AI, AT, AU. lia.
Qed.

(* ===================================================================== *)
(** * Report ingestion is all or nothing                                  *)
(* ===================================================================== *)

Lemma submit_after_validation env req report_id device_id anomalies :
  concludes env
    (fun r =>
       exists dbReportId,
         r = respond 201
               (Submitted report_id dbReportId
                  (Z.of_nat
                     (List.length (filter (has_type "pothole") anomalies)))
                  (Z.of_nat
                     (List.length
                        (filter (has_type "road_anomaly") anomalies)))
                  (healthScore (filter (has_type "pothole") anomalies)
                     (filter (has_type "road_anomaly") anomalies))
                  "pending"))
    (submitReport_ingest env req report_id device_id anomalies)
    (submit_statements req anomalies).
Proof.
  replace (submit_statements req anomalies)
    with ((if id_truthy (sr_user req) then [] else [EvQuery Read "users"])
          ++ [] ++ [EvQuery Write "reports"]
          ++ flat_map (fun _ => [EvQuery Write "pothole_detections";
                                 EvQuery Read "aggregated_locations";
                                 EvQuery Write "aggregated_locations"])
               (filter (has_type "pothole") anomalies)
          ++ flat_map (fun _ => [EvQuery Write "road_anomalies";
                                 EvQuery Read "aggregated_locations";
                                 EvQuery Write "aggregated_locations"])
               (filter (has_type "road_anomaly") anomalies)
          ++ [])
    by (unfold submit_statements; rewrite app_nil_r; reflexivity).
  unfold submitReport_ingest.
  apply concludes_bind.
  { destruct (id_truthy (sr_user req)); [apply sends_ret|].
    apply (sends_bind env _ _ [_] []); [apply sends_query|].
    intros [|u us]; apply sends_ret. }
  intros userId. cbv zeta.
  apply concludes_bind; [apply sends_toMySQLDatetime|]. intros reported.
  apply concludes_bind; [apply sends_query|]. intros dbReportId.
  apply concludes_bind.
  { apply sends_for_each. intros x. apply sends_ingest_pothole. }
  intros _.
  apply concludes_bind.
  { apply sends_for_each. intros x. apply sends_ingest_patchy. }
  intros _. apply concludes_commit. exists dbReportId. reflexivity.
Qed.

Lemma str_or_null_some (o : option string) (x : string) :
  str_or_null o = Some x -> o = Some x.
Proof.
  destruct o as [y|]; simpl; [|discriminate].
  destruct (y =? "")%string; [discriminate|tauto].
Qed.

Lemma queries_of_sent (sent : list event) :
  forallb is_query sent = true -> ~ In EvCommit sent.
Proof.
  intros H Hin. rewrite forallb_forall in H. apply H in Hin. discriminate.
Qed.

Lemma forallb_flat_map_const {A} (p : event -> bool) (l : list A)
    (e : list event) :
  forallb p e = true -> forallb p (flat_map (fun _ => e) l) = true.
Proof.
  intros He. induction l; simpl; auto.
  rewrite forallb_app, He, IHl. reflexivity.
Qed.

Lemma submit_statements_queries req anomalies :
  forallb is_query (submit_statements req anomalies) = true.
Proof.
  unfold submit_statements.
  rewrite !forallb_app, !forallb_flat_map_const by reflexivity.
  destruct (id_truthy (sr_user req)); reflexivity.
Qed.

Lemma submit_events_queries req anomalies :
  filter is_query (submit_events req anomalies)
  = submit_statements req anomalies.
Proof.
  unfold submit_events. rewrite !filter_app. simpl.
  rewrite app_nil_r. apply forallb_filter_id, submit_statements_queries.
Qed.

(** A submission that is not answered 201 leaves every row as it was
    and commits nothing: either no statement was sent, or the [catch]
    block rolled back to the rows of [beginTransaction]. *)
Lemma submitReport_not_accepted (env : environment)
    (req : submit_request) (d : database) :
  let '(r, d', tr) := serve (submitReport env req) d in
  status r <> 201 -> rows d' = rows d /\ ~ In EvCommit tr.
Proof.
  unfold serve, submitReport, transactional.
  destruct (submitReport_try env req _) as [[resp | e] s] eqn:H.
  all: unfold submitReport_try in H;
       apply bind_inv in H as [(e0 & H & _) | (u & s1 & H1 & H2)];
       try discriminate H.
  all: inversion H1; subst s1; clear H1; cbn [getConnection log db trace
         undo issued] in H2.
  all: destruct (str_or_null (sr_report_id req)) as [report_id|];
       [destruct (str_or_null (sr_device_id req)) as [device_id|];
        [destruct (sr_anomalies req) as [anomalies|]|]|].
  all: try (inversion H2; subst; simpl; intros _; split; [reflexivity|];
            intros [Hc|[Hc|[Hc|[]]]]; discriminate Hc).
  all: try solve [unfold ret in H2; discriminate H2].
  - apply submit_after_validation in H2 as ((dbId & ->) & _).
    intros Hn. contradiction Hn. reflexivity.
  - apply submit_after_validation in H2 as (Hu & sent & Ht & Hq).
    cbn [trace undo] in Hu, Ht.
    cbn [release rollback log db trace rows]. rewrite Hu.
    intros _. split; [reflexivity|]. rewrite Ht.
    rewrite !in_app_iff. simpl.
    intros [[[[Hc|[Hc|[]]]|Hin]|[Hc|[]]]|[Hc|[]]]; try discriminate Hc.
    revert Hin. apply queries_of_sent, Hq.
Qed.

(** C1. A submission commits only when every statement it sent went
    through: the header insert, one detection insert per entry, and one
    lookup and one write of the grid per entry; whenever it does not answer
    201 the rows of every table are what they were before the call and
    nothing was committed. *)
Theorem submitReport_all_or_nothing (env : environment)
    (req : submit_request) (d : database) :
  let '(r, d', tr) := serve (submitReport env req) d in
  (status r = 201 ->
   exists anomalies header,
     sr_anomalies req = Some anomalies /\
     tr = submit_events req anomalies /\
     (forall k, (k < List.length (filter is_query tr))%nat ->
                fault env k = false) /\
     reports (rows d') = reports (rows d) ++ [header] /\
     sr_report_id req = Some (r_report_id header) /\
     List.length (pothole_detections (rows d'))
     = (List.length (pothole_detections (rows d))
        + List.length (filter (has_type "pothole") anomalies))%nat /\
     List.length (road_anomalies (rows d'))
     = (List.length (road_anomalies (rows d))
        + List.length (filter (has_type "road_anomaly") anomalies))%nat) /\
  (status r <> 201 -> rows d' = rows d /\ ~ In EvCommit tr).
Proof.
  pose proof (submitReport_not_accepted env req d) as Hrollback.
  revert Hrollback. unfold serve, submitReport, transactional.
  destruct (submitReport_try env req _) as [[resp | e] s] eqn:H;
    intros Hrollback; (split; [|exact Hrollback]).
  2: { destruct e; intros Hc; discriminate Hc. }
  unfold submitReport_try in H.
  apply bind_inv in H as [(e0 & H & _) | (u & s1 & H1 & H2)];
    [discriminate H|].
  inversion H1; subst s1; clear H1.
  cbn [getConnection log db trace undo issued] in H2.
  destruct (str_or_null (sr_report_id req)) as [report_id|] eqn:Hid;
    [destruct (str_or_null (sr_device_id req)) as [device_id|];
     [destruct (sr_anomalies req) as [anomalies|]|]|].
  all: try (inversion H2; subst; intros Hc; discriminate Hc).
  (* the run reached the end of the [try] block *)
  pose proof (submit_rows _ _ _ _ _ _ _ _ H2) as Hrows.
  cbv zeta in Hrows. cbn [db] in Hrows.
  destruct Hrows as (header & HR & Hrid & _ & _ & _ & _ & _ & _ & HP & HA).
  apply submit_after_validation in H2 as ((dbId & ->) & Ht & Hi & Hf).
  cbn [trace issued] in Ht, Hi, Hf.
  cbn [release log db trace].
  intros _. exists anomalies, header. split; [reflexivity|].
  assert (Htr : trace s ++ [EvRelease] = submit_events req anomalies).
  { rewrite Ht. unfold submit_events. rewrite <- !app_assoc. reflexivity. }
  rewrite Htr. split; [reflexivity|].
  split.
  { rewrite submit_events_queries. intros k Hk. apply Hf. lia. }
  split; [exact HR|]. split; [|split; [exact HP|exact HA]].
  rewrite Hrid. apply str_or_null_some, Hid.
Qed.

Example submit_third_merge_rejected :
  serve (submitReport (failing_at 10) sample_submission) empty_db
  = (respond 500 (Failure "Failed to submit report" ER_REJECTED),
     {| rows := empty_tables;
        auto_increment :=
          {| next_report := 2; next_pothole_detection := 3;
             next_road_anomaly := 2; next_aggregated_location := 3;
             next_work_assignment := 1 |} |},
     [EvGetConnection; EvBeginTransaction; EvQuery Read "users";
      EvQuery Write "reports";
      EvQuery Write "pothole_detections";
      EvQuery Read "aggregated_locations";
      EvQuery Write "aggregated_locations";
      EvQuery Write "pothole_detections";
      EvQuery Read "aggregated_locations";
      EvQuery Write "aggregated_locations";
      EvQuery Write "road_anomalies";
      EvQuery Read "aggregated_locations";
      EvQuery Write "aggregated_locations";
      EvRollback; EvRelease]).
Proof. vm_compute. reflexivity. Qed.

Lemma submitReport_all_or_nothing_rejected :
  rows (snd (fst (serve (submitReport (failing_at 10) sample_submission)
                    empty_db)))
  = rows empty_db.
Proof.
  pose proof (submitReport_all_or_nothing (failing_at 10) sample_submission
                empty_db) as H.
  rewrite submit_third_merge_rejected in H |- *.
  apply H. discriminate.
Defined.

(* ===================================================================== *)
(** * The health score                                                    *)
(* ===================================================================== *)

Lemma healthScore_formula (potholes patchyRoads : list anomaly) :
  let p := Z.of_nat (List.length potholes) in
  let a := Z.of_nat (List.length patchyRoads) in
  healthScore potholes patchyRoads = Z.max 0 (100 - 15 * p - 5 * a)
  /\ 0 <= healthScore potholes patchyRoads <= 100.
Proof.
  unfold healthScore. cbv zeta. split; lia.
Qed.

(** C3. A submission that is accepted answers with the health score
    max(0, 100 - 15 p - 5 a), where p and a count the entries tagged
    "pothole" and "road_anomaly", and that score lies between 0 and
    100. *)
Theorem submitReport_healthScore (env : environment)
    (req : submit_request) (d : database) :
  let '(r, d', _) := serve (submitReport env req) d in
  status r = 201 ->
  exists anomalies report_id header,
    sr_anomalies req = Some anomalies /\
    let p := Z.of_nat (List.length (filter (has_type "pothole") anomalies)) in
    let a :=
      Z.of_nat (List.length (filter (has_type "road_anomaly") anomalies)) in
    body r = Submitted report_id (r_id header) p a
               (Z.max 0 (100 - 15 * p - 5 * a)) "pending"
    /\ reports (rows d') = reports (rows d) ++ [header]
    /\ r_health_score header = Z.max 0 (100 - 15 * p - 5 * a)
    /\ 0 <= Z.max 0 (100 - 15 * p - 5 * a) <= 100.
Proof.
  unfold serve, submitReport, transactional.
  destruct (submitReport_try env req _) as [[resp | e] s] eqn:H;
    [|destruct e; intros Hc; discriminate Hc].
  unfold submitReport_try in H.
  apply bind_inv in H as [(e0 & H & _) | (u & s1 & H1 & H2)];
    [discriminate H|].
  inversion H1; subst s1; clear H1.
  destruct (str_or_null (sr_report_id req)) as [report_id|];
    [destruct (str_or_null (sr_device_id req)) as [device_id|];
     [destruct (sr_anomalies req) as [anomalies|]|]|].
  all: try (inversion H2; subst; intros Hc; discriminate Hc).
  apply submit_rows in H2.
  cbv zeta in H2. cbn [db] in H2.
  destruct H2 as (header & HR & _ & _ & _ & _ & Hscore & _ & -> & _).
  intros _. exists anomalies, report_id, header. split; [reflexivity|].
  cbv zeta. cbn [body respond release log db].
  destruct (healthScore_formula (filter (has_type "pothole") anomalies)
              (filter (has_type "road_anomaly") anomalies)) as [E Hb].
  cbv zeta in E. rewrite E in Hscore, Hb |- *.
  repeat split; auto; lia.
Qed.

Lemma submitReport_healthScore_sample :
  exists anomalies report_id header,
    sr_anomalies sample_submission = Some anomalies /\
    let p := Z.of_nat (List.length (filter (has_type "pothole") anomalies)) in
    let a :=
      Z.of_nat (List.length (filter (has_type "road_anomaly") anomalies)) in
    Submitted "RPT-1" 1 2 1 65 "pending"
    = Submitted report_id (r_id header) p a
        (Z.max 0 (100 - 15 * p - 5 * a)) "pending"
    /\ reports (rows stored_db) = reports (rows empty_db) ++ [header]
    /\ r_health_score header = Z.max 0 (100 - 15 * p - 5 * a)
    /\ 0 <= Z.max 0 (100 - 15 * p - 5 * a) <= 100.
Proof.
  pose proof (submitReport_healthScore quiet sample_submission empty_db)
    as H.
  destruct (serve (submitReport quiet sample_submission) empty_db)
    as [[r d'] tr] eqn:E.
  vm_compute in E. inversion E; subst r d'. apply H. reflexivity.
Defined.

(* ===================================================================== *)
(** * A report identifier is accepted once                                *)
(* ===================================================================== *)

Lemma bind_ok {A B} (m : M A) (k : A -> M B) s a s1 :
  m s = (Ok a, s1) -> bind m k s = k a s1.
Proof. intros H. unfold bind. rewrite H. reflexivity. Qed.

Lemma bind_throw {A B} (m : M A) (k : A -> M B) s e s1 :
  m s = (Throw e, s1) -> bind m k s = (Throw e, s1).
Proof. intros H. unfold bind. rewrite H. reflexivity. Qed.

Lemma bind_ret {A B} (a : A) (k : A -> M B) s : bind (ret a) k s = k a s.
Proof. reflexivity. Qed.

Lemma bind_begin {B} (k : unit -> M B) s :
  bind beginTransaction k s
  = k tt {| db := db s; undo := Some (rows (db s)); issued := issued s;
            trace := trace s ++ [EvBeginTransaction] |}.
Proof. reflexivity. Qed.

Lemma stored_report_found (l : list reports_row) (report_id : string) :
  (exists r, In r l /\ r_report_id r = report_id) ->
  existsb (fun r => (r_report_id r =? report_id)%string) l = true.
Proof.
  intros (r & Hin & Hr). apply existsb_exists. exists r.
  split; [exact Hin|]. apply String.eqb_eq, Hr.
Qed.

(** With the identifier stored, the header insert cannot go through. *)
Lemma insert_report_stored env report_id userId device_id reported
    p a score s :
  (exists r, In r (reports (rows (db s))) /\ r_report_id r = report_id) ->
  exists e,
    insert_report env report_id userId device_id reported p a score s
    = (Throw e,
       {| db := db s; undo := undo s; issued := S (issued s);
          trace := trace s ++ [EvQuery Write "reports"] |})
    /\ (fault env (issued s) = false -> e = ER_DUP_ENTRY).
Proof.
  intros Hst. unfold insert_report, query.
  destruct (fault env (issued s)).
  - exists ER_REJECTED. split; [reflexivity|discriminate].
  - exists ER_DUP_ENTRY. split; [|reflexivity].
    change (negb (known_columns _ _)) with false. cbv iota.
    rewrite (stored_report_found _ _ Hst). reflexivity.
Qed.

Lemma select_users_by_device_run env device s :
  exists r,
    select_users_by_device env device s
    = (r, {| db := db s; undo := undo s; issued := S (issued s);
             trace := trace s ++ [EvQuery Read "users"] |})
    /\ (fault env (issued s) = false -> exists users, r = Ok users).
Proof.
  unfold select_users_by_device, query.
  destruct (fault env (issued s)).
  - eexists. split; [reflexivity|discriminate].
  - change (negb (known_columns _ _)) with false. cbv iota.
    eexists. split; [reflexivity|]. eauto.
Qed.

Lemma toMySQLDatetime_run env iso s :
  exists r, toMySQLDatetime env iso s = (r, s)
    /\ (match str_or_null iso with
        | Some x => Date_iso env x <> None
        | None => True
        end -> exists t, r = Ok t).
Proof.
  unfold toMySQLDatetime. destruct (str_or_null iso) as [x|].
  - destruct (Date_iso env x) as [t|].
    + eexists. split; [reflexivity|]. eauto.
    + eexists. split; [reflexivity|]. intros Hc. contradiction Hc.
      reflexivity.
  - eexists. split; [reflexivity|]. eauto.
Qed.

(** Resolving the owning user reads at most one table. *)
Lemma resolve_user_run env req device_id s :
  exists r s',
    (if id_truthy (sr_user req) then ret (sr_user req)
     else
       users <- select_users_by_device env device_id ;;
       match users with
       | u :: _ => ret (Some (u_id u))
       | [] => ret None
       end) s = (r, s')
    /\ db s' = db s /\ undo s' = undo s
    /\ (issued s' = issued s \/ issued s' = S (issued s))
    /\ (fault env (issued s) = false -> exists u, r = Ok u).
Proof.
  destruct (id_truthy (sr_user req)).
  - exists (Ok (sr_user req)), s. repeat split; eauto.
  - destruct (select_users_by_device_run env device_id s)
      as ([users | e] & Hsel & Hok).
    + rewrite (bind_ok _ _ _ _ _ Hsel).
      destruct users as [|u us]; eexists; eexists;
        (split; [reflexivity|]); cbn [db undo issued];
        repeat split; eauto.
    + rewrite (bind_throw _ _ _ _ _ Hsel).
      eexists; eexists; (split; [reflexivity|]); cbn [db undo issued].
      repeat split; auto.
      intros Hf. destruct (Hok Hf) as (us & Hc). discriminate Hc.
Qed.

(** A payload that was accepted once has its required fields and a
    readable timestamp. *)
Lemma accepted_is_well_formed env req d :
  status (fst (fst (serve (submitReport env req) d))) = 201 ->
  str_or_null (sr_device_id req) <> None /\
  sr_anomalies req <> None /\
  match str_or_null (sr_reported_at req) with
  | Some x => Date_iso env x <> None
  | None => True
  end.
Proof.
  unfold serve, submitReport, transactional.
  destruct (submitReport_try env req _) as [[resp | e] s] eqn:H;
    [|destruct e; intros Hc; discriminate Hc].
  unfold submitReport_try in H. rewrite bind_begin in H.
  destruct (str_or_null (sr_report_id req)) as [report_id|];
    [destruct (str_or_null (sr_device_id req)) as [device_id|];
     [destruct (sr_anomalies req) as [anomalies|]|]|].
  all: try (inversion H; subst; intros Hc; discriminate Hc).
  intros _. split; [discriminate|]. split; [discriminate|].
  unfold submitReport_ingest in H.
  apply bind_inv in H as [(e & _ & Hc) | (userId & s1 & _ & H)];
    [discriminate Hc|].
  cbv zeta in H.
  apply bind_inv in H as [(e & _ & Hc) | (reported & s2 & HT & _)];
    [discriminate Hc|].
  unfold toMySQLDatetime in HT.
  destruct (str_or_null (sr_reported_at req)) as [x|]; [|exact I].
  destruct (Date_iso env x); [discriminate|discriminate HT].
Qed.

(** C5. When the report identifier of a payload is already stored, the
    call changes no row of any table and never answers 201; and when the
    payload passes validation, its timestamp is readable and the engine
    does not reject the statements for another reason, the answer is the
    409 conflict "Report already submitted".  A payload that was accepted
    before passes validation and has a readable timestamp, so submitting
    it again is answered 409. *)
Theorem submitReport_duplicate (env : environment) (req : submit_request)
    (d : database) (report_id : string) :
  str_or_null (sr_report_id req) = Some report_id ->
  (exists r, In r (reports (rows d)) /\ r_report_id r = report_id) ->
  let '(r, d', tr) := serve (submitReport env req) d in
  (rows d' = rows d /\ status r <> 201 /\ ~ In EvCommit tr) /\
  (str_or_null (sr_device_id req) <> None ->
   sr_anomalies req <> None ->
   match str_or_null (sr_reported_at req) with
   | Some x => Date_iso env x <> None
   | None => True
   end ->
   fault env 0 = false -> fault env 1 = false ->
   r = respond 409 (Conflict "Report already submitted"
                      "Duplicate report_id")) /\
  (forall env0 d0,
     Date_iso env0 = Date_iso env ->
     status (fst (fst (serve (submitReport env0 req) d0))) = 201 ->
     fault env 0 = false -> fault env 1 = false ->
     r = respond 409 (Conflict "Report already submitted"
                        "Duplicate report_id")).
Proof.
  intros Hid Hst.
  assert (Hwf : forall env0 d0,
             Date_iso env0 = Date_iso env ->
             status (fst (fst (serve (submitReport env0 req) d0))) = 201 ->
             str_or_null (sr_device_id req) <> None /\
             sr_anomalies req <> None /\
             match str_or_null (sr_reported_at req) with
             | Some x => Date_iso env x <> None
             | None => True
             end).
  { intros env0 d0 Hdate Hacc. rewrite <- Hdate.
    exact (accepted_is_well_formed env0 req d0 Hacc). }
  assert (Hthrow :
    str_or_null (sr_device_id req) <> None ->
    sr_anomalies req <> None ->
    exists e s,
      submitReport_try env req
        (getConnection {| db := d; undo := None; issued := 0; trace := [] |})
      = (Throw e, s) /\ db s = d /\ undo s = Some (rows d) /\
      (match str_or_null (sr_reported_at req) with
       | Some x => Date_iso env x <> None
       | None => True
       end ->
       fault env 0 = false -> fault env 1 = false -> e = ER_DUP_ENTRY)).
  { intros Hdev Han. unfold submitReport_try.
    rewrite bind_begin. cbn [getConnection log db undo issued trace app].
    rewrite Hid.
    destruct (str_or_null (sr_device_id req)) as [device_id|];
      [|contradiction Hdev; reflexivity].
    destruct (sr_anomalies req) as [anomalies|];
      [|contradiction Han; reflexivity].
    set (s1 := {| db := d; undo := Some (rows d); issued := 0;
                  trace := [EvGetConnection; EvBeginTransaction] |}).
    unfold submitReport_ingest.
    destruct (resolve_user_run env req device_id s1)
      as ([userId | e] & s2 & Hu & Hdb2 & Hun2 & Hi2 & Hok2).
    2: { rewrite (bind_throw _ _ _ _ _ Hu). exists e, s2.
         repeat split; auto. intros _ Hf0 _.
         destruct (Hok2 Hf0) as (u & Hc). discriminate Hc. }
    rewrite (bind_ok _ _ _ _ _ Hu). cbv zeta.
    destruct (toMySQLDatetime_run env (sr_reported_at req) s2)
      as ([t | e] & Ht & Hok).
    2: { rewrite (bind_throw _ _ _ _ _ Ht). exists e, s2.
         repeat split; auto. intros Hd _ _.
         destruct (Hok Hd) as (t & Hc). discriminate Hc. }
    rewrite (bind_ok _ _ _ _ _ Ht).
    assert (Hst2 : exists r, In r (reports (rows (db s2)))
                             /\ r_report_id r = report_id)
      by (rewrite Hdb2; exact Hst).
    match goal with
    | |- context [insert_report ?e ?a ?b ?c ?dd ?p ?q ?sc] =>
        destruct (insert_report_stored e a b c dd p q sc s2 Hst2)
          as (e1 & Hins & He1)
    end.
    rewrite (bind_throw _ _ _ _ _ Hins).
    exists e1. eexists. split; [reflexivity|]. cbn [db undo].
    repeat split; auto.
    intros _ Hf0 Hf1. apply He1.
    destruct Hi2 as [-> | ->]; assumption. }
  pose proof (submitReport_not_accepted env req d) as Hall.
  unfold serve, submitReport, transactional in *.
  destruct (str_or_null (sr_device_id req)) as [device_id|] eqn:Hdev.
  2: { unfold submitReport_try in *.
       rewrite bind_begin in *. rewrite Hid, Hdev in *.
       cbn. split; [|split; [intros Hc; contradiction Hc; reflexivity|]].
       - repeat split; try discriminate.
         intros [Hc|[Hc|[Hc|[]]]]; discriminate Hc.
       - intros env0 d0 Hdate Hacc.
         destruct (Hwf env0 d0 Hdate Hacc) as (Hc & _).
         contradiction Hc. reflexivity. }
  destruct (sr_anomalies req) as [anomalies|] eqn:Han.
  2: { unfold submitReport_try in *.
       rewrite bind_begin in *. rewrite Hid, Hdev, Han in *.
       cbn. split; [|split; [intros _ Hc; contradiction Hc; reflexivity|]].
       - repeat split; try discriminate.
         intros [Hc|[Hc|[Hc|[]]]]; discriminate Hc.
       - intros env0 d0 Hdate Hacc.
         destruct (Hwf env0 d0 Hdate Hacc) as (_ & Hc & _).
         contradiction Hc. reflexivity. }
  destruct Hthrow as (e & s & Hrun & Hdb & Hundo & Hdup); try discriminate.
  rewrite Hrun in *. cbn [release rollback log db trace] in *.
  rewrite Hundo, Hdb in *. cbn [rows] in *.
  assert (Hne : status match e with
                       | ER_DUP_ENTRY =>
                           respond 409 (Conflict "Report already submitted"
                                          "Duplicate report_id")
                       | _ => respond 500
                                (Failure "Failed to submit report" e)
                       end <> 201) by (destruct e; discriminate).
  destruct (Hall Hne) as [_ Hnc].
  split; [auto|]. split.
  - intros _ _ Hd Hf0 Hf1. rewrite (Hdup Hd Hf0 Hf1). reflexivity.
  - intros env0 d0 Hdate Hacc Hf0 Hf1.
    destruct (Hwf env0 d0 Hdate Hacc) as (_ & _ & Hd).
    rewrite (Hdup Hd Hf0 Hf1). reflexivity.
Qed.

Lemma submitReport_duplicate_resubmitted :
  let '(r, d', _) := serve (submitReport quiet sample_submission) stored_db in
  rows d' = rows stored_db /\
  r = respond 409 (Conflict "Report already submitted" "Duplicate report_id").
Proof.
  assert (Hst : exists r, In r (reports (rows stored_db))
                          /\ r_report_id r = "RPT-1"%string)
    by (eexists; split; [left; reflexivity|reflexivity]).
  pose proof (submitReport_duplicate quiet sample_submission stored_db
                "RPT-1" eq_refl Hst) as H.
  destruct (serve (submitReport quiet sample_submission) stored_db)
    as [[r d'] tr].
  destruct H as [(Hrows & _) [_ Hagain]].
  split; [exact Hrows|].
  apply (Hagain quiet empty_db); reflexivity.
Defined.

(* ===================================================================== *)
(** * Validation and the storage layer                                    *)
(* ===================================================================== *)

(** C7, as claimed, fails: a submission without a report identifier is
    answered 400 after the connection was taken and a transaction
    begun. *)
Lemma submitReport_validates_inside_transaction :
  let '(r, _, tr) := serve (submitReport quiet anonymous_submission) empty_db in
  status r = 400 /\ In EvGetConnection tr /\ In EvBeginTransaction tr.
Proof.
  vm_compute. split; [reflexivity|]. split; auto.
Qed.

(** C7, amended. A request that fails validation is answered with the
    validation error without a single statement sent, neither a read nor a
    write, and the store is left as it was; this holds for a submission
    that lacks its report identifier, its device identifier or its
    detection list, and for a batch verification that lacks its list of
    locations. *)
Theorem validation_sends_no_statement (env : environment) (d : database) :
  (forall req,
     str_or_null (sr_report_id req) = None
     \/ str_or_null (sr_device_id req) = None
     \/ sr_anomalies req = None ->
     let '(r, d', tr) := serve (submitReport env req) d in
     r = respond 400
           (Message "Missing required fields: report_id, device_id, anomalies")
     /\ d' = d /\ filter is_query tr = []) /\
  (forall req,
     vr_locationIds req = None \/ vr_locationIds req = Some [] ->
     let '(r, d', tr) := serve (batchVerifyLocations env req) d in
     r = respond 400 (Message "locationIds are required")
     /\ d' = d /\ filter is_query tr = []).
Proof.
  split.
  - intros req H. unfold serve, submitReport, transactional,
      submitReport_try.
    rewrite bind_begin.
    destruct (str_or_null (sr_report_id req)) as [report_id|];
      [destruct (str_or_null (sr_device_id req)) as [device_id|];
       [destruct (sr_anomalies req) as [anomalies|]|]|];
      try (cbn; auto).
    destruct H as [H|[H|H]]; discriminate H.
  - intros req H. unfold serve, batchVerifyLocations, transactional,
      batchVerifyLocations_try.
    rewrite bind_begin.
    destruct H as [-> | ->]; cbn; auto.
Qed.

Lemma validation_sends_no_statement_sample :
  (let '(r, d', tr) :=
     serve (submitReport quiet anonymous_submission) stored_db in
   r = respond 400
         (Message "Missing required fields: report_id, device_id, anomalies")
   /\ d' = stored_db /\ filter is_query tr = []) /\
  (let '(r, d', tr) :=
     serve (batchVerifyLocations quiet
              {| vr_locationId := 0; vr_locationIds := Some [];
                 vr_notes := None; vr_reason := None |}) stored_db in
   r = respond 400 (Message "locationIds are required")
   /\ d' = stored_db /\ filter is_query tr = []).
Proof.
  destruct (validation_sends_no_statement quiet stored_db) as [H1 H2].
  split.
  - apply (H1 anonymous_submission). left. reflexivity.
  - apply (H2 {| vr_locationId := 0; vr_locationIds := Some [];
                 vr_notes := None; vr_reason := None |}).
    right. reflexivity.
Defined.

(* ===================================================================== *)
(** * The contractor's status update                                      *)
(* ===================================================================== *)

(** A statement that only reads leaves the store alone. *)
Lemma query_read_db {A} env a table schema used (f : database -> A) s r s' :
  query env a table schema used (fun d => Ok (f d, d)) s = (r, s') ->
  db s' = db s.
Proof.
  unfold query. destruct (fault env (issued s));
    [intros H; inversion H; reflexivity|].
  destruct (negb (known_columns schema used));
    intros H; inversion H; reflexivity.
Qed.

(** The UPDATE of [updateJobStatus] names a column that
    [work_assignments] does not have. *)
Lemma completion_date_unknown :
  known_columns work_assignments_columns
    ["status"; "notes"; "completion_date"; "id"] = false.
Proof. reflexivity. Qed.

Lemma update_job_throws env st note completionDate job s :
  exists e,
    update_job env st note completionDate job s
    = (Throw e,
       {| db := db s; undo := undo s; issued := S (issued s);
          trace := trace s ++ [EvQuery Write "work_assignments"] |})
    /\ (fault env (issued s) = false -> e = ER_BAD_FIELD_ERROR).
Proof.
  unfold update_job, query. destruct (fault env (issued s)).
  - exists ER_REJECTED. split; [reflexivity|discriminate].
  - rewrite completion_date_unknown. exists ER_BAD_FIELD_ERROR.
    split; reflexivity.
Qed.

Lemma select_contractor_by_user_run env user s :
  fault env (issued s) = false ->
  select_contractor_by_user env user s
  = (Ok (filter (fun c => match c_user_id c with
                          | Some u => u =? user
                          | None => false
                          end) (contractors (rows (db s)))),
     {| db := db s; undo := undo s; issued := S (issued s);
        trace := trace s ++ [EvQuery Read "contractors"] |}).
Proof.
  intros Hf. unfold select_contractor_by_user.
  rewrite query_run by (exact Hf || reflexivity). reflexivity.
Qed.

Lemma select_job_run env job contractor s :
  fault env (issued s) = false ->
  select_job env job contractor s
  = (Ok (filter (fun w => (wa_id w =? job)
                          && (wa_contractor_id w =? contractor))
           (work_assignments (rows (db s)))),
     {| db := db s; undo := undo s; issued := S (issued s);
        trace := trace s ++ [EvQuery Read "work_assignments"] |}).
Proof.
  intros Hf. unfold select_job.
  rewrite query_run by (exact Hf || reflexivity). reflexivity.
Qed.

(** C10. A status update by a contractor changes nothing in the store,
    whatever the request; with a valid status and a job that the
    contractor's profile owns it is answered 500, and unless the engine
    rejects one of the statements for another reason the error is the
    unknown column [completion_date].  No location gets the status
    'fixed' this way. *)
Theorem updateJobStatus_never_updates (env : environment)
    (req : job_request) (d : database) :
  let '(r, d', _) := serve (updateJobStatus env req) d in
  d' = d /\
  (includes validStatuses (jr_status req) = true ->
   forall contractor others job,
     filter (fun c => match c_user_id c with
                      | Some u => u =? jr_user req
                      | None => false
                      end) (contractors (rows d)) = contractor :: others ->
     In job (work_assignments (rows d)) ->
     wa_id job = jr_jobId req ->
     wa_contractor_id job = c_id contractor ->
     status r = 500 /\
     ((forall n, fault env n = false) ->
      body r = Failure "Failed to update job" ER_BAD_FIELD_ERROR)).
Proof.
  unfold serve, updateJobStatus, pooled, updateJobStatus_try.
  set (s0 := {| db := d; undo := None; issued := 0; trace := [] |}).
  destruct (includes validStatuses (jr_status req)); cbn [negb].
  2: { cbn. split; [reflexivity|discriminate]. }
  destruct (fault env 0) eqn:Hf0.
  { unfold select_contractor_by_user at 1. unfold query at 1.
    unfold bind at 1. cbn [issued s0]. rewrite Hf0. cbn.
    split; [reflexivity|]. intros _ c o j _ _ _ _.
    split; [reflexivity|]. intros Hq. rewrite Hq in Hf0. discriminate. }
  rewrite (bind_ok _ _ _ _ _ (select_contractor_by_user_run env _ s0 Hf0)).
  cbn [db s0].
  destruct (filter _ (contractors (rows d))) as [|contractor others] eqn:Hc.
  { cbn. split; [reflexivity|]. intros _ c o j Hc'. discriminate Hc'. }
  destruct (fault env 1) eqn:Hf1.
  { unfold select_job at 1. unfold query at 1.
    unfold bind at 1. cbn [issued s0]. rewrite Hf1. cbn.
    split; [reflexivity|]. intros _ c o j _ _ _ _.
    split; [reflexivity|]. intros Hq. rewrite Hq in Hf1. discriminate. }
  rewrite (bind_ok _ _ _ _ _
             (select_job_run env (jr_jobId req) (c_id contractor)
                {| db := d; undo := None; issued := 1;
                   trace := [EvQuery Read "contractors"] |} Hf1)).
  cbn [db undo issued trace app s0].
  destruct (filter _ (work_assignments (rows d))) as [|job jobs] eqn:Hj.
  { cbn. split; [reflexivity|].
    intros _ c o j Hc' Hin Hid Hown. exfalso.
    inversion Hc'; subst c o.
    assert (Hm : In j (filter
                         (fun w => (wa_id w =? jr_jobId req)
                                   && (wa_contractor_id w =? c_id contractor))
                         (work_assignments (rows d)))).
    { apply filter_In. split; [exact Hin|].
      rewrite Hid, Hown, !Z.eqb_refl. reflexivity. }
    rewrite Hj in Hm. destruct Hm. }
  match goal with
  | |- context [update_job env ?a ?b ?c ?j] =>
      destruct (update_job_throws env a b c j
                  {| db := d; undo := None; issued := 2;
                     trace := [EvQuery Read "contractors";
                               EvQuery Read "work_assignments"] |})
        as (e & Hup & He)
  end.
  rewrite (bind_throw _ _ _ _ _ Hup). cbn [db status body respond].
  split; [reflexivity|]. intros _ c o j _ _ _ _.
  split; [reflexivity|]. intros Hq. rewrite (He (Hq _)). reflexivity.
Qed.

Lemma updateJobStatus_never_updates_sample :
  let d := sample_db LAssigned [sample_assignment 1 1 2 WInProgress] in
  let '(r, d', _) :=
    serve (updateJobStatus quiet
             {| jr_user := 7; jr_jobId := 1; jr_status := Some "completed";
                jr_notes := None |}) d in
  d' = d /\ status r = 500
  /\ body r = Failure "Failed to update job" ER_BAD_FIELD_ERROR.
Proof.
  cbv zeta.
  pose proof (updateJobStatus_never_updates quiet
                {| jr_user := 7; jr_jobId := 1;
                   jr_status := Some "completed"; jr_notes := None |}
                (sample_db LAssigned [sample_assignment 1 1 2 WInProgress]))
    as H.
  destruct (serve _ _) as [[r d'] tr]. destruct H as [Hd H].
  split; [exact Hd|].
  destruct (H eq_refl {| c_id := 2; c_user_id := Some 7;
                         c_is_active := true |} []
              (sample_assignment 1 1 2 WInProgress) eq_refl
              (or_introl eq_refl) eq_refl eq_refl) as [Hs Hb].
  split; [exact Hs|]. apply Hb. reflexivity.
Defined.

(* ===================================================================== *)
(** * Verification and its rejection                                      *)
(* ===================================================================== *)

Lemma update_where_Forall2 {R} (p : R -> bool) (f : R -> R) (l : list R) :
  Forall2 (fun x y => if p x then y = f x else y = x) l (update_where p f l).
Proof.
  induction l as [|x l IH]; simpl; constructor; auto.
  destruct (p x); reflexivity.
Qed.

Lemma update_where_none {R} (p : R -> bool) (f : R -> R) (l : list R) :
  existsb p l = false -> update_where p f l = l.
Proof.
  induction l as [|x l IH]; simpl; [reflexivity|].
  intros H. apply orb_false_iff in H as [Hx Hl].
  rewrite Hx, IH by exact Hl. reflexivity.
Qed.

Lemma affected_positive {R} (p : R -> bool) (l : list R) :
  (0 <? affected p l) = existsb p l.
Proof.
  unfold affected. induction l as [|x l IH]; simpl; [reflexivity|].
  destruct (p x); simpl; [reflexivity|exact IH].
Qed.

Lemma affected_zero {R} (p : R -> bool) (l : list R) :
  (affected p l =? 0) = negb (existsb p l).
Proof.
  unfold affected. induction l as [|x l IH]; simpl; [reflexivity|].
  destruct (p x); simpl; [reflexivity|exact IH].
Qed.

Lemma update_location_verified_run env id s :
  fault env (issued s) = false ->
  update_location_verified env id s
  = (Ok (affected (fun r => al_id r =? id)
           (aggregated_locations (rows (db s)))),
     {| db := with_rows (fun t =>
                set_aggregated_locations
                  (update_where (fun r => al_id r =? id)
                     (verified_now (NOW env)) (aggregated_locations t)) t)
              (db s);
        undo := undo s; issued := S (issued s);
        trace := trace s ++ [EvQuery Write "aggregated_locations"] |}).
Proof.
  intros Hf. unfold update_location_verified.
  rewrite query_run by (exact Hf || reflexivity). reflexivity.
Qed.

Lemma update_assignments_closed_run env st from notes location s :
  fault env (issued s) = false ->
  update_assignments_closed env st from notes location s
  = (Ok (affected (on_location_in location from)
           (work_assignments (rows (db s)))),
     {| db := with_rows (fun t =>
                set_work_assignments
                  (update_where (on_location_in location from)
                     (closed_as st (NOW env) notes) (work_assignments t)) t)
              (db s);
        undo := undo s; issued := S (issued s);
        trace := trace s ++ [EvQuery Write "work_assignments"] |}).
Proof.
  intros Hf. unfold update_assignments_closed.
  rewrite query_run by (exact Hf || reflexivity). reflexivity.
Qed.

Lemma update_assignments_reopened_run env reason location s :
  fault env (issued s) = false ->
  update_assignments_reopened env reason location s
  = (Ok (affected (on_location_in location [WPendingVerification])
           (work_assignments (rows (db s)))),
     {| db := with_rows (fun t =>
                set_work_assignments
                  (update_where
                     (on_location_in location [WPendingVerification])
                     (reopened reason) (work_assignments t)) t)
              (db s);
        undo := undo s; issued := S (issued s);
        trace := trace s ++ [EvQuery Write "work_assignments"] |}).
Proof.
  intros Hf. unfold update_assignments_reopened.
  rewrite query_run by (exact Hf || reflexivity). reflexivity.
Qed.

Lemma update_location_status_run env st id s :
  fault env (issued s) = false ->
  update_location_status env st (Some id) s
  = (Ok (affected (fun r => al_id r =? id)
           (aggregated_locations (rows (db s)))),
     {| db := with_rows (fun t =>
                set_aggregated_locations
                  (update_where (fun r => al_id r =? id)
                     (with_location_status st) (aggregated_locations t)) t)
              (db s);
        undo := undo s; issued := S (issued s);
        trace := trace s ++ [EvQuery Write "aggregated_locations"] |}).
Proof.
  intros Hf. unfold update_location_status.
  rewrite query_run by (exact Hf || reflexivity). reflexivity.
Qed.

(** What a verification does to the rows of [aggregated_locations]. *)
Lemma locations_verified (now : string) (id : Z)
    (l : list aggregated_locations_row) :
  Forall2
    (fun r r' =>
       if al_id r =? id
       then al_status r' = LVerified /\ al_verified_at r' = Some now
            /\ same_cell r r'
       else r' = r)
    l (update_where (fun r => al_id r =? id) (verified_now now) l).
Proof.
  eapply Forall2_impl; [|apply update_where_Forall2].
  intros r r' H. cbv beta in H. destruct (al_id r =? id); [|exact H].
  subst r'. unfold same_cell. cbn. repeat split.
Qed.

Lemma assignments_closed (st : AssignmentStatus) (now : string)
    (notes : option string) (id : Z) (from : list AssignmentStatus)
    (l : list work_assignments_row) :
  Forall2
    (fun w w' =>
       if on_location_in id from w
       then wa_status w' = st /\ wa_completed_at w' = Some now
            /\ wa_admin_notes w' = notes /\ same_job w w'
       else w' = w)
    l (update_where (on_location_in id from) (closed_as st now notes) l).
Proof.
  eapply Forall2_impl; [|apply update_where_Forall2].
  intros w w' H. cbv beta in H. destruct (on_location_in id from w);
    [|exact H].
  subst w'. unfold same_job. cbn. repeat split.
Qed.

(** C8. The admin operation [verifyWork] does not do what is claimed of a
    verification, and what [verifyLocation] does on the same input: on a
    location with an assignment in 'pending_verification' and one in
    'in_progress' it leaves the first where it is and closes the second as
    'completed', where [verifyLocation] moves both to 'verified' with
    [completed_at] stamped; and a location that does not exist is
    answered 200, where [verifyLocation] answers 404. *)
Theorem verifyWork_leaves_pending_verification :
  let d := sample_db LPendingVerification
             [sample_assignment 1 1 1 WPendingVerification;
              sample_assignment 2 1 2 WInProgress] in
  (let '(r, d', _) := serve (verifyWork quiet (verify_of 1)) d in
   status r = 200 /\
   map al_status (aggregated_locations (rows d')) = [LVerified] /\
   map wa_status (work_assignments (rows d'))
   = [WPendingVerification; WCompleted] /\
   map wa_completed_at (work_assignments (rows d'))
   = [None; Some (NOW quiet)]) /\
  (let '(r, d', _) := serve (verifyLocation quiet (verify_of 1)) d in
   r = respond 200 (Verified "Work verified successfully" true true) /\
   map al_status (aggregated_locations (rows d')) = [LVerified] /\
   map wa_status (work_assignments (rows d')) = [WVerified; WVerified] /\
   map wa_completed_at (work_assignments (rows d'))
   = [Some (NOW quiet); Some (NOW quiet)]) /\
  (let '(r, d', _) :=
     serve (verifyWork quiet (verify_of 5)) (sample_db LPending []) in
   r = respond 200 (Message "Work verified successfully")
   /\ d' = sample_db LPending []) /\
  (let '(r, d', _) :=
     serve (verifyLocation quiet (verify_of 5)) (sample_db LPending []) in
   r = respond 404 (Message "Location not found")
   /\ d' = sample_db LPending []).
Proof. vm_compute. repeat split. Qed.

(** What the two verify operations do in general, with both statements
    accepted by the engine.
    [verifyLocation] on a location that exists sets its status to
    'verified' and stamps [verified_at], moves every assignment of that
    location that is 'assigned', 'in_progress' or 'pending_verification'
    to 'verified' with [completed_at] stamped, and reports
    [assignmentUpdated] as whether there was one; on a location that does
    not exist it answers 404 and changes nothing.  [verifyWork] updates
    the location in the same way, moves only the 'in_progress'
    assignments of the location, to 'completed' with [completed_at]
    stamped, and answers 200 whether the location exists or not. *)
Theorem verify_effect (env : environment) (req : verify_request)
    (d : database) :
  fault env 0 = false -> fault env 1 = false ->
  let id := vr_locationId req in
  let verified_location :=
    fun r r' =>
      if al_id r =? id
      then al_status r' = LVerified /\ al_verified_at r' = Some (NOW env)
           /\ same_cell r r'
      else r' = r in
  (let '(r, d', _) := serve (verifyLocation env req) d in
   if existsb (fun r => al_id r =? id) (aggregated_locations (rows d))
   then
     r = respond 200
           (Verified "Work verified successfully" true
              (existsb
                 (on_location_in id
                    [WPendingVerification; WInProgress; WAssigned])
                 (work_assignments (rows d))))
     /\ Forall2 verified_location
          (aggregated_locations (rows d)) (aggregated_locations (rows d'))
     /\ Forall2
          (fun w w' =>
             if on_location_in id
                  [WPendingVerification; WInProgress; WAssigned] w
             then wa_status w' = WVerified
                  /\ wa_completed_at w' = Some (NOW env) /\ same_job w w'
             else w' = w)
          (work_assignments (rows d)) (work_assignments (rows d'))
     /\ same_elsewhere d d'
   else r = respond 404 (Message "Location not found") /\ d' = d)
  /\
  (let '(r, d', _) := serve (verifyWork env req) d in
   r = respond 200 (Message "Work verified successfully")
   /\ Forall2 verified_location
        (aggregated_locations (rows d)) (aggregated_locations (rows d'))
   /\ Forall2
        (fun w w' =>
           if on_location_in id [WInProgress] w
           then wa_status w' = WCompleted
                /\ wa_completed_at w' = Some (NOW env) /\ same_job w w'
           else w' = w)
        (work_assignments (rows d)) (work_assignments (rows d'))
   /\ same_elsewhere d d').
Proof.
  intros Hf0 Hf1. cbv zeta. split.
  - unfold serve, verifyLocation, pooled, verifyLocation_try.
    rewrite (bind_ok _ _ _ _ _
               (update_location_verified_run env (vr_locationId req)
                  {| db := d; undo := None; issued := 0; trace := [] |}
                  Hf0)).
    cbn [db rows with_rows]. rewrite affected_zero, affected_positive.
    destruct (existsb _ (aggregated_locations (rows d))) eqn:Hk;
      cbn [negb].
    + rewrite (bind_ok _ _ _ _ _
                 (update_assignments_closed_run env WVerified _ _
                    (vr_locationId req)
                    {| db := _; undo := None; issued := 1; trace := _ |}
                    Hf1)).
      cbn [db rows with_rows set_aggregated_locations set_work_assignments
             aggregated_locations work_assignments ret].
      rewrite affected_positive.
      split; [reflexivity|]. split; [apply locations_verified|].
      split; [|unfold same_elsewhere; cbn; repeat split].
      eapply Forall2_impl; [|apply assignments_closed].
      intros w w' H. cbv beta in H |- *.
      destruct (on_location_in _ _ w); [|exact H].
      destruct H as (H1 & H2 & _ & H4). auto.
    + cbn [ret]. split; [reflexivity|].
      cbn [db]. unfold with_rows.
      rewrite update_where_none by exact Hk.
      destruct d as [[] ?]; reflexivity.
  - unfold serve, verifyWork, pooled, verifyWork_try.
    rewrite (bind_ok _ _ _ _ _
               (update_location_verified_run env (vr_locationId req)
                  {| db := d; undo := None; issued := 0; trace := [] |}
                  Hf0)).
    rewrite (bind_ok _ _ _ _ _
               (update_assignments_closed_run env WCompleted _ _
                  (vr_locationId req)
                  {| db := _; undo := None; issued := 1; trace := _ |}
                  Hf1)).
    cbn [db rows with_rows set_aggregated_locations set_work_assignments
           aggregated_locations work_assignments ret].
    split; [reflexivity|]. split; [apply locations_verified|].
    split; [|unfold same_elsewhere; cbn; repeat split].
    eapply Forall2_impl; [|apply assignments_closed].
    intros w w' H. cbv beta in H |- *.
    destruct (on_location_in _ _ w); [|exact H].
    destruct H as (H1 & H2 & _ & H4). auto.
Qed.

Lemma verify_effect_sample :
  let d := sample_db LPendingVerification
             [sample_assignment 1 1 1 WPendingVerification] in
  (let '(r, _, _) := serve (verifyLocation quiet (verify_of 1)) d in
   r = respond 200 (Verified "Work verified successfully" true true)) /\
  (let '(r, _, _) := serve (verifyWork quiet (verify_of 1)) d in
   r = respond 200 (Message "Work verified successfully")).
Proof.
  cbv zeta.
  destruct (verify_effect quiet (verify_of 1)
              (sample_db LPendingVerification
                 [sample_assignment 1 1 1 WPendingVerification])
              eq_refl eq_refl) as [H1 H2].
  split.
  - destruct (serve (verifyLocation _ _) _) as [[r d'] tr].
    exact (proj1 H1).
  - destruct (serve (verifyWork _ _) _) as [[r d'] tr].
    exact (proj1 H2).
Defined.

(** C9, as claimed, fails: rejecting the verification of a location that
    has no assignment in 'pending_verification' is not a no-op, the
    location's status becomes 'assigned'. *)
Lemma rejectVerification_touches_location :
  let d := sample_db LVerified [sample_assignment 1 1 1 WVerified] in
  let '(r, d', _) := serve (rejectVerification quiet (verify_of 1)) d in
  existsb (on_location_in 1 [WPendingVerification])
    (work_assignments (rows d)) = false /\
  status r = 200 /\
  map al_status (aggregated_locations (rows d)) = [LVerified] /\
  map al_status (aggregated_locations (rows d')) = [LAssigned].
Proof. vm_compute. auto. Qed.

(** C9, amended. With both statements accepted by the engine,
    [rejectVerification] moves every assignment of the location that is in
    'pending_verification' back to 'in_progress' with the reason as its
    admin note, and sets the status of the location to 'assigned' whether
    or not there was such an assignment; when there is none, no row of
    [work_assignments] changes.  Nothing else changes and the answer is
    200. *)
Theorem rejectVerification_effect (env : environment)
    (req : verify_request) (d : database) :
  fault env 0 = false -> fault env 1 = false ->
  let id := vr_locationId req in
  let '(r, d', _) := serve (rejectVerification env req) d in
  r = respond 200 (Message "Verification rejected, sent back to contractor")
  /\ Forall2
       (fun w w' =>
          if on_location_in id [WPendingVerification] w
          then wa_status w' = WInProgress
               /\ wa_admin_notes w' = vr_reason req
               /\ wa_completed_at w' = wa_completed_at w /\ same_job w w'
          else w' = w)
       (work_assignments (rows d)) (work_assignments (rows d'))
  /\ Forall2
       (fun r r' =>
          if al_id r =? id
          then al_status r' = LAssigned
               /\ al_verified_at r' = al_verified_at r /\ same_cell r r'
          else r' = r)
       (aggregated_locations (rows d)) (aggregated_locations (rows d'))
  /\ (existsb (on_location_in id [WPendingVerification])
        (work_assignments (rows d)) = false ->
      work_assignments (rows d') = work_assignments (rows d))
  /\ same_elsewhere d d'.
Proof.
  intros Hf0 Hf1. cbv zeta.
  unfold serve, rejectVerification, pooled, rejectVerification_try.
  rewrite (bind_ok _ _ _ _ _
             (update_assignments_reopened_run env (vr_reason req)
                (vr_locationId req)
                {| db := d; undo := None; issued := 0; trace := [] |} Hf0)).
  rewrite (bind_ok _ _ _ _ _
             (update_location_status_run env LAssigned (vr_locationId req)
                {| db := _; undo := None; issued := 1; trace := _ |} Hf1)).
  cbn [db rows with_rows set_aggregated_locations set_work_assignments
         aggregated_locations work_assignments ret].
  split; [reflexivity|]. split; [|split; [|split]].
  - eapply Forall2_impl; [|apply update_where_Forall2].
    intros w w' H. cbv beta in H |- *.
    destruct (on_location_in _ _ w); [|exact H].
    subst w'. unfold same_job. cbn. repeat split.
  - eapply Forall2_impl; [|apply update_where_Forall2].
    intros r r' H. cbv beta in H |- *.
    destruct (al_id r =? _); [|exact H].
    subst r'. unfold same_cell. cbn. repeat split.
  - intros Hn. apply update_where_none, Hn.
  - unfold same_elsewhere. cbn. repeat split.
Qed.

Lemma rejectVerification_effect_sample :
  let d := sample_db LPendingVerification
             [sample_assignment 1 1 1 WPendingVerification] in
  let '(r, d', _) := serve (rejectVerification quiet (verify_of 1)) d in
  r = respond 200 (Message "Verification rejected, sent back to contractor")
  /\ map wa_status (work_assignments (rows d')) = [WInProgress]
  /\ map wa_admin_notes (work_assignments (rows d'))
     = [Some "patch is uneven"%string]
  /\ map al_status (aggregated_locations (rows d')) = [LAssigned].
Proof.
  cbv zeta.
  pose proof (rejectVerification_effect quiet (verify_of 1)
                (sample_db LPendingVerification
                   [sample_assignment 1 1 1 WPendingVerification])
                eq_refl eq_refl) as H.
  cbv zeta in H.
  destruct (serve (rejectVerification _ _) _) as [[r d'] tr].
  destruct H as (Hr & Hw & Hl & _).
  split; [exact Hr|].
  inversion Hw as [|w w' ? ? Hw1 Hw2 E1 E2]; subst. inversion Hw2; subst.
  inversion Hl as [|l l' ? ? Hl1 Hl2 E3 E4]; subst. inversion Hl2; subst.
  cbn in Hw1, Hl1. destruct Hw1 as (Hs & Hn & _). destruct Hl1 as (Ha & _).
  cbn [map]. rewrite Hs, Hn, Ha. repeat split.
Defined.

(* ===================================================================== *)
(** * One open assignment per location                                    *)
(* ===================================================================== *)

Lemma key_determines_row {R} (key : R -> Z) (l : list R) (x y : R) :
  NoDup (map key l) -> In x l -> In y l -> key x = key y -> x = y.
Proof.
  induction l as [|a l IH]; simpl; intros Hn Hx Hy Hk; [destruct Hx|].
  apply NoDup_cons_iff in Hn as [Ha Hn].
  destruct Hx as [-> | Hx], Hy as [-> | Hy]; auto.
  - contradiction Ha. rewrite Hk. apply in_map, Hy.
  - contradiction Ha. rewrite <- Hk. apply in_map, Hx.
Qed.

Lemma filter_length_update_where {R} (p q : R -> bool) (f : R -> R)
    (l : list R) :
  (forall x, In x l -> p x = true -> q (f x) = q x) ->
  List.length (filter q (update_where p f l)) = List.length (filter q l).
Proof.
  induction l as [|a l IH]; simpl; intros H; [reflexivity|].
  assert (IH' : List.length (filter q (update_where p f l))
                = List.length (filter q l)) by (apply IH; auto).
  destruct (p a) eqn:Ha.
  - rewrite (H a (or_introl eq_refl) Ha).
    destruct (q a); simpl; rewrite IH'; reflexivity.
  - destruct (q a); simpl; rewrite IH'; reflexivity.
Qed.

(** Reassigning the row found open keeps the state. *)
Lemma reassign_keeps_one_open (d : database) (first : work_assignments_row)
    (c : Z) (due notes : option string) :
  one_open_each d ->
  In first (work_assignments (rows d)) ->
  is_open (wa_status first) = true ->
  one_open_each
    (with_rows (fun t =>
       set_work_assignments
         (update_where (fun w => wa_id w =? wa_id first)
            (reassigned c due notes) (work_assignments t)) t) d).
Proof.
  intros (Hkey & Hbound & Hone) Hin Hopen.
  assert (Hids : forall l,
             map wa_id (update_where (fun w => wa_id w =? wa_id first)
                          (reassigned c due notes) l) = map wa_id l).
  { induction l as [|a l IH]; simpl; [reflexivity|].
    rewrite IH. destruct (wa_id a =? wa_id first); reflexivity. }
  unfold one_open_each, open_on, with_rows.
  cbn [rows work_assignments set_work_assignments auto_increment].
  split; [rewrite Hids; exact Hkey|]. split.
  - intros w Hw. apply (in_map wa_id) in Hw. rewrite Hids in Hw.
    apply in_map_iff in Hw as (w0 & <- & Hw0). apply Hbound, Hw0.
  - intros location. rewrite filter_length_update_where; [apply Hone|].
    intros w Hw Hhit. apply Z.eqb_eq in Hhit.
    assert (w = first) by (eapply key_determines_row; eassumption).
    subst w. cbn [reassigned wa_aggregated_location_id wa_status is_open].
    rewrite Hopen. reflexivity.
Qed.

(** Inserting an assignment for a location that has none open keeps the
    state. *)
Lemma insert_keeps_one_open (d : database) (w : work_assignments_row) :
  one_open_each d ->
  wa_id w = next_work_assignment (auto_increment d) ->
  open_on (wa_aggregated_location_id w) d = [] ->
  one_open_each
    {| rows := set_work_assignments (work_assignments (rows d) ++ [w])
                 (rows d);
       auto_increment :=
         set_next_work_assignment (wa_id w + 1) (auto_increment d) |}.
Proof.
  intros (Hkey & Hbound & Hone) Hid Hnone.
  unfold one_open_each, open_on.
  cbn [rows work_assignments set_work_assignments auto_increment
         set_next_work_assignment next_work_assignment].
  split; [|split].
  - rewrite map_app. apply NoDup_app; [exact Hkey|repeat constructor; auto|].
    intros a Ha [Hc|[]]. apply in_map_iff in Ha as (w0 & <- & Hw0).
    apply Hbound in Hw0. lia.
  - intros w0 Hw0. apply in_app_iff in Hw0 as [Hw0|[<-|[]]]; [|lia].
    apply Hbound in Hw0. lia.
  - intros location. rewrite filter_app, length_app. cbn [filter].
    destruct (Z.eqb_spec (wa_aggregated_location_id w) location) as [E|E].
    + subst location. unfold open_on in Hnone. rewrite Hnone.
      destruct (_ && _); simpl; lia.
    + cbn [andb List.length]. specialize (Hone location).
      unfold open_on in Hone. lia.
Qed.

Lemma location_status_keeps_one_open (d : database) (st : LocationStatus)
    (p : aggregated_locations_row -> bool) :
  one_open_each d ->
  one_open_each
    (with_rows (fun t =>
       set_aggregated_locations
         (update_where p (with_location_status st) (aggregated_locations t))
         t) d).
Proof. intros H. exact H. Qed.

Lemma query_inv {A} env a table schema used
    (run : database -> result (A * database)) s r s' :
  query env a table schema used run s = (r, s') ->
  match r with
  | Throw _ => db s' = db s
  | Ok v => run (db s) = Ok (v, db s')
  end.
Proof.
  unfold query. destruct (fault env (issued s));
    [intros H; inversion H; reflexivity|].
  destruct (negb (known_columns schema used));
    [intros H; inversion H; reflexivity|].
  destruct (run (db s)) as [[v d] | e]; intros H; inversion H; reflexivity.
Qed.

(** The part of C6 that holds: [createWorkAssignment] keeps every
    location at one open assignment at most, whatever the request and
    whichever statement the engine rejects. *)
Lemma createWorkAssignment_keeps_one_open (env : environment)
    (req : assign_request) (d : database) :
  one_open_each d ->
  let '(_, d', _) := serve (createWorkAssignment env req) d in
  one_open_each d'.
Proof.
  intros HI. unfold serve, createWorkAssignment, pooled.
  set (s0 := {| db := d; undo := None; issued := 0; trace := [] |}).
  assert (Hgen : forall r s',
             createWorkAssignment_try env req s0 = (r, s') ->
             one_open_each (db s')).
  2: { destruct (createWorkAssignment_try env req s0) as [[r | e] s'];
       apply (Hgen _ _ eq_refl). }
  intros r s' H. unfold createWorkAssignment_try in H.
  destruct (as_locationId req) as [l|]; cbn [id_truthy negb orb] in H;
    [|inversion H; subst r s'; exact HI].
  destruct (as_contractorId req) as [c|]; cbn [id_truthy] in H;
    [|rewrite orb_true_r in H; inversion H; subst r s'; exact HI].
  destruct (negb (negb (l =? 0)) || negb (negb (c =? 0)));
    [inversion H; subst r s'; exact HI|].
  (* the location *)
  apply bind_inv in H as [(e & H & _) | (locations & s1 & H1 & H)].
  { apply query_inv in H. rewrite H. exact HI. }
  apply query_inv in H1. cbv beta in H1. injection H1 as _ Hd1.
  destruct locations as [|loc locs]; [inversion H; subst r s'; rewrite <- Hd1;
                                      exact HI|].
  (* the contractor *)
  apply bind_inv in H as [(e & H & _) | (contractors & s2 & H2 & H)].
  { apply query_inv in H. rewrite H, <- Hd1. exact HI. }
  apply query_inv in H2. cbv beta in H2. injection H2 as _ Hd2.
  destruct contractors as [|con cons]; [inversion H; subst r s';
                                        rewrite <- Hd2, <- Hd1; exact HI|].
  (* the open assignments *)
  apply bind_inv in H as [(e & H & _) | (existing & s3 & H3 & H)].
  { apply query_inv in H. rewrite H, <- Hd2, <- Hd1. exact HI. }
  apply query_inv in H3. cbv beta in H3. injection H3 as Hex Hd3.
  assert (Hdb3 : db s3 = d) by (rewrite <- Hd3, <- Hd2, <- Hd1; reflexivity).
  rewrite <- Hd2, <- Hd1 in Hex. cbn [db s0] in Hex.
  destruct existing as [|first rest].
  - (* none open: insert *)
    apply bind_inv in H as [(e & H & _) | (insertId & s4 & H4 & H)].
    { apply query_inv in H. rewrite H, Hdb3. exact HI. }
    apply query_inv in H4. rewrite Hdb3 in H4. cbv beta in H4. injection H4 as _ Hd4.
    assert (HI4 : one_open_each (db s4)).
    { rewrite <- Hd4.
      apply (insert_keeps_one_open d
               {| wa_id := next_work_assignment (auto_increment d);
                  wa_aggregated_location_id := l; wa_contractor_id := c;
                  wa_assigned_by := None; wa_assigned_at := NOW env;
                  wa_due_date := str_or_null (as_dueDate req);
                  wa_status := WAssigned; wa_completed_at := None;
                  wa_admin_notes := None;
                  wa_notes := str_or_null (as_notes req) |});
        [exact HI|reflexivity|].
      cbn [wa_aggregated_location_id]. unfold open_on. exact Hex. }
    apply bind_inv in H as [(e & H & _) | (n & s5 & H5 & H)].
    { apply query_inv in H. rewrite H. exact HI4. }
    apply query_inv in H5. cbv beta in H5. injection H5 as _ Hd5.
    inversion H; subst r s'. rewrite <- Hd5.
    apply location_status_keeps_one_open, HI4.
  - (* one open: update it *)
    assert (Hfirst : In first (work_assignments (rows d))
                     /\ is_open (wa_status first) = true).
    { assert (Hin : In first (first :: rest)) by (left; reflexivity).
      rewrite <- Hex in Hin. apply filter_In in Hin as [Hin Hp].
      apply andb_true_iff in Hp as [_ Hp]. auto. }
    destruct Hfirst as [Hin Hopen].
    apply bind_inv in H as [(e & H & _) | (n4 & s4 & H4 & H)].
    { apply query_inv in H. rewrite H, Hdb3. exact HI. }
    apply query_inv in H4. rewrite Hdb3 in H4. cbv beta in H4. injection H4 as _ Hd4.
    assert (HI4 : one_open_each (db s4))
      by (rewrite <- Hd4; apply reassign_keeps_one_open; assumption).
    apply bind_inv in H as [(e & H & _) | (n & s5 & H5 & H)].
    { apply query_inv in H. rewrite H. exact HI4. }
    apply query_inv in H5. cbv beta in H5. injection H5 as _ Hd5.
    inversion H; subst r s'. rewrite <- Hd5.
    apply location_status_keeps_one_open, HI4.
Qed.

Lemma select_location_by_id_run env id s :
  fault env (issued s) = false ->
  select_location_by_id env (Some id) s
  = (Ok (filter (fun r => al_id r =? id)
           (aggregated_locations (rows (db s)))),
     {| db := db s; undo := undo s; issued := S (issued s);
        trace := trace s ++ [EvQuery Read "aggregated_locations"] |}).
Proof.
  intros Hf. unfold select_location_by_id.
  rewrite query_run by (exact Hf || reflexivity). reflexivity.
Qed.

Lemma select_active_contractor_run env id s :
  fault env (issued s) = false ->
  select_active_contractor env (Some id) s
  = (Ok (filter (fun c => (c_id c =? id) && c_is_active c)
           (contractors (rows (db s)))),
     {| db := db s; undo := undo s; issued := S (issued s);
        trace := trace s ++ [EvQuery Read "contractors"] |}).
Proof.
  intros Hf. unfold select_active_contractor.
  rewrite query_run by (exact Hf || reflexivity). reflexivity.
Qed.

(** [assignToContractor] never looks for an open assignment: whenever it
    answers 201 the location has one open assignment more than before. *)
Lemma assignToContractor_adds_open_row (env : environment)
    (req : assign_request) (d : database) (l c : Z) :
  (forall n, fault env n = false) ->
  as_locationId req = Some l -> as_contractorId req = Some c ->
  existsb (fun r => al_id r =? l) (aggregated_locations (rows d)) = true ->
  existsb (fun k => (c_id k =? c) && c_is_active k) (contractors (rows d))
  = true ->
  let '(r, d', _) := serve (assignToContractor env req) d in
  status r = 201 /\
  List.length (open_on l d') = S (List.length (open_on l d)).
Proof.
  intros Hq Hl Hc Hloc Hcon.
  unfold serve, assignToContractor, pooled, assignToContractor_try.
  rewrite Hl, Hc.
  rewrite (bind_ok _ _ _ _ _
             (select_location_by_id_run env l
                {| db := d; undo := None; issued := 0; trace := [] |}
                (Hq _))).
  cbn [db]. destruct (filter _ (aggregated_locations (rows d))) eqn:E1.
  { apply filter_empty_existsb in E1. congruence. }
  rewrite (bind_ok _ _ _ _ _
             (select_active_contractor_run env c
                {| db := d; undo := None; issued := 1; trace := _ |}
                (Hq _))).
  cbn [db]. destruct (filter _ (contractors (rows d))) eqn:E2.
  { apply filter_empty_existsb in E2. congruence. }
  unfold insert_work_assignment at 1. unfold bind at 1.
  rewrite query_run by (apply Hq || reflexivity). cbn [db].
  unfold update_location_status at 1. unfold bind at 1.
  rewrite query_run by (apply Hq || reflexivity).
  cbn [db ret status respond]. split; [reflexivity|].
  unfold open_on, with_rows.
  cbn [rows work_assignments set_work_assignments
         set_aggregated_locations].
  rewrite filter_app, length_app.
  cbn [filter wa_aggregated_location_id wa_status is_open].
  rewrite Z.eqb_refl. cbn. lia.
Qed.

(** C6. On a location that already has an open assignment, the admin
    operations [assignToContractor] and [batchAssign] insert a second open
    row, where [createWorkAssignment] updates the open row in place. *)
Theorem admin_assign_adds_second_open_row :
  let d := sample_db LAssigned [sample_assignment 1 1 1 WInProgress] in
  List.length (open_on 1 d) = 1%nat /\
  (let '(r, d', _) := serve (assignToContractor quiet (assign_to 1 2)) d in
   status r = 201 /\
   map wa_id (open_on 1 d') = [1; 10] /\
   map wa_status (open_on 1 d') = [WInProgress; WAssigned]) /\
  (let '(r, d', _) := serve (batchAssign quiet (assign_to 1 2)) d in
   status r = 201 /\
   map wa_id (open_on 1 d') = [1; 10] /\
   map wa_status (open_on 1 d') = [WInProgress; WAssigned]) /\
  (let '(r, d', _) := serve (createWorkAssignment quiet (assign_to 1 2)) d in
   r = respond 200 (Assignment "Assignment updated successfully" 1) /\
   map wa_id (open_on 1 d') = [1] /\
   map wa_contractor_id (open_on 1 d') = [2] /\
   map wa_status (open_on 1 d') = [WAssigned]).
Proof. vm_compute. repeat split. Qed.

(* ===================================================================== *)
(** * The highest severity of a grid cell                                 *)
(* ===================================================================== *)

Lemma severity_of_string_inv (x : string) (sv : Severity) :
  severity_of_string x = Some sv -> x = string_of_severity sv.
Proof.
  unfold severity_of_string.
  destruct (String.eqb_spec x "Low"); [intros H; inversion H; subst; auto|].
  destruct (String.eqb_spec x "Medium");
    [intros H; inversion H; subst; auto|].
  destruct (String.eqb_spec x "High");
    [intros H; inversion H; subst; auto|].
  discriminate.
Qed.

Lemma severity_of_string_of (sv : Severity) :
  severity_of_string (string_of_severity sv) = Some sv.
Proof. destruct sv; reflexivity. Qed.

Lemma severityOrder_of (sv : Severity) :
  severityOrder (string_of_severity sv) = Some (severity_rank sv).
Proof. destruct sv; reflexivity. Qed.

(** The comparison of [updateAggregatedLocation] picks the larger of the
    stored and the incoming severity. *)
Lemma newHighest_is_max (h sv : Severity) :
  (if js_gt (severityOrder (string_of_severity sv))
        (severityOrder (string_of_severity h))
   then string_of_severity sv
   else string_of_severity h)
  = string_of_severity (severity_max h sv).
Proof.
  rewrite !severityOrder_of. unfold js_gt, severity_max.
  destruct (severity_rank h <? severity_rank sv); reflexivity.
Qed.

Lemma severity_max_ge_l (a b : Severity) :
  severity_rank a <= severity_rank (severity_max a b).
Proof.
  unfold severity_max.
  destruct (Z.ltb_spec (severity_rank a) (severity_rank b)); lia.
Qed.

Lemma severity_max_ge_r (a b : Severity) :
  severity_rank b <= severity_rank (severity_max a b).
Proof.
  unfold severity_max.
  destruct (Z.ltb_spec (severity_rank a) (severity_rank b)); lia.
Qed.

Lemma severity_max_cases (a b : Severity) :
  severity_max a b = a \/ severity_max a b = b.
Proof. unfold severity_max. destruct (_ <? _); auto. Qed.

Lemma severity_rank_inj (a b : Severity) :
  severity_rank a = severity_rank b -> a = b.
Proof. destruct a, b; simpl; intros H; try reflexivity; discriminate. Qed.

Lemma severity_max_swap (a b c : Severity) :
  severity_max (severity_max a b) c = severity_max (severity_max a c) b.
Proof. destruct a, b, c; reflexivity. Qed.

Lemma severity_max_comm (a b : Severity) :
  severity_max a b = severity_max b a.
Proof. destruct a, b; reflexivity. Qed.

Lemma merged_severity_cons (start : option Severity) (x : Severity)
    (l : list Severity) :
  merged_severity start (x :: l)
  = merged_severity
      (Some (match start with Some a => severity_max a x | None => x end)) l.
Proof. reflexivity. Qed.

Lemma merged_severity_perm (l l' : list Severity) :
  Permutation l l' ->
  forall start, merged_severity start l = merged_severity start l'.
Proof.
  induction 1 as [|x l l' _ IH|x y l|l l' l'' _ IH1 _ IH2]; intros start.
  - reflexivity.
  - rewrite !merged_severity_cons. apply IH.
  - rewrite !merged_severity_cons. f_equal. f_equal.
    destruct start as [a|]; [apply severity_max_swap|].
    apply severity_max_comm.
  - rewrite IH1. apply IH2.
Qed.

(** [merged_severity] is the maximum: it is one of the values merged, and
    none of them ranks above it. *)
Lemma merged_severity_is_max (l : list Severity) :
  forall start,
    (start <> None \/ l <> []) ->
    exists m,
      merged_severity start l = Some m /\
      (start = Some m \/ In m l) /\
      (forall a, start = Some a -> severity_rank a <= severity_rank m) /\
      Forall (fun x => severity_rank x <= severity_rank m) l.
Proof.
  induction l as [|x l IH]; intros start Hne.
  - destruct start as [a|]; [|destruct Hne as [H|H]; contradiction H; auto].
    exists a. simpl. repeat split; auto.
    intros b Hb. inversion Hb. lia.
  - rewrite merged_severity_cons.
    destruct (IH (Some (match start with
                        | Some a => severity_max a x
                        | None => x
                        end))) as (m & Hm & Hin & Hub & Hall);
      [left; discriminate|].
    exists m. split; [exact Hm|].
    specialize (Hub _ eq_refl).
    split; [|split].
    + destruct Hin as [Hin|Hin]; [|right; right; exact Hin].
      inversion Hin as [Hin']. destruct start as [a|].
      * destruct (severity_max_cases a x) as [E|E].
        -- left. congruence.
        -- right. left. congruence.
      * right. left. reflexivity.
    + intros a Ha. subst start.
      pose proof (severity_max_ge_l a x). lia.
    + constructor; [|exact Hall].
      destruct start as [a|]; [|lia].
      pose proof (severity_max_ge_r a x). lia.
Qed.

Lemma select_aggregated_by_grid_run env grid s :
  fault env (issued s) = false ->
  select_aggregated_by_grid env grid s
  = (Ok (cell grid (db s)),
     {| db := db s; undo := undo s; issued := S (issued s);
        trace := trace s ++ [EvQuery Read "aggregated_locations"] |}).
Proof.
  intros Hf. unfold select_aggregated_by_grid.
  rewrite query_run by (exact Hf || reflexivity). reflexivity.
Qed.

(** One merge: the call goes through, the cell of the detection holds
    the larger of what it held and the incoming severity (the incoming
    one when the cell is new), it has one row more only when it was empty,
    and the other cells keep their rows. *)
Lemma merge_one env data type sv s :
  (forall n, fault env n = false) ->
  detection_severity data = Some sv ->
  exists s',
    updateAggregatedLocation env data type s = (Ok tt, s') /\
    highest_at (grid_of env data) (db s')
    = Some (match highest_at (grid_of env data) (db s) with
            | Some h => severity_max h sv
            | None => sv
            end) /\
    List.length (cell (grid_of env data) (db s'))
    = Nat.max 1 (List.length (cell (grid_of env data) (db s))) /\
    (forall g, g <> grid_of env data -> cell g (db s') = cell g (db s)) /\
    (cell (grid_of env data) (db s) <> [] ->
     map al_id (cell (grid_of env data) (db s'))
     = map al_id (cell (grid_of env data) (db s)) /\
     map al_report_count (cell (grid_of env data) (db s'))
     = map (fun c => c + 1)
         (map al_report_count (cell (grid_of env data) (db s))) /\
     List.length (aggregated_locations (rows (db s')))
     = List.length (aggregated_locations (rows (db s)))).
Proof.
  intros Hq Hsv. unfold updateAggregatedLocation.
  change (toFixed4 (Number_toString env) (parseFloat (d_latitude data))
          ++ "_"
          ++ toFixed4 (Number_toString env) (parseFloat (d_longitude data)))%string
    with (grid_of env data).
  set (grid := grid_of env data).
  unfold detection_severity in Hsv.
  apply severity_of_string_inv in Hsv. rewrite Hsv.
  rewrite (bind_ok _ _ _ _ _
             (select_aggregated_by_grid_run env grid s (Hq _))).
  unfold highest_at.
  destruct (cell grid (db s)) as [|current rest] eqn:Hcell.
  - (* a new cell *)
    unfold insert_aggregated.
    rewrite query_run by (apply Hq || reflexivity).
    cbn [db]. rewrite severity_of_string_of.
    rewrite (filter_empty_existsb _ _ Hcell).
    eexists. split; [reflexivity|]. cbn [db].
    unfold cell in *. cbn [rows aggregated_locations
                             set_aggregated_locations].
    rewrite !filter_app, Hcell. cbn [filter al_grid_id app].
    rewrite String.eqb_refl. split; [reflexivity|]. split; [reflexivity|].
    split; [|intros Hc; contradiction Hc; reflexivity].
    intros g Hg. rewrite filter_app. cbn [filter al_grid_id].
    destruct (String.eqb_spec grid g) as [E|_]; [contradiction Hg; auto|].
    apply app_nil_r.
  - (* an existing cell *)
    rewrite newHighest_is_max.
    unfold update_aggregated.
    rewrite query_run by (apply Hq || reflexivity).
    cbn [db]. unfold cell in Hcell.
    rewrite (filter_cons_existsb _ _ _ _ Hcell), severity_of_string_of.
    eexists. split; [reflexivity|]. cbn [db].
    unfold cell, with_rows. cbn [rows aggregated_locations
                                   set_aggregated_locations].
    rewrite filter_update_where by (intros x Hx; exact Hx).
    rewrite Hcell. cbn [map al_highest_severity merge_into].
    split; [reflexivity|]. split; [|split].
    + cbn [List.length]. rewrite length_map. lia.
    + intros g Hg. apply filter_update_where_other.
      intros x Hx. cbn [merge_into al_grid_id].
      apply String.eqb_eq in Hx. rewrite Hx.
      destruct (String.eqb_spec grid g) as [E|_]; [contradiction Hg; auto|].
      auto.
    + intros _. rewrite !map_map. cbn [merge_into al_id al_report_count].
      repeat split. unfold update_where. apply length_map.
Qed.

Lemma severities_cons x (l : list (detection * string)) sv :
  detection_severity (fst x) = Some sv ->
  severities (x :: l) = sv :: severities l.
Proof. intros H. unfold severities. simpl. rewrite H. reflexivity. Qed.

Lemma merge_all_run env grid (l : list (detection * string)) :
  (forall n, fault env n = false) ->
  Forall (fun x => grid_of env (fst x) = grid
                   /\ detection_severity (fst x) <> None) l ->
  forall s,
  exists s',
    merge_all env l s = (Ok tt, s') /\
    highest_at grid (db s')
    = merged_severity (highest_at grid (db s)) (severities l).
Proof.
  intros Hq. induction 1 as [|x l [Hg Hsv] _ IH]; intros s.
  - exists s. split; reflexivity.
  - destruct (detection_severity (fst x)) as [sv|] eqn:E;
      [|contradiction Hsv; reflexivity].
    destruct (merge_one env (fst x) (snd x) sv s Hq E)
      as (s1 & Hrun & Hh & _).
    destruct (IH s1) as (s' & Hrest & Hh').
    exists s'. unfold merge_all in *. cbn [for_each].
    rewrite (bind_ok _ _ _ _ _ Hrun). split; [exact Hrest|].
    rewrite Hh', (severities_cons x l sv E), merged_severity_cons.
    rewrite <- Hg, Hh. reflexivity.
Qed.

Lemma severities_perm (l l' : list (detection * string)) :
  Permutation l l' -> Permutation (severities l) (severities l').
Proof. apply Permutation_flat_map. Qed.

(** Detections with one grid key that carry a severity of the ENUM,
    merged one at a time: every merge goes through, and the cell's
    [highest_severity] is the maximum, in the order Low < Medium < High,
    of what the cell held before and of every severity merged; it never
    ranks below what the cell held, and it is the same for every order of
    merging. *)
Lemma one_key_highest_severity (env : environment) (grid : string)
    (l : list (detection * string)) (s : session) :
  (forall n, fault env n = false) ->
  Forall (fun x => grid_of env (fst x) = grid
                   /\ detection_severity (fst x) <> None) l ->
  exists s',
    merge_all env l s = (Ok tt, s') /\
    highest_at grid (db s')
    = merged_severity (highest_at grid (db s)) (severities l) /\
    (l <> [] ->
     exists m,
       highest_at grid (db s') = Some m /\
       (highest_at grid (db s) = Some m \/ In m (severities l)) /\
       (forall h, highest_at grid (db s) = Some h ->
                  severity_rank h <= severity_rank m) /\
       Forall (fun x => severity_rank x <= severity_rank m)
         (severities l)) /\
    (forall l',
       Permutation l l' ->
       exists s'',
         merge_all env l' s = (Ok tt, s'') /\
         highest_at grid (db s'') = highest_at grid (db s')).
Proof.
  intros Hq Hall.
  destruct (merge_all_run env grid l Hq Hall s) as (s' & Hrun & Hh).
  exists s'. split; [exact Hrun|]. split; [exact Hh|]. split.
  - intros Hne. rewrite Hh. apply merged_severity_is_max. right.
    destruct l as [|x l]; [contradiction Hne; reflexivity|].
    inversion Hall as [|? ? [_ Hsv] _]; subst.
    destruct (detection_severity (fst x)) as [sv|] eqn:E;
      [|contradiction Hsv; reflexivity].
    rewrite (severities_cons x l sv E). discriminate.
  - intros l' Hp.
    assert (Hall' : Forall (fun x => grid_of env (fst x) = grid
                                     /\ detection_severity (fst x) <> None)
                      l')
      by (eapply Permutation_Forall; eassumption).
    destruct (merge_all_run env grid l' Hq Hall' s) as (s'' & Hrun' & Hh').
    exists s''. split; [exact Hrun'|].
    rewrite Hh, Hh'. symmetry.
    apply merged_severity_perm, severities_perm, Hp.
Qed.

(** What [toFixed(4)] prints for a finite number below 10^21: the sign
    of the number, then the digits of its rounded magnitude. *)
Lemma toFixed4_plain nts (x : spec_float) :
  plain x = true ->
  exists n,
    rounded4 x = Some (if is_negative x then - n else n) /\
    0 <= n /\
    toFixed4 nts x
    = ((if is_negative x then "-" else "") ++ fixed_digits 4 n)%string.
Proof.
  destruct x as [sg|sg| |sg m e]; try discriminate; intros Hp.
  - exists 0. repeat split; auto. lia.
  - simpl in Hp. apply negb_true_iff in Hp.
    exists (fixed_units 4 m e). simpl. rewrite Hp.
    repeat split; auto.
    unfold fixed_units. destruct (0 <=? e) eqn:He.
    + apply Z.leb_le in He.
      pose proof (Z.pow_nonneg 2 e). pose proof (Z.pow_nonneg 10 4). nia.
    + apply Z.div_pos.
      * pose proof (Z.pow_nonneg 2 (- e)). pose proof (Z.pow_nonneg 10 4).
        nia.
      * pose proof (Z.pow_pos_nonneg 2 (- e)).
        apply Z.leb_gt in He. lia.
Qed.

Lemma toFixed4_rounded nts (x y : spec_float) :
  plain x = true -> plain y = true ->
  rounded4 x = rounded4 y -> is_negative x = is_negative y ->
  toFixed4 nts x = toFixed4 nts y.
Proof.
  intros Hx Hy Hr Hs.
  destruct (toFixed4_plain nts x Hx) as (n & Hn & Hn0 & ->).
  destruct (toFixed4_plain nts y Hy) as (k & Hk & Hk0 & ->).
  rewrite Hn, Hk, Hs in Hr. rewrite Hs.
  assert (n = k) by (destruct (is_negative y); inversion Hr; lia).
  subst. reflexivity.
Qed.

(** C2, as claimed, fails: two detections whose coordinates round to
    the same 4-decimal values, the longitudes -0.00001 and 0.00001 to
    0.0000, are merged into two cells, and the cell of the Low one holds
    Low, not the maximum High. *)
Lemma same_bucket_two_cells :
  Forall (fun x =>
            rounded4 (parseFloat (d_latitude (fst x))) = Some 515000 /\
            rounded4 (parseFloat (d_longitude (fst x))) = Some 0)
    across_zero /\
  severities across_zero = [High; Low] /\
  exists s',
    merge_all quiet across_zero (fresh_session empty_db) = (Ok tt, s') /\
    map (fun r => (al_grid_id r, al_highest_severity r, al_report_count r))
      (aggregated_locations (rows (db s')))
    = [("51.5000_-0.0000"%string, High, 1);
       ("51.5000_0.0000"%string, Low, 1)].
Proof.
  split; [repeat constructor|].
  split; [reflexivity|].
  eexists. split; vm_compute; reflexivity.
Qed.

(** Coordinates in the same bucket on the same side of zero get the same
    key. *)
Lemma same_rounding_same_key (env : environment) (lat lng : jsv)
    (x : detection) :
  same_rounding (d_latitude x) lat -> same_rounding (d_longitude x) lng ->
  grid_of env x = gridId (Number_toString env) lat lng.
Proof.
  intros (P1 & P2 & R1 & S1) (P3 & P4 & R2 & S2). unfold grid_of, gridId.
  rewrite (toFixed4_rounded _ _ _ P1 P2 R1 S1).
  rewrite (toFixed4_rounded _ _ _ P3 P4 R2 S2). reflexivity.
Qed.

(** C2, amended. Detections whose coordinates are in the 4-decimal bucket
    of [lat] and [lng] and on the same side of zero (finite, below 10^21,
    the same rounded value and the same sign for each coordinate), and
    whose severity is a member of the ENUM, all get the grid key of
    [lat] and [lng].  Merged one at a time, with every statement accepted,
    every merge goes through and the [highest_severity] of that cell is
    the maximum, in the order Low < Medium < High, of what the cell held
    before and of every severity merged; it never ranks below what the
    cell held, and it is the same for every order of merging. *)
Theorem highest_severity_is_maximum (env : environment) (lat lng : jsv)
    (l : list (detection * string)) (s : session) :
  (forall n, fault env n = false) ->
  Forall (fun x => same_rounding (d_latitude (fst x)) lat
                   /\ same_rounding (d_longitude (fst x)) lng
                   /\ detection_severity (fst x) <> None) l ->
  let grid := gridId (Number_toString env) lat lng in
  Forall (fun x => grid_of env (fst x) = grid) l /\
  exists s',
    merge_all env l s = (Ok tt, s') /\
    highest_at grid (db s')
    = merged_severity (highest_at grid (db s)) (severities l) /\
    (l <> [] ->
     exists m,
       highest_at grid (db s') = Some m /\
       (highest_at grid (db s) = Some m \/ In m (severities l)) /\
       (forall h, highest_at grid (db s) = Some h ->
                  severity_rank h <= severity_rank m) /\
       Forall (fun x => severity_rank x <= severity_rank m)
         (severities l)) /\
    (forall l',
       Permutation l l' ->
       exists s'',
         merge_all env l' s = (Ok tt, s'') /\
         highest_at grid (db s'') = highest_at grid (db s')).
Proof.
  intros Hq Hall grid.
  assert (Hkeys : Forall (fun x => grid_of env (fst x) = grid
                                   /\ detection_severity (fst x) <> None)
                    l).
  { eapply Forall_impl; [|exact Hall]. intros x (Hlat & Hlng & Hsv).
    split; [apply same_rounding_same_key; assumption|exact Hsv]. }
  split.
  - eapply Forall_impl; [|exact Hkeys]. intros x [Hg _]. exact Hg.
  - apply one_key_highest_severity; assumption.
Qed.

Lemma highest_severity_is_maximum_sample :
  exists s',
    merge_all quiet two_in_one_cell (fresh_session empty_db) = (Ok tt, s') /\
    highest_at "13.0827_80.2707" (db s') = Some High /\
    exists s'',
      merge_all quiet (rev two_in_one_cell) (fresh_session empty_db)
      = (Ok tt, s'') /\
      highest_at "13.0827_80.2707" (db s'') = Some High.
Proof.
  assert (Hall : Forall (fun x =>
                           same_rounding (d_latitude (fst x))
                             (num false 130827 (-4))
                           /\ same_rounding (d_longitude (fst x))
                                (num false 802707 (-4))
                           /\ detection_severity (fst x) <> None)
                   two_in_one_cell)
    by (repeat constructor; discriminate).
  destruct (highest_severity_is_maximum quiet (num false 130827 (-4))
              (num false 802707 (-4)) two_in_one_cell
              (fresh_session empty_db) (fun _ => eq_refl) Hall)
    as (_ & s' & Hrun & Hh & _ & Hperm).
  exists s'. split; [exact Hrun|]. split; [exact Hh|].
  destruct (Hperm (rev two_in_one_cell) (Permutation_rev _))
    as (s'' & Hrun' & Hh').
  exists s''. split; [exact Hrun'|]. exact (eq_trans Hh' Hh).
Defined.

(** One pothole (High) and one road anomaly (Low) at the same rounded
    coordinates make one cell with both counts at 1, the severity High
    and the report count 2. *)
Example pothole_and_anomaly_in_one_cell :
  exists s',
    merge_all quiet two_in_one_cell (fresh_session empty_db) = (Ok tt, s') /\
    map (fun r => (al_grid_id r, al_total_potholes r, al_total_patchy r,
                   al_highest_severity r, al_report_count r, al_status r))
      (aggregated_locations (rows (db s')))
    = [("13.0827_80.2707"%string, 1, 1, High, 2, LPending)].
Proof. eexists. split; vm_compute; reflexivity. Qed.

(* ===================================================================== *)
(** * The spatial grid key                                                *)
(* ===================================================================== *)

Example gridId_string_and_number :
  gridId (Number_toString quiet) (JStr "13.08270") (JStr "80.27070")
  = "13.0827_80.2707"%string /\
  gridId (Number_toString quiet) (num false 130827 (-4))
    (num false 802707 (-4))
  = "13.0827_80.2707"%string /\
  gridId (Number_toString quiet) (JStr " 13.08274999") (JStr "80.27065e0")
  = "13.0827_80.2707"%string.
Proof. vm_compute. repeat split. Qed.

(** C4, as claimed, fails: -0.00001 and 0.00001 both round to 0.0000,
    yet their keys differ, "-0.0000" against "0.0000". *)
Lemma gridId_splits_the_zero_bucket :
  let west := num true 1 (-5) in
  let east := num false 1 (-5) in
  let lat := num false 515 (-1) in
  rounded4 (parseFloat west) = Some 0 /\
  rounded4 (parseFloat east) = Some 0 /\
  gridId (Number_toString quiet) lat west = "51.5000_-0.0000"%string /\
  gridId (Number_toString quiet) lat east = "51.5000_0.0000"%string /\
  gridId (Number_toString quiet) lat west
  <> gridId (Number_toString quiet) lat east.
Proof.
  vm_compute. repeat split. discriminate.
Qed.

(** [fixed_units] rounds to the nearest ten-thousandth, upwards at a
    tie. *)
Lemma fixed_units_nearest (m : positive) (e : Z) :
  let n := fixed_units 4 m e in
  (0 <= e -> n = Zpos m * 2 ^ e * 10 ^ 4) /\
  (e < 0 ->
   let D := 2 ^ (- e) in
   2 * D * n <= 2 * (Zpos m * 10 ^ 4) + D < 2 * D * (n + 1)).
Proof.
  cbv zeta. unfold fixed_units. split.
  - intros He. apply Z.leb_le in He. rewrite He. reflexivity.
  - intros He. assert (H : (0 <=? e) = false) by (apply Z.leb_gt; lia).
    rewrite H.
    assert (HD : 0 < 2 * 2 ^ (- e))
      by (pose proof (Z.pow_pos_nonneg 2 (- e)); lia).
    split.
    + rewrite Z.mul_assoc. apply Z.mul_div_le. exact HD.
    + rewrite Z.mul_assoc.
      replace (2 * 2 ^ (- e) * ((2 * (Z.pos m * 10 ^ 4) + 2 ^ (- e))
                                / (2 * 2 ^ (- e)) + 1))
        with (2 * 2 ^ (- e) * Z.succ ((2 * (Z.pos m * 10 ^ 4) + 2 ^ (- e))
                                      / (2 * 2 ^ (- e))))
        by (unfold Z.succ; reflexivity).
      apply Z.mul_succ_div_gt. exact HD.
Qed.

(** C4, amended. The grid key is the latitude and the longitude, each
    read by [parseFloat] and printed by [toFixed(4)], joined by "_".
    [toFixed(4)] rounds to the nearest ten-thousandth, upwards in
    magnitude at a tie.  Two pairs of coordinates (finite and below 10^21)
    that round to the same ten-thousandths and have the same signs get the
    same key, whatever their precision or formatting; a negative number
    that rounds to zero prints as "-0.0000" and so does not share the key
    of a non-negative one.  A detection whose key equals that of the
    detection merged before it goes into the rows of that key: no row is
    added and the report count of the cell grows by one. *)
Theorem gridId_of_rounded_coordinates (env : environment) :
  (forall lat lng lat' lng',
     plain (parseFloat lat) = true -> plain (parseFloat lng) = true ->
     plain (parseFloat lat') = true -> plain (parseFloat lng') = true ->
     rounded4 (parseFloat lat) = rounded4 (parseFloat lat') ->
     is_negative (parseFloat lat) = is_negative (parseFloat lat') ->
     rounded4 (parseFloat lng) = rounded4 (parseFloat lng') ->
     is_negative (parseFloat lng) = is_negative (parseFloat lng') ->
     gridId (Number_toString env) lat lng
     = gridId (Number_toString env) lat' lng') /\
  (forall m e,
     let n := fixed_units 4 m e in
     (0 <= e -> n = Zpos m * 2 ^ e * 10 ^ 4) /\
     (e < 0 ->
      let D := 2 ^ (- e) in
      2 * D * n <= 2 * (Zpos m * 10 ^ 4) + D < 2 * D * (n + 1))) /\
  (forall d1 d2 t1 t2 s,
     (forall n, fault env n = false) ->
     detection_severity d1 <> None -> detection_severity d2 <> None ->
     grid_of env d1 = grid_of env d2 ->
     exists s1 s2,
       updateAggregatedLocation env d1 t1 s = (Ok tt, s1) /\
       updateAggregatedLocation env d2 t2 s1 = (Ok tt, s2) /\
       cell (grid_of env d1) (db s1) <> [] /\
       map al_id (cell (grid_of env d1) (db s2))
       = map al_id (cell (grid_of env d1) (db s1)) /\
       map al_report_count (cell (grid_of env d1) (db s2))
       = map (fun c => c + 1)
           (map al_report_count (cell (grid_of env d1) (db s1))) /\
       List.length (aggregated_locations (rows (db s2)))
       = List.length (aggregated_locations (rows (db s1)))).
Proof.
  split; [|split].
  - intros lat lng lat' lng' P1 P2 P3 P4 R1 S1 R2 S2. unfold gridId.
    rewrite (toFixed4_rounded _ _ _ P1 P3 R1 S1).
    rewrite (toFixed4_rounded _ _ _ P2 P4 R2 S2). reflexivity.
  - exact fixed_units_nearest.
  - intros d1 d2 t1 t2 s Hq H1 H2 Hg.
    destruct (detection_severity d1) as [sv1|] eqn:E1;
      [|contradiction H1; reflexivity].
    destruct (detection_severity d2) as [sv2|] eqn:E2;
      [|contradiction H2; reflexivity].
    destruct (merge_one env d1 t1 sv1 s Hq E1) as (s1 & Hr1 & _ & Hl1 & _).
    destruct (merge_one env d2 t2 sv2 s1 Hq E2)
      as (s2 & Hr2 & _ & _ & _ & Hsame).
    exists s1, s2. split; [exact Hr1|]. split; [exact Hr2|].
    assert (Hne : cell (grid_of env d1) (db s1) <> []).
    { intros Hc. rewrite Hc in Hl1. cbn [List.length] in Hl1. lia. }
    split; [exact Hne|]. rewrite Hg in *. apply Hsame, Hne.
Qed.

Lemma gridId_of_rounded_coordinates_sample :
  gridId (Number_toString quiet) (JStr "13.08270") (JStr "80.27070")
  = gridId (Number_toString quiet) (num false 130827 (-4))
      (num false 802707 (-4)) /\
  exists s1 s2,
    updateAggregatedLocation quiet (fst (nth 0 two_in_one_cell
                                           ({| d_latitude := JUndef;
                                               d_longitude := JUndef;
                                               d_severity := None |}, "")))
      "pothole" (fresh_session empty_db) = (Ok tt, s1) /\
    updateAggregatedLocation quiet (fst (nth 1 two_in_one_cell
                                           ({| d_latitude := JUndef;
                                               d_longitude := JUndef;
                                               d_severity := None |}, "")))
      "patchy" s1 = (Ok tt, s2) /\
    List.length (aggregated_locations (rows (db s2))) = 1%nat.
Proof.
  destruct (gridId_of_rounded_coordinates quiet) as (Hkey & _ & Hmerge).
  split.
  - apply Hkey; reflexivity.
  - destruct (Hmerge
                {| d_latitude := num false 130827 (-4);
                   d_longitude := num false 802707 (-4);
                   d_severity := Some "High" |}
                {| d_latitude := JStr "13.08270";
                   d_longitude := JStr "80.27070";
                   d_severity := Some "Low" |}
                "pothole" "patchy" (fresh_session empty_db)
                (fun _ => eq_refl)
                ltac:(discriminate) ltac:(discriminate) eq_refl)
      as (s1 & s2 & Hr1 & Hr2 & _ & _ & _ & Hlen).
    exists s1, s2. split; [exact Hr1|]. split; [exact Hr2|].
    rewrite Hlen. vm_compute in Hr1. inversion Hr1. reflexivity.
Defined.

(* ===================================================================== *)
(** * Invariants of a session, and effects that add up                    *)
(* ===================================================================== *)

Lemma keeps_ret {A} J (a : A) : keeps J (ret a).
Proof. intros s r s' H. inversion H; subst. auto. Qed.

Lemma keeps_throw {A} J (e : exn) : keeps J (@throw A e).
Proof. intros s r s' H. inversion H; subst. auto. Qed.

Lemma keeps_bind {A B} J (m : M A) (k : A -> M B) :
  keeps J m -> (forall a, keeps J (k a)) -> keeps J (bind m k).
Proof.
  intros Hm Hk s r s' H HJ.
  apply bind_inv in H as [(e & H & _) | (a & s1 & H1 & H2)].
  - eapply Hm; eassumption.
  - eapply Hk; [eassumption|]. eapply Hm; eassumption.
Qed.

Lemma keeps_for_each {A} J (f : A -> M unit) (l : list A) :
  (forall x, keeps J (f x)) -> keeps J (for_each f l).
Proof.
  intros Hf. induction l as [|x l IH]; cbn [for_each].
  - apply keeps_ret.
  - apply keeps_bind; [apply Hf|intros _; exact IH].
Qed.

Lemma keeps_query {A} J env a table schema used
    (run : database -> result (A * database)) :
  (forall d u v d', run d = Ok (v, d') -> J d u -> J d' u) ->
  keeps J (query env a table schema used run).
Proof.
  intros Hrun s r s' H HJ.
  assert (Hu : undo s' = undo s).
  { revert H. unfold query.
    destruct (fault env (issued s)); [intros H; inversion H; reflexivity|].
    destruct (negb (known_columns schema used));
      [intros H; inversion H; reflexivity|].
    destruct (run (db s)) as [[v d] | e]; intros H; inversion H; reflexivity. }
  rewrite Hu. apply query_inv in H. destruct r as [v | e].
  - eapply Hrun; eassumption.
  - rewrite H. exact HJ.
Qed.

Lemma keeps_read {A} J env table schema used (f : database -> A) :
  keeps J (query env Read table schema used (fun d => Ok (f d, d))).
Proof.
  apply keeps_query. intros d u v d' H. inversion H; subst. auto.
Qed.

Lemma keeps_toMySQLDatetime J env iso : keeps J (toMySQLDatetime env iso).
Proof.
  unfold toMySQLDatetime.
  destruct (str_or_null iso); [destruct (Date_iso env s)|];
    auto using keeps_ret, keeps_throw.
Qed.

(** Relations between two stores that carry two counts, and compose by
    adding them up. *)
Section Indexed.
Variable P : nat -> nat -> database -> database -> Prop.
Hypothesis P_refl : forall d, P 0 0 d d.
Hypothesis P_trans :
  forall i1 j1 i2 j2 d d' d'',
    P i1 j1 d d' -> P i2 j2 d' d'' -> P (i1 + i2) (j1 + j2) d d''.

Lemma effect_ret_ix {A} (a : A) : effect (ret a) (P 0 0).
Proof. intros s x s' H. inversion H; subst. apply P_refl. Qed.

Lemma effect_bind_ix {A B} (m : M A) (k : A -> M B) i1 j1 i2 j2 :
  effect m (P i1 j1) -> (forall a, effect (k a) (P i2 j2)) ->
  effect (bind m k) (P (i1 + i2) (j1 + j2)).
Proof.
  intros Hm Hk s b s' H.
  apply bind_inv in H as [(e & _ & Hc) | (a & s1 & H1 & H2)];
    [discriminate Hc|].
  eapply P_trans; [eapply Hm, H1|eapply Hk, H2].
Qed.

Lemma effect_for_each_ix {A} (f : A -> M unit) i j (l : list A) :
  (forall x, effect (f x) (P i j)) ->
  effect (for_each f l) (P (List.length l * i) (List.length l * j)).
Proof.
  intros Hf. induction l as [|x l IH]; cbn [for_each List.length].
  - apply effect_ret_ix.
  - change (S (List.length l) * i)%nat with (i + List.length l * i)%nat.
    change (S (List.length l) * j)%nat with (j + List.length l * j)%nat.
    apply effect_bind_ix; [apply Hf|intros _; exact IH].
Qed.
End Indexed.

Lemma Forall2_refl {A} (R : A -> A -> Prop) (l : list A) :
  (forall x, R x x) -> Forall2 R l l.
Proof. intros H. induction l; constructor; auto. Qed.

Lemma Forall2_trans {A} (R : A -> A -> Prop) (l1 l2 l3 : list A) :
  (forall x y z, R x y -> R y z -> R x z) ->
  Forall2 R l1 l2 -> Forall2 R l2 l3 -> Forall2 R l1 l3.
Proof.
  intros HR H12. revert l3. induction H12; intros l3 H23;
    inversion H23; subst; constructor; eauto.
Qed.

Lemma update_where_cons {R} (p : R -> bool) (f : R -> R) a l :
  update_where p f (a :: l)
  = (if p a then f a else a) :: update_where p f l.
Proof. reflexivity. Qed.

(** Two UPDATEs with the same idempotent assignment are one UPDATE. *)
Lemma update_where_twice {R} (p q : R -> bool) (f : R -> R) (l : list R) :
  (forall x, f (f x) = f x) ->
  update_where q f (update_where p f l)
  = update_where (fun x => p x || q x) f l.
Proof.
  intros Hf. induction l as [|a l IH]; [reflexivity|].
  rewrite !update_where_cons, IH.
  destruct (p a) eqn:Hp; cbn [orb]; [|reflexivity].
  destruct (q (f a)); [rewrite Hf|]; reflexivity.
Qed.

Lemma update_where_ext {R} (p q : R -> bool) (f : R -> R) (l : list R) :
  (forall x, In x l -> p x = q x) -> update_where p f l = update_where q f l.
Proof.
  intros H. induction l as [|a l IH]; [reflexivity|].
  rewrite !update_where_cons, IH by (intros x Hx; apply H; right; exact Hx).
  rewrite (H a) by (left; reflexivity). reflexivity.
Qed.

Lemma existsb_update_where {R} (p q : R -> bool) (f : R -> R) (l : list R) :
  (forall x, q (f x) = q x) ->
  existsb q (update_where p f l) = existsb q l.
Proof.
  intros H. induction l as [|a l IH]; [reflexivity|].
  rewrite update_where_cons. cbn [existsb]. rewrite IH.
  destruct (p a); [rewrite H|]; reflexivity.
Qed.

Lemma filter_nothing {R} (p : R -> bool) (l : list R) :
  Forall (fun x => p x = false) l -> filter p l = [].
Proof.
  induction 1 as [|x l Hx _ IH]; [reflexivity|].
  cbn [filter]. rewrite Hx. exact IH.
Qed.

Lemma filter_everything {R} (p : R -> bool) (l : list R) :
  Forall (fun x => p x = true) l -> filter p l = l.
Proof.
  induction 1 as [|x l Hx _ IH]; [reflexivity|].
  cbn [filter]. rewrite Hx, IH. reflexivity.
Qed.

Lemma existsb_false_Forall {R} (p : R -> bool) (l : list R) :
  existsb p l = false -> Forall (fun x => p x = false) l.
Proof.
  induction l as [|a l IH]; [constructor|]. cbn [existsb].
  intros H. apply orb_false_iff in H as [Ha Hl]. constructor; auto.
Qed.

Lemma affected_cons {R} (p : R -> bool) a l :
  affected p (a :: l) = (if p a then 1 else 0) + affected p l.
Proof.
  unfold affected. cbn [filter]. destruct (p a); cbn [List.length]; lia.
Qed.

Lemma affected_ext {R} (p q : R -> bool) (l : list R) :
  (forall x, p x = q x) -> affected p l = affected q l.
Proof.
  intros H. unfold affected. f_equal. f_equal. apply filter_ext, H.
Qed.

Lemma open_statuses (st : AssignmentStatus) :
  existsb (assignment_status_eqb st)
    [WPendingVerification; WInProgress; WAssigned] = is_open st.
Proof. destruct st; reflexivity. Qed.

Lemma str_or_some (x d : string) :
  x <> "" -> str_or (Some x) d = x.
Proof.
  intros H. cbn. destruct (String.eqb_spec x ""); [contradiction|reflexivity].
Qed.

(** A submission that is answered 201 ran its [try] block to the end. *)
Lemma submitReport_accepted env req d :
  let '(r, d', _) := serve (submitReport env req) d in
  status r = 201 ->
  exists report_id device_id anomalies s',
    str_or_null (sr_report_id req) = Some report_id /\
    str_or_null (sr_device_id req) = Some device_id /\
    sr_anomalies req = Some anomalies /\
    submitReport_ingest env req report_id device_id anomalies
      {| db := d; undo := Some (rows d); issued := 0;
         trace := [EvGetConnection; EvBeginTransaction] |} = (Ok r, s') /\
    d' = db s'.
Proof.
  unfold serve, submitReport, transactional.
  destruct (submitReport_try env req _) as [[resp | e] s] eqn:H;
    [|destruct e; intros Hc; discriminate Hc].
  unfold submitReport_try in H. rewrite bind_begin in H.
  cbn [getConnection log db trace undo issued app] in H.
  destruct (str_or_null (sr_report_id req)) as [report_id|];
    [destruct (str_or_null (sr_device_id req)) as [device_id|];
     [destruct (sr_anomalies req) as [anomalies|]|]|].
  all: try (inversion H; subst; intros Hc; discriminate Hc).
  intros _. exists report_id, device_id, anomalies, s.
  split; [reflexivity|]. split; [reflexivity|]. split; [reflexivity|].
  split; [exact H|reflexivity].
Qed.

(* ===================================================================== *)
(** * One open assignment per location, through the work life cycle       *)
(* ===================================================================== *)

(** The state depends on [work_assignments] and its counter alone. *)
Lemma one_open_each_ext (d d' : database) :
  work_assignments (rows d') = work_assignments (rows d) ->
  next_work_assignment (auto_increment d)
  <= next_work_assignment (auto_increment d') ->
  one_open_each d -> one_open_each d'.
Proof.
  intros Hw Hn (Hkey & Hbound & Hone). unfold one_open_each, open_on.
  rewrite Hw. split; [exact Hkey|]. split; [|exact Hone].
  intros w Hin. apply Hbound in Hin. lia.
Qed.

(** An UPDATE of [work_assignments] that leaves [id] and the location of
    every row alone and opens no row. *)
Lemma update_keeps_one_open (d : database)
    (p : work_assignments_row -> bool)
    (f : work_assignments_row -> work_assignments_row) :
  (forall w, wa_id (f w) = wa_id w) ->
  (forall w, wa_aggregated_location_id (f w) = wa_aggregated_location_id w) ->
  (forall w, In w (work_assignments (rows d)) -> p w = true ->
             is_open (wa_status (f w)) = true ->
             is_open (wa_status w) = true) ->
  one_open_each d ->
  one_open_each
    (with_rows (fun t =>
       set_work_assignments (update_where p f (work_assignments t)) t) d).
Proof.
  intros Hid Hloc Hst (Hkey & Hbound & Hone).
  assert (Hids : forall l, map wa_id (update_where p f l) = map wa_id l).
  { induction l as [|a l IH]; simpl; [reflexivity|].
    rewrite IH. destruct (p a); [rewrite Hid|]; reflexivity. }
  unfold one_open_each, open_on, with_rows.
  cbn [rows work_assignments set_work_assignments auto_increment].
  split; [rewrite Hids; exact Hkey|]. split.
  - intros w Hw. apply (in_map wa_id) in Hw. rewrite Hids in Hw.
    apply in_map_iff in Hw as (w0 & <- & Hw0). apply Hbound, Hw0.
  - intros location. specialize (Hone location). unfold open_on in Hone.
    eapply Nat.le_trans; [|exact Hone]. clear Hone Hkey Hbound.
    induction (work_assignments (rows d)) as [|a l IH]; simpl; [lia|].
    assert (IH' := IH (fun w Hw => Hst w (or_intror Hw))).
    destruct (p a) eqn:Hp.
    + rewrite Hloc.
      destruct (wa_aggregated_location_id a =? location); cbn [andb].
      * destruct (is_open (wa_status (f a))) eqn:Ho.
        -- rewrite (Hst a (or_introl eq_refl) Hp Ho). simpl. lia.
        -- destruct (is_open (wa_status a)); simpl; lia.
      * exact IH'.
    + destruct (_ && _); simpl; lia.
Qed.

Lemma keeps_locations d0 {A} env used
    (run : database -> result (A * database)) :
  (forall d v d', run d = Ok (v, d') ->
     work_assignments (rows d') = work_assignments (rows d)
     /\ auto_increment d' = auto_increment d) ->
  keeps (one_open_since d0)
    (query env Write "aggregated_locations" aggregated_locations_columns
       used run).
Proof.
  intros Hrun. apply keeps_query. intros d u v d' H (HI & Hn & Hu).
  destruct (Hrun _ _ _ H) as [Hw Ha]. unfold one_open_since.
  rewrite Ha. split; [|split; [exact Hn|exact Hu]].
  eapply one_open_each_ext; [exact Hw|rewrite Ha; lia|exact HI].
Qed.

Lemma keeps_update_location_verified d0 env id :
  keeps (one_open_since d0) (update_location_verified env id).
Proof.
  apply keeps_locations. intros d v d' H. inversion H; subst. auto.
Qed.

Lemma keeps_update_location_status d0 env st id :
  keeps (one_open_since d0) (update_location_status env st id).
Proof.
  apply keeps_locations. intros d v d' H. inversion H; subst. auto.
Qed.

Lemma keeps_update_assignments_closed d0 env st from notes location :
  is_open st = false ->
  keeps (one_open_since d0)
    (update_assignments_closed env st from notes location).
Proof.
  intros Hst. apply keeps_query. intros d u v d' H (HI & Hn & Hu).
  inversion H; subst. split; [|split; [exact Hn|exact Hu]].
  apply update_keeps_one_open; auto.
  intros w _ _ Ho. cbn in Ho. congruence.
Qed.

Lemma keeps_update_assignments_reopened d0 env reason location :
  keeps (one_open_since d0)
    (update_assignments_reopened env reason location).
Proof.
  apply keeps_query. intros d u v d' H (HI & Hn & Hu).
  inversion H; subst. split; [|split; [exact Hn|exact Hu]].
  apply update_keeps_one_open; auto.
  intros w _ Hp _. unfold on_location_in in Hp.
  apply andb_true_iff in Hp as [_ Hp]. cbn in Hp.
  destruct (wa_status w); try discriminate. reflexivity.
Qed.

Lemma keeps_commit d0 : keeps (one_open_since d0) commit.
Proof.
  intros s r s' H (HI & Hn & _). inversion H; subst. cbn.
  split; [exact HI|]. split; [exact Hn|left; reflexivity].
Qed.

Lemma pooled_keeps_one_open (try_block : M response) catch_block d :
  keeps (one_open_since d) try_block ->
  one_open_each d ->
  let '(_, d', _) := serve (pooled try_block catch_block) d in
  one_open_each d'.
Proof.
  intros Hk HI. unfold serve, pooled.
  assert (H0 : one_open_since d d None)
    by (split; [exact HI|split; [lia|left; reflexivity]]).
  destruct (try_block _) as [[r | e] s] eqn:H;
    apply (Hk _ _ _ H H0).
Qed.

Lemma transactional_keeps_one_open (rest : M response) catch_block d :
  keeps (one_open_since d) rest ->
  one_open_each d ->
  let '(_, d', _) :=
    serve (transactional (beginTransaction ;;; rest) catch_block) d in
  one_open_each d'.
Proof.
  intros Hk HI. unfold serve, transactional. rewrite bind_begin.
  assert (H0 : one_open_since d d (Some (rows d)))
    by (split; [exact HI|split; [lia|right; reflexivity]]).
  destruct (rest _) as [[r | e] s] eqn:H; specialize (Hk _ _ _ H H0);
    clear H; rename Hk into H.
  - apply H.
  - destruct H as (HI' & Hn & Hu). cbn [release rollback log db].
    destruct Hu as [-> | ->]; [exact HI'|].
    eapply (one_open_each_ext d); [reflexivity|exact Hn|exact HI].
Qed.

Lemma keeps_batchVerifyLocations_loop d0 env notes ids :
  forall a b,
    keeps (one_open_since d0) (batchVerifyLocations_loop env notes ids a b).
Proof.
  induction ids as [|id ids IH]; intros a b; cbn [batchVerifyLocations_loop].
  - apply keeps_ret.
  - apply keeps_bind; [apply keeps_update_location_verified|]. intros n1.
    apply keeps_bind;
      [apply keeps_update_assignments_closed; reflexivity|].
    intros n2. apply IH.
Qed.

Lemma keeps_update_location_status_to env st id :
  keeps (fun d _ => one_open_each d) (update_location_status_to env st id).
Proof.
  apply keeps_query. intros d u v d' H HI. cbv zeta in H.
  destruct (existsb _ (aggregated_locations (rows d)));
    [destruct (location_status_of_string st); [|discriminate]|];
    inversion H; subst; [|exact HI].
  eapply one_open_each_ext; [reflexivity|cbn; lia|exact HI].
Qed.

(** [updateWorkAssignment] keeps the state as long as it does not move a
    closed assignment back to an open status. *)
Lemma updateWorkAssignment_keeps_one_open (env : environment)
    (req : assignment_update) (d : database) :
  one_open_each d ->
  (forall w s st,
     In w (work_assignments (rows d)) -> wa_id w = au_assignmentId req ->
     str_or_null (au_status req) = Some s ->
     assignment_status_of_string s = Some st ->
     is_open st = true -> is_open (wa_status w) = true) ->
  let '(_, d', _) := serve (updateWorkAssignment env req) d in
  one_open_each d'.
Proof.
  intros HI Hopen. unfold serve, updateWorkAssignment, pooled.
  set (s0 := {| db := d; undo := None; issued := 0; trace := [] |}).
  assert (Hgen : forall r s',
             updateWorkAssignment_try env req s0 = (r, s') ->
             one_open_each (db s')).
  2: { destruct (updateWorkAssignment_try env req s0) as [[r | e] s'];
       apply (Hgen _ _ eq_refl). }
  intros r s' H. unfold updateWorkAssignment_try in H. cbv zeta in H.
  destruct (match str_or_null (au_status req) with
            | Some _ => _
            | None => false
            end); [inversion H; subst; exact HI|].
  destruct (updates_of _ _); [inversion H; subst; exact HI|].
  apply bind_inv in H as [(e & H & _) | (result & s1 & H1 & H)].
  { apply query_inv in H. rewrite H. exact HI. }
  assert (HI1 : one_open_each (db s1)).
  { apply query_inv in H1. cbv beta zeta in H1. cbn [db s0] in H1.
    destruct (existsb _ (work_assignments (rows d)));
      [|inversion H1; subst; exact HI].
    destruct (str_or_null (au_status req)) as [x|] eqn:Es.
    - destruct (assignment_status_of_string x) as [st|] eqn:Est;
        [|discriminate].
      injection H1 as _ <-. apply update_keeps_one_open; auto.
      intros w Hin Hid Ho. cbn [assignment_changed wa_status] in Ho.
      apply (Hopen w x st); auto. apply Z.eqb_eq, Hid.
    - injection H1 as _ <-. apply update_keeps_one_open; auto. }
  clear H1. revert H HI1.
  match goal with
  | |- ?m s1 = _ -> _ -> _ =>
      assert (Hk : keeps (fun d _ => one_open_each d) m)
  end.
  { destruct (result =? 0); [apply keeps_ret|].
    apply keeps_bind; [|intros _; apply keeps_ret].
    destruct (str_or_null (au_status req)) as [x|]; [|apply keeps_ret].
    apply keeps_bind; [apply keeps_read|].
    intros [|a others]; [apply keeps_ret|].
    apply keeps_bind; [apply keeps_update_location_status_to|].
    intros _. apply keeps_ret. }
  intros H HI1. exact (Hk _ _ _ H HI1).
Qed.

(** X1. From a store in which the ids of [work_assignments] are distinct
    and below the AUTO_INCREMENT counter and no location has two open
    assignments, every outcome (success, rejection or a statement that
    fails) of [verifyLocation], [batchVerifyLocations] and
    [createWorkAssignment] leaves such a store; so does
    [updateWorkAssignment] as long as it does not move an assignment that
    was closed to an open status. *)
Theorem dashboard_keeps_one_open (env : environment) (d : database)
    (req : verify_request) (areq : assign_request)
    (ureq : assignment_update) :
  one_open_each d ->
  (let '(_, d', _) := serve (verifyLocation env req) d in one_open_each d')
  /\ (let '(_, d', _) := serve (batchVerifyLocations env req) d in
      one_open_each d')
  /\ (let '(_, d', _) := serve (createWorkAssignment env areq) d in
      one_open_each d')
  /\ ((forall w s st,
         In w (work_assignments (rows d)) ->
         wa_id w = au_assignmentId ureq ->
         str_or_null (au_status ureq) = Some s ->
         assignment_status_of_string s = Some st ->
         is_open st = true -> is_open (wa_status w) = true) ->
      let '(_, d', _) := serve (updateWorkAssignment env ureq) d in
      one_open_each d').
Proof.
  intros HI. split; [|split; [|split]].
  - apply pooled_keeps_one_open; [|exact HI]. unfold verifyLocation_try.
    apply keeps_bind; [apply keeps_update_location_verified|]. intros n.
    destruct (n =? 0); [apply keeps_ret|].
    apply keeps_bind;
      [apply keeps_update_assignments_closed; reflexivity|].
    intros m. apply keeps_ret.
  - apply transactional_keeps_one_open; [|exact HI].
    destruct (vr_locationIds req) as [[|id ids]|]; try apply keeps_ret.
    apply keeps_bind; [apply keeps_batchVerifyLocations_loop|]. intros sums.
    apply keeps_bind; [apply keeps_commit|]. intros _. apply keeps_ret.
  - apply createWorkAssignment_keeps_one_open, HI.
  - intros Hopen. apply updateWorkAssignment_keeps_one_open; assumption.
Qed.

Lemma dashboard_keeps_one_open_sample :
  let d := sample_db LAssigned [sample_assignment 1 1 1 WInProgress] in
  (let '(_, d', _) := serve (verifyLocation quiet (verify_of 1)) d in
   one_open_each d')
  /\ (let '(_, d', _) :=
        serve (updateWorkAssignment quiet (update_of 1 "assigned" None)) d in
      one_open_each d').
Proof.
  cbv zeta.
  assert (HI : one_open_each
                 (sample_db LAssigned [sample_assignment 1 1 1 WInProgress])).
  { split; [|split].
    - repeat constructor. intros [].
    - intros w [<-|[]]. reflexivity.
    - intros location. unfold open_on. cbn -[Z.eqb].
      destruct (1 =? location); cbn; lia. }
  destruct (dashboard_keeps_one_open quiet _ (verify_of 1) (assign_to 1 2)
              (update_of 1 "assigned" None) HI) as (Hv & _ & _ & Hu).
  split; [exact Hv|]. apply Hu.
  intros w s st [<-|[]] _ _ _ _. reflexivity.
Defined.

(** X2. From such a store, every outcome of the admin operations
    [verifyWork], [batchVerify] and [rejectVerification] leaves a store in
    which the ids of [work_assignments] are distinct and below the
    counter and no location has two open assignments: a rejection reopens
    only assignments that were in 'pending_verification', which is an
    open status already. *)
Theorem admin_verification_keeps_one_open (env : environment)
    (d : database) (req : verify_request) :
  one_open_each d ->
  (let '(_, d', _) := serve (verifyWork env req) d in one_open_each d')
  /\ (let '(_, d', _) := serve (batchVerify env req) d in one_open_each d')
  /\ (let '(_, d', _) := serve (rejectVerification env req) d in
      one_open_each d').
Proof.
  intros HI. split; [|split].
  - apply pooled_keeps_one_open; [|exact HI]. unfold verifyWork_try.
    apply keeps_bind; [apply keeps_update_location_verified|]. intros n.
    apply keeps_bind;
      [apply keeps_update_assignments_closed; reflexivity|].
    intros m. apply keeps_ret.
  - apply transactional_keeps_one_open; [|exact HI].
    destruct (vr_locationIds req) as [[|id ids]|]; try apply keeps_ret.
    apply keeps_bind.
    { apply keeps_for_each. intros x.
      apply keeps_bind; [apply keeps_update_location_verified|]. intros n.
      apply keeps_bind;
        [apply keeps_update_assignments_closed; reflexivity|].
      intros m. apply keeps_ret. }
    intros _. apply keeps_bind; [apply keeps_commit|]. intros _.
    apply keeps_ret.
  - apply pooled_keeps_one_open; [|exact HI]. unfold rejectVerification_try.
    apply keeps_bind; [apply keeps_update_assignments_reopened|]. intros n.
    apply keeps_bind; [apply keeps_update_location_status|]. intros m.
    apply keeps_ret.
Qed.

Lemma admin_verification_keeps_one_open_sample :
  let d := sample_db LPendingVerification
             [sample_assignment 1 1 1 WPendingVerification] in
  let '(_, d', _) := serve (rejectVerification quiet (verify_of 1)) d in
  one_open_each d'.
Proof.
  cbv zeta.
  apply (admin_verification_keeps_one_open quiet
           (sample_db LPendingVerification
              [sample_assignment 1 1 1 WPendingVerification])
           (verify_of 1)).
  split; [|split].
  - repeat constructor. intros [].
  - intros w [<-|[]]. reflexivity.
  - intros location. unfold open_on. cbn -[Z.eqb].
    destruct (1 =? location); cbn; lia.
Defined.

(** The condition on [updateWorkAssignment] is needed: moving a closed
    assignment of a location back to 'in_progress' while another one is
    open leaves the location with two open assignments. *)
Lemma updateWorkAssignment_can_reopen :
  one_open_each reopening /\
  let '(r, d', _) :=
    serve (updateWorkAssignment quiet (update_of 1 "in_progress" None))
      reopening in
  status r = 200 /\ map wa_id (open_on 1 d') = [1; 2].
Proof.
  split; [|vm_compute; split; reflexivity].
  split; [|split].
  - repeat constructor; cbn; intuition discriminate.
  - intros w Hw. cbn in Hw. destruct Hw as [<-|[<-|[]]]; reflexivity.
  - intros location. unfold open_on. cbn -[Z.eqb].
    destruct (1 =? location); cbn; lia.
Qed.

(* ===================================================================== *)
(** * The totals of the grid                                              *)
(* ===================================================================== *)

Lemma cell_grew_refl r : cell_grew r r.
Proof. unfold cell_grew. repeat split; lia. Qed.

Lemma cell_grew_trans a b c : cell_grew a b -> cell_grew b c -> cell_grew a c.
Proof.
  unfold cell_grew.
  intros (A1 & A2 & A3 & A4 & A5 & A6 & A7 & A8 & A9 & A10 & A11)
         (B1 & B2 & B3 & B4 & B5 & B6 & B7 & B8 & B9 & B10 & B11).
  repeat split; try congruence; lia.
Qed.

Lemma tallies_refl d : tallies 0 0 d d.
Proof.
  intros Hu. split; [exact Hu|]. split.
  - exists (aggregated_locations (rows d)), []. rewrite app_nil_r.
    split; [reflexivity|]. split; [|constructor].
    apply Forall2_refl, cell_grew_refl.
  - cbn. repeat split; lia.
Qed.

Lemma tallies_trans i1 j1 i2 j2 d d' d'' :
  tallies i1 j1 d d' -> tallies i2 j2 d' d'' ->
  tallies (i1 + i2) (j1 + j2) d d''.
Proof.
  intros H1 H2 Hu.
  destruct (H1 Hu) as (Hu' & (o1 & n1 & E1 & F1 & N1) & S1 & S2 & S3).
  destruct (H2 Hu') as (Hu'' & (o2 & n2 & E2 & F2 & N2) & T1 & T2 & T3).
  split; [exact Hu''|]. split.
  - rewrite E1 in F2. apply Forall2_app_inv_l in F2
      as (o2a & o2b & Fa & Fb & ->).
    exists o2a, (o2b ++ n2). split; [rewrite E2, app_assoc; reflexivity|].
    split; [eapply Forall2_trans; eauto using cell_grew_trans|].
    apply Forall_app. split; [|exact N2].
    clear - N1 Fb. induction Fb as [|x y l l' Hxy _ IH]; [constructor|].
    inversion N1 as [|? ? (Ha & Hb) Hrest]; subst.
    constructor; [|auto].
    destruct Hxy as (_ & _ & _ & _ & Hs & Hv & _). split; congruence.
  - rewrite T1, T2, T3, S1, S2, S3. repeat split; lia.
Qed.

Lemma sum_of_app f l l' : sum_of f (l ++ l') = sum_of f l + sum_of f l'.
Proof.
  unfold sum_of. induction l as [|a l IH]; cbn [fold_right app];
    [reflexivity|].
  rewrite IH. lia.
Qed.

Lemma no_other_hit (l : list aggregated_locations_row)
    (a : aggregated_locations_row) :
  ~ In (al_grid_id a) (map al_grid_id l) ->
  existsb (fun r => (al_grid_id r =? al_grid_id a)%string) l = false.
Proof.
  intros Ha. apply not_true_is_false. intros Hex.
  apply existsb_exists in Hex as (b & Hb & He).
  apply String.eqb_eq in He. contradiction Ha. rewrite <- He.
  apply in_map, Hb.
Qed.

Lemma sum_of_cons f a l : sum_of f (a :: l) = f a + sum_of f l.
Proof. reflexivity. Qed.

(** An UPDATE by [grid_id] that adds [k] to a column of the row it hits. *)
Lemma sum_of_update (l : list aggregated_locations_row) (g : string)
    (f : aggregated_locations_row -> aggregated_locations_row)
    (c : aggregated_locations_row -> Z) (k : Z) :
  (forall r, c (f r) = c r + k) ->
  existsb (fun r => (al_grid_id r =? g)%string) l = true ->
  NoDup (map al_grid_id l) ->
  sum_of c (update_where (fun r => (al_grid_id r =? g)%string) f l)
  = sum_of c l + k.
Proof.
  intros Hc. induction l as [|a l IH]; [discriminate|].
  intros Hex Hn. cbn [map] in Hn. apply NoDup_cons_iff in Hn as [Ha Hn].
  rewrite update_where_cons, !sum_of_cons. cbn [existsb] in Hex.
  destruct (String.eqb_spec (al_grid_id a) g) as [E|E].
  - rewrite Hc. subst g.
    rewrite update_where_none by (apply no_other_hit, Ha). lia.
  - cbn [orb] in Hex. rewrite (IH Hex Hn). lia.
Qed.

(** With [grid_id] a key, the rows an UPDATE by [grid_id] hits are the
    first one a SELECT by [grid_id] returns. *)
Lemma hit_is_current (l : list aggregated_locations_row) (g : string)
    (current r : aggregated_locations_row)
    (rest : list aggregated_locations_row) :
  NoDup (map al_grid_id l) ->
  filter (fun r => (al_grid_id r =? g)%string) l = current :: rest ->
  In r l -> (al_grid_id r =? g)%string = true -> r = current.
Proof.
  induction l as [|a l IH]; cbn; [discriminate|].
  intros Hn Hf Hin Hr. apply NoDup_cons_iff in Hn as [Ha Hn].
  destruct (String.eqb_spec (al_grid_id a) g) as [E|E].
  - inversion Hf; subst a. destruct Hin as [<- | Hin]; [reflexivity|].
    apply String.eqb_eq in Hr. contradiction Ha. rewrite E, <- Hr.
    apply in_map, Hin.
  - destruct Hin as [<- | Hin].
    + apply String.eqb_eq in Hr. contradiction.
    + eapply IH; eauto.
Qed.

Lemma map_grid_update (p : aggregated_locations_row -> bool) dp dq h now l :
  map al_grid_id (update_where p (merge_into dp dq h now) l)
  = map al_grid_id l.
Proof.
  induction l as [|a l IH]; [reflexivity|].
  rewrite update_where_cons. cbn [map]. rewrite IH.
  destruct (p a); reflexivity.
Qed.

(** The severity that [updateAggregatedLocation] writes back is not below
    the one it read. *)
Lemma newHighest_not_below (severity : string) (current h : Severity) :
  severity_of_string
    (if js_gt (severityOrder severity)
          (severityOrder (string_of_severity current))
     then severity else string_of_severity current) = Some h ->
  severity_rank current <= severity_rank h.
Proof.
  rewrite severityOrder_of.
  destruct (severityOrder severity) as [x|] eqn:Ex; cbn [js_gt].
  - destruct (severity_rank current <? x) eqn:Hlt.
    + intros Hh. apply severity_of_string_inv in Hh. subst severity.
      rewrite severityOrder_of in Ex. injection Ex as <-.
      apply Z.ltb_lt in Hlt. lia.
    + rewrite severity_of_string_of. intros Hh. injection Hh as <-. lia.
  - rewrite severity_of_string_of. intros Hh. injection Hh as <-. lia.
Qed.

Lemma grew_update (l : list aggregated_locations_row) (grid now : string)
    (dp dq : Z) (h : Severity) (current : aggregated_locations_row) :
  (forall r, In r l -> (al_grid_id r =? grid)%string = true -> r = current) ->
  0 <= dp -> 0 <= dq ->
  severity_rank (al_highest_severity current) <= severity_rank h ->
  Forall2 cell_grew l
    (update_where (fun r => (al_grid_id r =? grid)%string)
       (merge_into dp dq h now) l).
Proof.
  intros Hcur Hdp Hdq Hh. induction l as [|a l IH]; [constructor|].
  rewrite update_where_cons.
  constructor; [|apply IH; intros r Hin; apply Hcur; right; exact Hin].
  destruct (al_grid_id a =? grid)%string eqn:Ha; [|apply cell_grew_refl].
  assert (a = current) by (apply Hcur; [left; reflexivity|exact Ha]).
  subst a. unfold cell_grew. cbn. repeat split; lia.
Qed.

Lemma effect_merge env data type :
  type = "pothole" \/ type = "patchy" ->
  effect (updateAggregatedLocation env data type)
    (tallies (one_if (type =? "pothole")%string)
       (one_if (type =? "patchy")%string)).
Proof.
  intros Htype s x s' H. unfold updateAggregatedLocation in H.
  apply bind_inv in H as [(e & _ & Hc) | (existing & s1 & H1 & H)];
    [discriminate Hc|].
  apply query_inv in H1. cbv beta in H1. injection H1 as Hex Hd1.
  set (grid := (toFixed4 (Number_toString env) (parseFloat (d_latitude data))
                ++ "_"
                ++ toFixed4 (Number_toString env)
                     (parseFloat (d_longitude data)))%string) in *.
  set (dp := if (type =? "pothole")%string then 1 else 0) in *.
  set (dq := if (type =? "patchy")%string then 1 else 0) in *.
  assert (Hdp : dp = Z.of_nat (one_if (type =? "pothole")%string))
    by (unfold dp, one_if; destruct (type =? "pothole")%string; reflexivity).
  assert (Hdq : dq = Z.of_nat (one_if (type =? "patchy")%string))
    by (unfold dq, one_if; destruct (type =? "patchy")%string; reflexivity).
  assert (Hone : dp + dq = 1) by (destruct Htype; subst type; reflexivity).
  clearbody dp dq.
  assert (Hdp0 : 0 <= dp) by lia. assert (Hdq0 : 0 <= dq) by lia.
  destruct existing as [|current rest].
  - (* a new cell *)
    apply query_inv in H. rewrite <- Hd1 in H. cbv beta in H.
    destruct (severity_of_string _) as [h|]; [|discriminate].
    destruct (existsb _ _) eqn:Hno; [discriminate|].
    injection H as _ H. intros Hu. unfold unique_grid in *. rewrite <- H.
    cbn [rows aggregated_locations set_aggregated_locations].
    split; [|split].
    + rewrite map_app. apply NoDup_app; [exact Hu|repeat constructor; auto|].
      intros g Hg [<-|[]]. cbn [al_grid_id] in Hg.
      apply in_map_iff in Hg as (r & Hr & Hin).
      assert (Ht : existsb (fun r => (al_grid_id r =? grid)%string)
                     (aggregated_locations (rows (db s))) = true).
      { apply existsb_exists. exists r. split; [exact Hin|].
        apply String.eqb_eq, Hr. }
      congruence.
    + eexists. eexists. split; [reflexivity|].
      split; [apply Forall2_refl, cell_grew_refl|].
      repeat constructor.
    + rewrite !sum_of_app, !sum_of_cons.
      cbn [al_total_potholes al_total_patchy al_report_count sum_of
             fold_right].
      lia.
  - (* an existing cell *)
    assert (Hhit : existsb (fun r => (al_grid_id r =? grid)%string)
                     (aggregated_locations (rows (db s))) = true)
      by (eapply filter_cons_existsb; exact Hex).
    assert (Hcur : filter (fun r => (al_grid_id r =? grid)%string)
                     (aggregated_locations (rows (db s))) = current :: rest)
      by exact Hex.
    clearbody grid.
    apply query_inv in H. rewrite <- Hd1 in H. cbv beta zeta in H.
    rewrite Hhit in H.
    destruct (severity_of_string _) as [h|] eqn:Hh; [|discriminate].
    injection H as _ H. intros Hu. unfold unique_grid in *. rewrite <- H.
    cbn [rows aggregated_locations set_aggregated_locations with_rows].
    split; [|split].
    + rewrite map_grid_update. exact Hu.
    + eexists. exists []. rewrite app_nil_r. split; [reflexivity|].
      split; [|constructor].
      apply newHighest_not_below in Hh.
      apply grew_update with (current := current); auto.
      intros r Hin Hr. eapply hit_is_current; eauto.
    + rewrite !sum_of_update with (k := dp) (c := al_total_potholes),
        !sum_of_update with (k := dq) (c := al_total_patchy),
        !sum_of_update with (k := 1) (c := al_report_count);
        auto; lia.
Qed.

Lemma tallies_same d d' :
  aggregated_locations (rows d') = aggregated_locations (rows d) ->
  tallies 0 0 d d'.
Proof.
  intros E Hu. unfold unique_grid. rewrite E. split; [exact Hu|]. split.
  - exists (aggregated_locations (rows d)), []. rewrite app_nil_r.
    split; [reflexivity|]. split; [|constructor].
    apply Forall2_refl, cell_grew_refl.
  - cbn. repeat split; lia.
Qed.

Lemma tallies_toMySQLDatetime env iso :
  effect (toMySQLDatetime env iso) (tallies 0 0).
Proof.
  intros s a s' H. unfold toMySQLDatetime in H.
  destruct (str_or_null iso); [destruct (Date_iso env s0)|];
    inversion H; subst; apply tallies_refl.
Qed.

Lemma tallies_ingest_pothole env dbReportId pothole :
  effect (ingest_pothole env dbReportId pothole) (tallies 1 0).
Proof.
  unfold ingest_pothole.
  apply (effect_bind_ix tallies tallies_trans _ _ 0 0 1 0);
    [apply tallies_toMySQLDatetime|].
  intros ts.
  apply (effect_bind_ix tallies tallies_trans _ _ 0 0 1 0).
  - apply effect_query. intros d v d' H.
    destruct (severity_of_string _); [|discriminate].
    inversion H; subst. apply tallies_same. reflexivity.
  - intros _. apply (effect_merge env _ "pothole"). left. reflexivity.
Qed.

Lemma tallies_ingest_patchy env dbReportId patchy :
  effect (ingest_patchy env dbReportId patchy) (tallies 0 1).
Proof.
  unfold ingest_patchy.
  apply (effect_bind_ix tallies tallies_trans _ _ 0 0 0 1);
    [apply tallies_toMySQLDatetime|].
  intros t1.
  apply (effect_bind_ix tallies tallies_trans _ _ 0 0 0 1);
    [apply tallies_toMySQLDatetime|].
  intros t2.
  apply (effect_bind_ix tallies tallies_trans _ _ 0 0 0 1).
  - apply effect_query. intros d v d' H.
    destruct (severity_of_string _); [|discriminate].
    inversion H; subst. apply tallies_same. reflexivity.
  - intros _. apply (effect_merge env _ "patchy"). right. reflexivity.
Qed.

(** What an accepted submission does to the grid. *)
Lemma tallies_ingest env req report_id device_id anomalies :
  effect (submitReport_ingest env req report_id device_id anomalies)
    (tallies (List.length (filter (has_type "pothole") anomalies))
       (List.length (filter (has_type "road_anomaly") anomalies))).
Proof.
  set (p := List.length (filter (has_type "pothole") anomalies)).
  set (a := List.length (filter (has_type "road_anomaly") anomalies)).
  replace p with (0 + (0 + (0 + (p * 1 + (a * 0 + 0)))))%nat by lia.
  replace a with (0 + (0 + (0 + (p * 0 + (a * 1 + 0)))))%nat at 2 by lia.
  unfold submitReport_ingest.
  apply (effect_bind_ix tallies tallies_trans).
  { destruct (id_truthy (sr_user req)); [apply effect_ret_ix, tallies_refl|].
    apply (effect_bind_ix tallies tallies_trans _ _ 0 0 0 0).
    - apply effect_query. intros d v d' H. inversion H; subst.
      apply tallies_refl.
    - intros [|u us]; apply effect_ret_ix, tallies_refl. }
  intros userId. cbv zeta.
  apply (effect_bind_ix tallies tallies_trans);
    [apply tallies_toMySQLDatetime|].
  intros reported.
  apply (effect_bind_ix tallies tallies_trans).
  { apply effect_query. intros d v d' H.
    destruct (existsb _ _); [discriminate|].
    inversion H; subst. apply tallies_same. reflexivity. }
  intros dbReportId.
  apply (effect_bind_ix tallies tallies_trans).
  { apply (effect_for_each_ix tallies tallies_refl tallies_trans).
    intros x. apply tallies_ingest_pothole. }
  intros _.
  apply (effect_bind_ix tallies tallies_trans).
  { apply (effect_for_each_ix tallies tallies_refl tallies_trans).
    intros x. apply tallies_ingest_patchy. }
  intros _.
  apply (effect_bind_ix tallies tallies_trans _ _ 0 0 0 0).
  { intros s x s' H. inversion H; subst. apply tallies_refl. }
  intros _. apply effect_ret_ix, tallies_refl.
Qed.

(** X3. With [grid_id] a key of [aggregated_locations], a submission that
    is answered 201 raises the sum of [total_potholes] over all cells by
    the number p of entries tagged "pothole", the sum of [total_patchy] by
    the number a of entries tagged "road_anomaly", and the sum of
    [report_count] by p + a: [report_count] counts detections, not
    reports. *)
Theorem submitReport_counts_every_detection (env : environment)
    (req : submit_request) (d : database) :
  unique_grid d ->
  let '(r, d', _) := serve (submitReport env req) d in
  status r = 201 ->
  exists anomalies,
    sr_anomalies req = Some anomalies /\
    let p := Z.of_nat (List.length (filter (has_type "pothole") anomalies)) in
    let a :=
      Z.of_nat (List.length (filter (has_type "road_anomaly") anomalies)) in
    sum_of al_total_potholes (aggregated_locations (rows d'))
    = sum_of al_total_potholes (aggregated_locations (rows d)) + p /\
    sum_of al_total_patchy (aggregated_locations (rows d'))
    = sum_of al_total_patchy (aggregated_locations (rows d)) + a /\
    sum_of al_report_count (aggregated_locations (rows d'))
    = sum_of al_report_count (aggregated_locations (rows d)) + p + a.
Proof.
  intros Hu. pose proof (submitReport_accepted env req d) as Hacc.
  destruct (serve (submitReport env req) d) as [[r d'] tr].
  intros H201.
  destruct (Hacc H201) as (report_id & device_id & anomalies & s' & _
                           & _ & Han & Hrun & ->).
  exists anomalies. split; [exact Han|].
  apply tallies_ingest in Hrun. cbn [db] in Hrun.
  destruct (Hrun Hu) as (_ & _ & Hsums). exact Hsums.
Qed.

Lemma submitReport_counts_every_detection_sample :
  exists anomalies,
    sr_anomalies sample_submission = Some anomalies /\
    let p := Z.of_nat (List.length (filter (has_type "pothole") anomalies)) in
    let a :=
      Z.of_nat (List.length (filter (has_type "road_anomaly") anomalies)) in
    sum_of al_total_potholes (aggregated_locations (rows stored_db))
    = sum_of al_total_potholes (aggregated_locations (rows empty_db)) + p /\
    sum_of al_total_patchy (aggregated_locations (rows stored_db))
    = sum_of al_total_patchy (aggregated_locations (rows empty_db)) + a /\
    sum_of al_report_count (aggregated_locations (rows stored_db))
    = sum_of al_report_count (aggregated_locations (rows empty_db)) + p + a.
Proof.
  pose proof (submitReport_counts_every_detection quiet sample_submission
                empty_db (NoDup_nil _)) as H.
  destruct (serve (submitReport quiet sample_submission) empty_db)
    as [[r d'] tr] eqn:E.
  vm_compute in E. inversion E; subst r d'. apply H. reflexivity.
Defined.

(** X4. Whatever the outcome of a submission, [grid_id] stays a key and
    every cell that existed is kept, in place, with its id, grid key,
    coordinates, status, [verified_at] and [first_reported_at] unchanged
    and its totals, [report_count] and [highest_severity] not lower; the
    cells that were added are 'pending' and unverified.  A submission
    never reopens a verified location. *)
Theorem submitReport_cells_only_grow (env : environment)
    (req : submit_request) (d : database) :
  unique_grid d ->
  let '(_, d', _) := serve (submitReport env req) d in
  unique_grid d' /\
  exists old' new,
    aggregated_locations (rows d') = old' ++ new /\
    Forall2 cell_grew (aggregated_locations (rows d)) old' /\
    Forall (fun r => al_status r = LPending /\ al_verified_at r = None) new.
Proof.
  intros Hu. pose proof (submitReport_accepted env req d) as Hacc.
  pose proof (submitReport_not_accepted env req d) as Hrej.
  destruct (serve (submitReport env req) d) as [[r d'] tr].
  destruct (Z.eq_dec (status r) 201) as [H201 | Hn].
  - destruct (Hacc H201) as (report_id & device_id & anomalies & s' & _
                             & _ & _ & Hrun & ->).
    apply tallies_ingest in Hrun. cbn [db] in Hrun.
    destruct (Hrun Hu) as (Hu' & Hcells & _). auto.
  - destruct (Hrej Hn) as [Hrows _]. unfold unique_grid. rewrite Hrows.
    split; [exact Hu|].
    exists (aggregated_locations (rows d)), []. rewrite app_nil_r.
    split; [reflexivity|]. split; [|constructor].
    apply Forall2_refl, cell_grew_refl.
Qed.

Lemma submitReport_cells_only_grow_sample :
  unique_grid stored_db /\
  exists old' new,
    aggregated_locations (rows stored_db) = old' ++ new /\
    Forall2 cell_grew (aggregated_locations (rows empty_db)) old' /\
    Forall (fun r => al_status r = LPending /\ al_verified_at r = None) new.
Proof.
  pose proof (submitReport_cells_only_grow quiet sample_submission
                empty_db (NoDup_nil _)) as H.
  destruct (serve (submitReport quiet sample_submission) empty_db)
    as [[r d'] tr] eqn:E.
  vm_compute in E. inversion E; subst r d'. exact H.
Defined.

(* ===================================================================== *)
(** * Reading a submitted report back                                     *)
(* ===================================================================== *)

Lemma filed_refl report d : filed report 0 0 d d.
Proof.
  unfold filed. repeat split; exists []; rewrite app_nil_r; auto.
Qed.

Lemma filed_trans report i1 j1 i2 j2 d d' d'' :
  filed report i1 j1 d d' -> filed report i2 j2 d' d'' ->
  filed report (i1 + i2) (j1 + j2) d d''.
Proof.
  intros (U1 & R1 & (p1 & P1 & L1 & F1) & (q1 & Q1 & M1 & G1))
         (U2 & R2 & (p2 & P2 & L2 & F2) & (q2 & Q2 & M2 & G2)).
  unfold filed. split; [congruence|]. split; [congruence|]. split.
  - exists (p1 ++ p2). rewrite P2, P1, app_assoc, length_app.
    repeat split; [lia|apply Forall_app; auto].
  - exists (q1 ++ q2). rewrite Q2, Q1, app_assoc, length_app.
    repeat split; [lia|apply Forall_app; auto].
Qed.

Lemma filed_same report d d' :
  users (rows d') = users (rows d) ->
  reports (rows d') = reports (rows d) ->
  pothole_detections (rows d') = pothole_detections (rows d) ->
  road_anomalies (rows d') = road_anomalies (rows d) ->
  filed report 0 0 d d'.
Proof.
  intros U R P Q. unfold filed. rewrite U, R, P, Q.
  repeat split; exists []; rewrite app_nil_r; auto.
Qed.

Lemma filed_toMySQLDatetime report env iso :
  effect (toMySQLDatetime env iso) (filed report 0 0).
Proof.
  intros s a s' H. unfold toMySQLDatetime in H.
  destruct (str_or_null iso); [destruct (Date_iso env s0)|];
    inversion H; subst; apply filed_refl.
Qed.

Lemma filed_merge report env data type :
  effect (updateAggregatedLocation env data type) (filed report 0 0).
Proof.
  unfold updateAggregatedLocation.
  apply (effect_bind_ix (filed report) (filed_trans report) _ _ 0 0 0 0).
  - apply effect_query. intros d v d' H. inversion H; subst.
    apply filed_refl.
  - intros [|current rest]; apply effect_query; intros d v d' H;
      cbv zeta in H.
    + destruct (severity_of_string _); [|discriminate].
      destruct (existsb _ _); [discriminate|].
      inversion H; subst. apply filed_same; reflexivity.
    + destruct (existsb _ _); [|inversion H; subst; apply filed_refl].
      destruct (severity_of_string _); [|discriminate].
      inversion H; subst. apply filed_same; reflexivity.
Qed.

Lemma filed_ingest_pothole env dbReportId pothole :
  effect (ingest_pothole env dbReportId pothole) (filed dbReportId 1 0).
Proof.
  unfold ingest_pothole.
  apply (effect_bind_ix (filed dbReportId) (filed_trans dbReportId)
           _ _ 0 0 1 0); [apply filed_toMySQLDatetime|].
  intros ts.
  apply (effect_bind_ix (filed dbReportId) (filed_trans dbReportId)
           _ _ 1 0 0 0).
  - apply effect_query. intros d v d' H.
    destruct (severity_of_string _); [|discriminate].
    inversion H; subst. unfold filed.
    cbn [rows users reports pothole_detections road_anomalies
           set_pothole_detections].
    repeat split.
    + eexists. split; [reflexivity|]. split; [reflexivity|].
      repeat constructor.
    + exists []. rewrite app_nil_r. auto.
  - intros _. apply filed_merge.
Qed.

Lemma filed_ingest_patchy env dbReportId patchy :
  effect (ingest_patchy env dbReportId patchy) (filed dbReportId 0 1).
Proof.
  unfold ingest_patchy.
  apply (effect_bind_ix (filed dbReportId) (filed_trans dbReportId)
           _ _ 0 0 0 1); [apply filed_toMySQLDatetime|].
  intros t1.
  apply (effect_bind_ix (filed dbReportId) (filed_trans dbReportId)
           _ _ 0 0 0 1); [apply filed_toMySQLDatetime|].
  intros t2.
  apply (effect_bind_ix (filed dbReportId) (filed_trans dbReportId)
           _ _ 0 1 0 0).
  - apply effect_query. intros d v d' H.
    destruct (severity_of_string _); [|discriminate].
    inversion H; subst. unfold filed.
    cbn [rows users reports pothole_detections road_anomalies
           set_road_anomalies].
    repeat split.
    + exists []. rewrite app_nil_r. auto.
    + eexists. split; [reflexivity|]. split; [reflexivity|].
      repeat constructor.
  - intros _. apply filed_merge.
Qed.

Lemma userId_lookup env req device_id s userId s1 :
  (if id_truthy (sr_user req) then ret (sr_user req)
   else
     users <- select_users_by_device env device_id ;;
     match users with
     | u :: _ => ret (Some (u_id u))
     | [] => ret None
     end) s = (Ok userId, s1) ->
  db s1 = db s /\ userId = owner_of (sr_user req) device_id (db s).
Proof.
  unfold owner_of. intros HU.
  destruct (id_truthy (sr_user req));
    [inversion HU; subst; split; reflexivity|].
  apply bind_inv in HU as [(e & _ & Hc) | (us & s0 & H0 & HU)];
    [discriminate Hc|].
  apply query_inv in H0. cbv beta in H0. injection H0 as Hus H0.
  rewrite Hus. destruct us; inversion HU; subst; split; auto.
Qed.

(** What an accepted submission files: its header, as the last report,
    with the next id of the counter and an identifier that no report had,
    and after it the detections of that report. *)
Lemma ingest_files env req report_id device_id anomalies s resp s' :
  submitReport_ingest env req report_id device_id anomalies s
  = (Ok resp, s') ->
  exists header,
    reports (rows (db s')) = reports (rows (db s)) ++ [header] /\
    r_id header = next_report (auto_increment (db s)) /\
    r_report_id header = report_id /\
    r_status header = RPending /\
    existsb (fun r => (r_report_id r =? report_id)%string)
      (reports (rows (db s))) = false /\
    resp = respond 201
             (Submitted report_id (r_id header)
                (r_total_potholes header) (r_total_patchy_roads header)
                (r_health_score header) "pending") /\
    users (rows (db s')) = users (rows (db s)) /\
    (exists ps,
       pothole_detections (rows (db s'))
       = pothole_detections (rows (db s)) ++ ps
       /\ Z.of_nat (List.length ps) = r_total_potholes header
       /\ Forall (fun p => pd_report_id p = r_id header) ps) /\
    (exists qs,
       road_anomalies (rows (db s')) = road_anomalies (rows (db s)) ++ qs
       /\ Z.of_nat (List.length qs) = r_total_patchy_roads header
       /\ Forall (fun q => ra_report_id q = r_id header) qs) /\
    r_device_id header = device_id /\
    r_user_id header = owner_of (sr_user req) device_id (db s).
Proof.
  intros H. unfold submitReport_ingest in H.
  apply bind_inv in H as [(e & _ & Hc) | (userId & s1 & HU & H)];
    [discriminate Hc|].
  cbv zeta in H.
  apply bind_inv in H as [(e & _ & Hc) | (reported & s2 & HT & H)];
    [discriminate Hc|].
  apply bind_inv in H as [(e & _ & Hc) | (dbId & s3 & HI & H)];
    [discriminate Hc|].
  apply bind_inv in H as [(e & _ & Hc) | (u1 & s4 & HF1 & H)];
    [discriminate Hc|].
  apply bind_inv in H as [(e & _ & Hc) | (u2 & s5 & HF2 & H)];
    [discriminate Hc|].
  inversion H; subst resp s'; clear H. cbn [db].
  destruct (userId_lookup _ _ _ _ _ _ HU) as [HU' Howner].
  assert (HT' : db s2 = db s1).
  { unfold toMySQLDatetime in HT.
    destruct (str_or_null _); [destruct (Date_iso env _)|];
      inversion HT; reflexivity. }
  apply query_inv in HI. cbv beta in HI. rewrite HT', HU' in HI.
  destruct (existsb _ (reports (rows (db s)))) eqn:Hnew; [discriminate|].
  injection HI as Hid Hd3.
  destruct (effect_for_each_ix (filed dbId) (filed_refl dbId)
              (filed_trans dbId) _ 1%nat 0%nat _
              (filed_ingest_pothole env dbId) _ _ _ HF1)
    as (U1 & R1 & (ps & P1 & L1 & F1) & (q0 & Q1 & M1 & _)).
  destruct (effect_for_each_ix (filed dbId) (filed_refl dbId)
              (filed_trans dbId) _ 0%nat 1%nat _
              (filed_ingest_patchy env dbId) _ _ _ HF2)
    as (U2 & R2 & (p0 & P2 & L2 & _) & (qs & Q2 & M2 & G2)).
  assert (q0 = []) by (destruct q0; [reflexivity|cbn in M1; lia]).
  assert (p0 = []) by (destruct p0; [reflexivity|cbn in L2; lia]).
  subst q0 p0. rewrite app_nil_r in *.
  rewrite <- Hd3 in *.
  cbn [rows users reports pothole_detections road_anomalies set_reports]
    in *.
  subst dbId.
  eexists. split; [rewrite R2, R1; reflexivity|].
  cbn [r_id r_report_id r_status r_total_potholes r_total_patchy_roads
         r_health_score r_device_id r_user_id].
  split; [reflexivity|]. split; [reflexivity|]. split; [reflexivity|].
  split; [reflexivity|]. split; [reflexivity|].
  split; [congruence|]. split; [|split; [|split; [reflexivity|exact Howner]]].
  - exists ps. rewrite P2, P1. repeat split; [lia|exact F1].
  - exists qs. rewrite Q2, Q1. repeat split; [lia|exact G2].
Qed.

Lemma left_join_user_first us r :
  exists user rest, left_join_user us r = (r, user) :: rest.
Proof.
  unfold left_join_user. destruct (filter _ us) as [|u l].
  - exists None, []. reflexivity.
  - exists (Some u), (map (fun x => (r, Some x)) l). reflexivity.
Qed.

(** X5. A report that was accepted reads back: in a store whose
    detections all belong to reports inserted before, and with the three
    SELECTs of [getReportById] accepted, [getReportById] on the identifier
    of a submission that was answered 201 answers 200 with the header row
    the submission appended and exactly the detections it appended, as
    many of each kind as the 201 response counted, and changes nothing. *)
Theorem submitted_report_reads_back (env env' : environment)
    (req : submit_request) (d : database) :
  detections_refer_back d ->
  fault env' 0 = false -> fault env' 1 = false -> fault env' 2 = false ->
  let '(r, d', _) := serve (submitReport env req) d in
  status r = 201 ->
  exists report_id header user potholes anomalies,
    sr_report_id req = Some report_id /\
    body r = Submitted report_id (r_id header)
               (Z.of_nat (List.length potholes))
               (Z.of_nat (List.length anomalies))
               (r_health_score header) "pending" /\
    reports (rows d') = reports (rows d) ++ [header] /\
    pothole_detections (rows d') = pothole_detections (rows d) ++ potholes /\
    road_anomalies (rows d') = road_anomalies (rows d) ++ anomalies /\
    serve_of (getReportById env' report_id) d'
    = (answer 200 (ReportDetails header user potholes anomalies), d',
       [EvQuery Read "reports"; EvQuery Read "pothole_detections";
        EvQuery Read "road_anomalies"]).
Proof.
  intros [Hback1 Hback2] Hf0 Hf1 Hf2.
  pose proof (submitReport_accepted env req d) as Hacc.
  destruct (serve (submitReport env req) d) as [[r d'] tr].
  intros H201.
  destruct (Hacc H201) as (report_id & device_id & items & s' & Hid & _
                           & _ & Hrun & ->).
  apply ingest_files in Hrun. cbn [db] in Hrun.
  destruct Hrun as (header & HR & Hn & Hrid & _ & Hnew & -> & HU
                    & (ps & HP & LP & FP) & (qs & HQ & LQ & FQ) & _).
  exists report_id, header.
  destruct (left_join_user_first (users (rows (db s'))) header)
    as (user & rest & Hjoin).
  exists user, ps, qs.
  split; [apply str_or_null_some, Hid|].
  split; [cbn [body respond]; rewrite LP, LQ; reflexivity|].
  split; [exact HR|]. split; [exact HP|]. split; [exact HQ|].
  unfold serve_of, getReportById, pooled_of, getReportById_try.
  unfold select_report_with_user at 1. unfold bind at 1.
  rewrite query_run by (exact Hf0 || reflexivity). cbn [db].
  rewrite HR, filter_app.
  rewrite (filter_nothing _ _ (existsb_false_Forall _ _ Hnew)).
  cbn [filter app]. rewrite Hrid, String.eqb_refl.
  cbn [flat_map]. rewrite Hjoin. cbn [app].
  unfold select_potholes_of at 1. unfold bind at 1.
  rewrite query_run by (exact Hf1 || reflexivity). cbn [db].
  unfold select_anomalies_of at 1. unfold bind at 1.
  rewrite query_run by (exact Hf2 || reflexivity). cbn [db ret trace].
  rewrite HP, HQ, !filter_app.
  rewrite (filter_nothing _ (pothole_detections (rows d))),
    (filter_nothing _ (road_anomalies (rows d))),
    (filter_everything _ ps), (filter_everything _ qs).
  - reflexivity.
  - eapply Forall_impl; [|exact FQ]. intros q Hq. cbv beta.
    rewrite Hq. apply Z.eqb_refl.
  - eapply Forall_impl; [|exact FP]. intros p Hp. cbv beta.
    rewrite Hp. apply Z.eqb_refl.
  - eapply Forall_impl; [|exact Hback2]. intros q Hq. cbv beta in *.
    apply Z.eqb_neq. lia.
  - eapply Forall_impl; [|exact Hback1]. intros p Hp. cbv beta in *.
    apply Z.eqb_neq. lia.
Qed.

Lemma submitted_report_reads_back_sample :
  exists user potholes anomalies,
    List.length potholes = 2%nat /\ List.length anomalies = 1%nat /\
    fst (fst (serve_of (getReportById quiet "RPT-1") stored_db))
    = answer 200
        (ReportDetails
           {| r_id := 1; r_report_id := "RPT-1"; r_user_id := None;
              r_device_id := "device-1";
              r_reported_at := "2024-05-01 10:00:00";
              r_total_potholes := 2; r_total_patchy_roads := 1;
              r_health_score := 65; r_status := RPending |}
           user potholes anomalies).
Proof.
  assert (Hback : detections_refer_back empty_db)
    by (split; constructor).
  pose proof (submitted_report_reads_back quiet quiet sample_submission
                empty_db Hback eq_refl eq_refl eq_refl) as H.
  destruct (serve (submitReport quiet sample_submission) empty_db)
    as [[r d'] tr] eqn:E.
  vm_compute in E. inversion E; subst r d' tr. clear E.
  destruct (H eq_refl) as (report_id & header & user & ps & qs & Hid & Hb
                           & HR & HP & HQ & Hget).
  injection Hid as <-. cbn [body] in Hb. injection Hb as _ Hlp Hlq _.
  cbn [rows reports empty_db empty_tables app] in HR.
  injection HR as <-.
  exists user, ps, qs.
  split; [lia|]. split; [lia|].
  change stored_db with
    (snd (fst (serve (submitReport quiet sample_submission) empty_db))).
  vm_compute (snd (fst (serve _ empty_db))).
  rewrite Hget. reflexivity.
Defined.

(** X6. A report that is accepted is stored under the device identifier
    of the request and attributed to the authenticated user when the
    request carries one, else to the first user registered with that
    device identifier, and to nobody when there is none. *)
Theorem submitReport_attribution (env : environment) (req : submit_request)
    (d : database) :
  let '(r, d', _) := serve (submitReport env req) d in
  status r = 201 ->
  exists device_id header,
    str_or_null (sr_device_id req) = Some device_id /\
    reports (rows d') = reports (rows d) ++ [header] /\
    r_device_id header = device_id /\
    r_user_id header = owner_of (sr_user req) device_id d.
Proof.
  pose proof (submitReport_accepted env req d) as Hacc.
  destruct (serve (submitReport env req) d) as [[r d'] tr].
  intros H201.
  destruct (Hacc H201) as (report_id & device_id & items & s' & _ & Hdev
                           & _ & Hrun & ->).
  apply ingest_files in Hrun. cbn [db] in Hrun.
  destruct Hrun as (header & HR & _ & _ & _ & _ & _ & _ & _ & _ & Hd & Hu).
  exists device_id, header. auto.
Qed.

Lemma submitReport_attribution_sample :
  let '(_, d', _) := serve (submitReport quiet sample_submission) registered in
  map r_user_id (reports (rows d')) = [Some 4].
Proof.
  pose proof (submitReport_attribution quiet sample_submission registered)
    as H.
  destruct (serve (submitReport quiet sample_submission) registered)
    as [[r d'] tr] eqn:E.
  assert (H201 : status r = 201)
    by (vm_compute in E; inversion E; reflexivity).
  destruct (H H201) as (device_id & header & Hdev & HR & _ & Hu).
  injection Hdev as <-. rewrite HR.
  cbn [registered rows reports app map]. rewrite Hu. reflexivity.
Defined.

(* ===================================================================== *)
(** * Verification in bulk                                                *)
(* ===================================================================== *)

Lemma on_location_open (id : Z) (w : work_assignments_row) :
  on_location_in id [WPendingVerification; WInProgress; WAssigned] w
  = open_at [id] w.
Proof.
  unfold on_location_in, open_at, listed. rewrite open_statuses.
  cbn [existsb]. rewrite orb_false_r. reflexivity.
Qed.

Lemma verified_in_one_more (now : string) (note : option string) (id : Z)
    (ids : list Z) (d : database) :
  verified_in_bulk now note ids (verified_in_bulk now note [id] d)
  = verified_in_bulk now note (id :: ids) d.
Proof.
  unfold verified_in_bulk, with_rows, set_work_assignments,
    set_aggregated_locations.
  cbn [rows auto_increment work_assignments aggregated_locations users
         reports pothole_detections road_anomalies contractors].
  f_equal. f_equal.
  - rewrite update_where_twice by (intros; reflexivity).
    apply update_where_ext. intros r _. unfold listed. cbn [existsb].
    rewrite orb_false_r. reflexivity.
  - rewrite update_where_twice by (intros; reflexivity).
    apply update_where_ext. intros w _. unfold open_at, listed.
    cbn [existsb]. rewrite orb_false_r.
    destruct (wa_aggregated_location_id w =? id);
      destruct (is_open (wa_status w)); cbn;
      try rewrite andb_false_r; reflexivity.
Qed.

Lemma listings_cons id ids l :
  listings (id :: ids) l
  = affected (fun r => al_id r =? id) l + listings ids l.
Proof.
  unfold listings, affected. cbn [flat_map]. rewrite length_app. lia.
Qed.

Lemma listings_update ids (p : aggregated_locations_row -> bool)
    (f : aggregated_locations_row -> aggregated_locations_row) l :
  (forall r, al_id (f r) = al_id r) ->
  listings ids (update_where p f l) = listings ids l.
Proof.
  intros Hf. induction ids as [|id ids IH]; [reflexivity|].
  rewrite !listings_cons, IH. f_equal. unfold affected. f_equal.
  apply filter_length_update_where. intros x _ _. rewrite Hf. reflexivity.
Qed.

(** The assignments a batch closes: those of its first location, and
    those of the other locations that are still open afterwards. *)
Lemma affected_one_more (now : string) (note : option string) (id : Z)
    (ids : list Z) (l : list work_assignments_row) :
  affected (open_at [id]) l
  + affected (open_at ids)
      (update_where (open_at [id]) (closed_as WVerified now note) l)
  = affected (open_at (id :: ids)) l.
Proof.
  induction l as [|w l IH]; [reflexivity|].
  rewrite update_where_cons, !affected_cons, <- IH.
  assert (Hclosed : open_at ids (closed_as WVerified now note w) = false)
    by (unfold open_at; cbn [closed_as wa_status is_open];
        apply andb_false_r).
  assert (Hmore : open_at (id :: ids) w = open_at [id] w || open_at ids w).
  { unfold open_at, listed. cbn [existsb]. rewrite orb_false_r.
    destruct (wa_aggregated_location_id w =? id);
      destruct (is_open (wa_status w));
      destruct (existsb _ ids); reflexivity. }
  rewrite Hmore. destruct (open_at [id] w); cbn [orb].
  - rewrite Hclosed. lia.
  - destruct (open_at ids w); lia.
Qed.

Lemma verified_in_bulk_nil now note d : verified_in_bulk now note [] d = d.
Proof.
  unfold verified_in_bulk, with_rows, set_work_assignments,
    set_aggregated_locations.
  rewrite !update_where_none;
    [destruct d as [[] ?]; reflexivity| |];
    apply not_true_is_false; intros H;
    apply existsb_exists in H as (x & _ & Hx); discriminate Hx.
Qed.

Lemma verified_one now note id d :
  with_rows (fun t =>
    set_work_assignments
      (update_where
         (on_location_in id [WPendingVerification; WInProgress; WAssigned])
         (closed_as WVerified now note) (work_assignments t)) t)
    (with_rows (fun t =>
       set_aggregated_locations
         (update_where (fun r => al_id r =? id) (verified_now now)
            (aggregated_locations t)) t) d)
  = verified_in_bulk now note [id] d.
Proof.
  unfold verified_in_bulk, with_rows, set_work_assignments,
    set_aggregated_locations.
  cbn [rows auto_increment work_assignments aggregated_locations users
         reports pothole_detections road_anomalies contractors].
  f_equal. f_equal.
  - apply update_where_ext. intros r _. unfold listed. cbn [existsb].
    rewrite orb_false_r. reflexivity.
  - apply update_where_ext. intros w _. apply on_location_open.
Qed.

Lemma batchVerifyLocations_loop_run env notes ids :
  (forall n, fault env n = false) ->
  forall s a b,
  exists s',
    batchVerifyLocations_loop env notes ids a b s
    = (Ok (a + listings ids (aggregated_locations (rows (db s))),
           b + affected (open_at ids) (work_assignments (rows (db s)))), s')
    /\ db s'
       = verified_in_bulk (NOW env)
           (Some (str_or notes "Batch verified from dashboard")) ids (db s)
    /\ undo s' = undo s
    /\ trace s' = trace s ++ batch_statements ids.
Proof.
  intros Hq. induction ids as [|id ids IH]; intros s a b;
    cbn [batchVerifyLocations_loop].
  - exists s. rewrite verified_in_bulk_nil, app_nil_r.
    replace (listings [] _) with 0 by reflexivity.
    replace (affected (open_at []) _) with 0.
    + rewrite !Z.add_0_r. repeat split.
    + unfold affected. induction (work_assignments _); [reflexivity|].
      cbn. exact IHl.
  - rewrite (bind_ok _ _ _ _ _ (update_location_verified_run env id s (Hq _))).
    rewrite (bind_ok _ _ _ _ _
               (update_assignments_closed_run env WVerified _ _ id _ (Hq _))).
    cbn [db undo issued trace]. rewrite verified_one.
    match goal with
    | |- context [batchVerifyLocations_loop _ _ _ ?a' ?b' ?s1] =>
        destruct (IH s1 a' b') as (s' & Hrun & Hdb & Hundo & Htrace)
    end.
    exists s'. cbn [db undo trace] in Hdb, Hundo, Htrace, Hrun.
    rewrite verified_in_one_more in Hdb.
    split; [|split; [exact Hdb|split; [exact Hundo|]]].
    + rewrite Hrun. clear Hrun IH.
      set (note := Some (str_or notes "Batch verified from dashboard")).
      change (aggregated_locations
                (rows (verified_in_bulk (NOW env) note [id] (db s))))
        with (update_where (fun r => listed [id] (al_id r))
                (verified_now (NOW env))
                (aggregated_locations (rows (db s)))).
      change (work_assignments
                (rows (verified_in_bulk (NOW env) note [id] (db s))))
        with (update_where (open_at [id]) (closed_as WVerified (NOW env) note)
                (work_assignments (rows (db s)))).
      change (work_assignments (rows (with_rows _ (db s))))
        with (work_assignments (rows (db s))).
      rewrite listings_update by reflexivity.
      rewrite listings_cons, <- (affected_one_more (NOW env) note).
      rewrite (affected_ext _ _ _ (on_location_open id)).
      rewrite !Z.add_assoc. reflexivity.
    + rewrite Htrace, <- !app_assoc. reflexivity.
Qed.

(** X7. With no statement rejected, [batchVerifyLocations] on a list of
    location ids that is not empty answers 200 and leaves the store in
    which every listed location is 'verified' with [verified_at] stamped
    and every open assignment of a listed location is 'verified' with
    [completed_at] stamped and the note; two statements are sent per
    listed id between BEGIN and COMMIT.  [locationsUpdated] counts a location
    once for each time it is listed, [assignmentsUpdated] counts each
    assignment once, and an id of no location is no error. *)
Theorem batchVerifyLocations_in_bulk (env : environment)
    (req : verify_request) (d : database) (ids : list Z) :
  (forall n, fault env n = false) ->
  vr_locationIds req = Some ids -> ids <> [] ->
  serve (batchVerifyLocations env req) d
  = (respond 200
       (BatchVerified
          (count_text (List.length ids) " locations verified successfully")
          (listings ids (aggregated_locations (rows d)))
          (affected (open_at ids) (work_assignments (rows d)))),
     verified_in_bulk (NOW env)
       (Some (str_or (vr_notes req) "Batch verified from dashboard")) ids d,
     [EvGetConnection; EvBeginTransaction] ++ batch_statements ids
     ++ [EvCommit; EvRelease]).
Proof.
  intros Hq Hids Hne.
  unfold serve, batchVerifyLocations, transactional,
    batchVerifyLocations_try.
  rewrite bind_begin, Hids.
  destruct ids as [|id ids]; [contradiction Hne; reflexivity|].
  cbv beta iota. cbn [getConnection log db undo issued trace app].
  match goal with
  | |- context [bind (batchVerifyLocations_loop _ _ _ ?a ?b) _ ?s1] =>
      destruct (batchVerifyLocations_loop_run env (vr_notes req) (id :: ids)
                  Hq s1 a b) as (s' & Hrun & Hdb & Hundo & Htrace)
  end.
  rewrite (bind_ok _ _ _ _ _ Hrun).
  cbn [db undo trace] in Hdb, Hundo, Htrace.
  cbn [commit bind ret release log db trace fst snd].
  rewrite Hdb, Htrace, !Z.add_0_l, <- !app_assoc. reflexivity.
Qed.

Lemma batchVerifyLocations_in_bulk_sample :
  let d := sample_db LPendingVerification
             [sample_assignment 1 1 1 WPendingVerification;
              sample_assignment 2 1 2 WCompleted] in
  let '(r, d', _) :=
    serve (batchVerifyLocations quiet (verify_all [1; 5; 1])) d in
  r = respond 200 (BatchVerified "3 locations verified successfully" 2 1)
  /\ map al_status (aggregated_locations (rows d')) = [LVerified]
  /\ map wa_status (work_assignments (rows d')) = [WVerified; WCompleted].
Proof.
  cbv zeta.
  rewrite (batchVerifyLocations_in_bulk quiet (verify_all [1; 5; 1]) _
             [1; 5; 1] (fun _ => eq_refl) eq_refl ltac:(discriminate)).
  vm_compute. repeat split.
Defined.

Lemma no_insert_update_location_verified d0 env id :
  keeps (no_insert_since d0) (update_location_verified env id).
Proof.
  apply keeps_query. intros d u v d' H HJ. inversion H; subst. exact HJ.
Qed.

Lemma no_insert_update_assignments_closed d0 env st from notes location :
  keeps (no_insert_since d0)
    (update_assignments_closed env st from notes location).
Proof.
  apply keeps_query. intros d u v d' H HJ. inversion H; subst. exact HJ.
Qed.

Lemma no_insert_loop d0 env notes ids :
  forall a b,
    keeps (no_insert_since d0) (batchVerifyLocations_loop env notes ids a b).
Proof.
  induction ids as [|id ids IH]; intros a b; cbn [batchVerifyLocations_loop].
  - apply keeps_ret.
  - apply keeps_bind; [apply no_insert_update_location_verified|]. intros n1.
    apply keeps_bind; [apply no_insert_update_assignments_closed|].
    intros n2. apply IH.
Qed.

(** A [try] block that begins a transaction, inserts nothing and throws
    is undone altogether. *)
Lemma undone_altogether {A} (m : M A) (d : database) e s tr :
  keeps (no_insert_since d) m ->
  m {| db := d; undo := Some (rows d); issued := 0; trace := tr |}
  = (Throw e, s) ->
  db (release (rollback s)) = d.
Proof.
  intros Hk H.
  destruct (Hk _ _ _ H (conj eq_refl eq_refl)) as [Ha Hu].
  cbn [release rollback log db]. rewrite Hu, Ha.
  destruct d; reflexivity.
Qed.

(** X8. [batchVerifyLocations] and [batchVerify] answer 400 "locationIds
    are required" exactly when the list is missing or empty, and 200 or
    500 otherwise; whenever the answer is not 200 the store, counters
    included, is what it was before the call. *)
Theorem batch_verification_all_or_nothing (env : environment)
    (req : verify_request) (d : database) :
  let listed_some :=
    match vr_locationIds req with
    | Some (_ :: _) => true
    | _ => false
    end in
  (let '(r, d', _) := serve (batchVerifyLocations env req) d in
   (if listed_some then status r = 200 \/ status r = 500
    else r = respond 400 (Message "locationIds are required")) /\
   (status r <> 200 -> d' = d)) /\
  (let '(r, d', _) := serve (batchVerify env req) d in
   (if listed_some then status r = 200 \/ status r = 500
    else r = respond 400 (Message "locationIds are required")) /\
   (status r <> 200 -> d' = d)).
Proof.
  cbv zeta. split.
  - unfold serve, batchVerifyLocations, transactional,
      batchVerifyLocations_try.
    rewrite bind_begin. cbn [getConnection log db undo issued trace app].
    destruct (vr_locationIds req) as [[|id ids]|];
      try (cbn; split; [reflexivity|reflexivity]).
    match goal with
    | |- context [?m {| db := d; undo := Some (rows d); issued := 0;
                        trace := ?tr |}] =>
        destruct (m {| db := d; undo := Some (rows d); issued := 0;
                       trace := tr |}) as [[r | e] s] eqn:H
    end.
    + apply bind_inv in H as [(e & _ & Hc) | (sums & s1 & _ & H)];
        [discriminate Hc|].
      inversion H; subst. cbn. split; [left; reflexivity|].
      intros Hc. contradiction Hc. reflexivity.
    + split; [right; reflexivity|]. intros _.
      apply bind_inv in H as [(e0 & H & _) | (sums & s1 & _ & H)];
        [|inversion H].
      eapply undone_altogether; [|exact H]. apply no_insert_loop.
  - unfold serve, batchVerify, transactional, batchVerify_try.
    rewrite bind_begin. cbn [getConnection log db undo issued trace app].
    destruct (vr_locationIds req) as [[|id ids]|];
      try (cbn; split; [reflexivity|reflexivity]).
    match goal with
    | |- context [?m {| db := d; undo := Some (rows d); issued := 0;
                        trace := ?tr |}] =>
        destruct (m {| db := d; undo := Some (rows d); issued := 0;
                       trace := tr |}) as [[r | e] s] eqn:H
    end.
    + apply bind_inv in H as [(e & _ & Hc) | (sums & s1 & _ & H)];
        [discriminate Hc|].
      inversion H; subst. cbn. split; [left; reflexivity|].
      intros Hc. contradiction Hc. reflexivity.
    + split; [right; reflexivity|]. intros _.
      apply bind_inv in H as [(e0 & H & _) | (sums & s1 & _ & H)];
        [|inversion H].
      eapply undone_altogether; [|exact H].
      apply keeps_for_each. intros x.
      apply keeps_bind; [apply no_insert_update_location_verified|].
      intros n1.
      apply keeps_bind; [apply no_insert_update_assignments_closed|].
      intros n2. apply keeps_ret.
Qed.

(* ===================================================================== *)
(** * A verified location can be assigned again                           *)
(* ===================================================================== *)

(** A verification that is answered 200 found the location and ran both
    statements. *)
Lemma verifyLocation_accepted env req d :
  let id := vr_locationId req in
  let '(r, d', _) := serve (verifyLocation env req) d in
  status r = 200 ->
  existsb (fun r => al_id r =? id) (aggregated_locations (rows d)) = true /\
  d' = with_rows (fun t =>
         set_work_assignments
           (update_where
              (on_location_in id
                 [WPendingVerification; WInProgress; WAssigned])
              (closed_as WVerified (NOW env)
                 (Some (str_or (vr_notes req) "Verified from dashboard")))
              (work_assignments t)) t)
         (with_rows (fun t =>
            set_aggregated_locations
              (update_where (fun r => al_id r =? id) (verified_now (NOW env))
                 (aggregated_locations t)) t) d).
Proof.
  cbv zeta. unfold serve, verifyLocation, pooled.
  destruct (verifyLocation_try env req _) as [[r | e] s] eqn:H;
    [|intros Hc; discriminate Hc].
  unfold verifyLocation_try in H.
  apply bind_inv in H as [(e & _ & Hc) | (n & s1 & H1 & H)];
    [discriminate Hc|].
  apply query_inv in H1. cbv beta zeta in H1. cbn [db] in H1.
  injection H1 as Hn Hd1.
  destruct (n =? 0) eqn:E; [inversion H; subst; intros Hc; discriminate Hc|].
  apply bind_inv in H as [(e & _ & Hc) | (m & s2 & H2 & H)];
    [discriminate Hc|].
  apply query_inv in H2. cbv beta zeta in H2. injection H2 as _ Hd2.
  inversion H; subst r s. intros _. split.
  - rewrite <- Hn, affected_zero in E. apply negb_false_iff in E. exact E.
  - rewrite <- Hd2, <- Hd1. reflexivity.
Qed.

Lemma closed_none_left (id : Z) (now : string) (note : option string)
    (l : list work_assignments_row) :
  filter (fun w => (wa_aggregated_location_id w =? id)
                   && is_open (wa_status w))
    (update_where
       (on_location_in id [WPendingVerification; WInProgress; WAssigned])
       (closed_as WVerified now note) l) = [].
Proof.
  induction l as [|w l IH]; [reflexivity|].
  rewrite update_where_cons. cbn [filter]. rewrite IH.
  unfold on_location_in. rewrite open_statuses.
  destruct (wa_aggregated_location_id w =? id) eqn:E;
    destruct (is_open (wa_status w)) eqn:O; cbn [andb];
    cbn [closed_as wa_aggregated_location_id wa_status is_open];
    rewrite ?E, ?O; reflexivity.
Qed.

(** X9. After [verifyLocation] answered 200 for a location no open
    assignment of it is left, so a [createWorkAssignment] for that location
    and an active contractor, with no statement rejected, answers 201,
    appends a new row with the next id of the counter and status
    'assigned', and that row is then the one open assignment of the
    location. *)
Theorem assign_after_verification (env env' : environment)
    (vreq : verify_request) (areq : assign_request) (d : database)
    (l c : Z) :
  vr_locationId vreq = l ->
  as_locationId areq = Some l -> as_contractorId areq = Some c ->
  l <> 0 -> c <> 0 ->
  (forall n, fault env' n = false) ->
  existsb (fun k => (c_id k =? c) && c_is_active k) (contractors (rows d))
  = true ->
  let '(r, d1, _) := serve (verifyLocation env vreq) d in
  status r = 200 ->
  open_on l d1 = [] /\
  let '(r', d2, _) := serve (createWorkAssignment env' areq) d1 in
  let id := next_work_assignment (auto_increment d) in
  r' = respond 201 (Assignment "Assignment created successfully" id) /\
  work_assignments (rows d2)
  = work_assignments (rows d1)
    ++ [{| wa_id := id; wa_aggregated_location_id := l;
           wa_contractor_id := c; wa_assigned_by := None;
           wa_assigned_at := NOW env';
           wa_due_date := str_or_null (as_dueDate areq);
           wa_status := WAssigned; wa_completed_at := None;
           wa_admin_notes := None;
           wa_notes := str_or_null (as_notes areq) |}] /\
  map wa_id (open_on l d2) = [id].
Proof.
  intros Hv Hl Hc Hl0 Hc0 Hq Hcon.
  pose proof (verifyLocation_accepted env vreq d) as Hacc. cbv zeta in Hacc.
  destruct (serve (verifyLocation env vreq) d) as [[r d1] tr].
  intros H200. destruct (Hacc H200) as [Hloc Hd1]. rewrite Hv in *.
  assert (Hfree : open_on l d1 = []).
  { rewrite Hd1. unfold open_on, with_rows.
    cbn [rows work_assignments set_work_assignments
           set_aggregated_locations].
    apply closed_none_left. }
  split; [exact Hfree|].
  assert (Hloc1 : existsb (fun r => al_id r =? l)
                    (aggregated_locations (rows d1)) = true).
  { rewrite Hd1. unfold with_rows.
    cbn [rows aggregated_locations set_work_assignments
           set_aggregated_locations].
    rewrite existsb_update_where by reflexivity. exact Hloc. }
  assert (Hcon1 : contractors (rows d1) = contractors (rows d))
    by (rewrite Hd1; reflexivity).
  assert (Hai : auto_increment d1 = auto_increment d)
    by (rewrite Hd1; reflexivity).
  clear Hd1 Hacc.
  unfold serve, createWorkAssignment, pooled, createWorkAssignment_try.
  rewrite Hl, Hc. cbn [id_truthy].
  destruct (Z.eqb_spec l 0) as [|_]; [contradiction|].
  destruct (Z.eqb_spec c 0) as [|_]; [contradiction|]. cbn [negb orb].
  rewrite (bind_ok _ _ _ _ _
             (select_location_by_id_run env' l
                {| db := d1; undo := None; issued := 0; trace := [] |}
                (Hq _))).
  cbn [db]. destruct (filter _ (aggregated_locations (rows d1))) eqn:E1.
  { apply filter_empty_existsb in E1. congruence. }
  rewrite (bind_ok _ _ _ _ _
             (select_active_contractor_run env' c
                {| db := d1; undo := None; issued := 1; trace := _ |}
                (Hq _))).
  cbn [db]. rewrite Hcon1.
  destruct (filter _ (contractors (rows d))) eqn:E2.
  { apply filter_empty_existsb in E2. congruence. }
  unfold select_open_assignments at 1. unfold bind at 1.
  rewrite query_run by (apply Hq || reflexivity). cbn [db].
  unfold open_on in Hfree. rewrite Hfree.
  unfold insert_work_assignment at 1. unfold bind at 1.
  rewrite query_run by (apply Hq || reflexivity). cbn [db].
  unfold update_location_status at 1. unfold bind at 1.
  rewrite query_run by (apply Hq || reflexivity).
  cbn [db ret]. rewrite Hai. split; [reflexivity|]. split; [reflexivity|].
  unfold open_on, with_rows.
  cbn [rows work_assignments set_work_assignments
         set_aggregated_locations].
  rewrite filter_app, Hfree.
  cbn [filter wa_aggregated_location_id wa_status is_open app].
  rewrite Z.eqb_refl. reflexivity.
Qed.

Lemma assign_after_verification_sample :
  let d := sample_db LPendingVerification
             [sample_assignment 1 1 1 WPendingVerification] in
  let '(_, d1, _) := serve (verifyLocation quiet (verify_of 1)) d in
  let '(r', d2, _) := serve (createWorkAssignment quiet (assign_to 1 2)) d1 in
  r' = respond 201 (Assignment "Assignment created successfully" 10) /\
  map wa_id (open_on 1 d2) = [10].
Proof.
  cbv zeta.
  pose proof (assign_after_verification quiet quiet (verify_of 1)
                (assign_to 1 2)
                (sample_db LPendingVerification
                   [sample_assignment 1 1 1 WPendingVerification])
                1 2 eq_refl eq_refl eq_refl ltac:(discriminate)
                ltac:(discriminate) (fun _ => eq_refl) eq_refl) as H.
  destruct (serve (verifyLocation quiet (verify_of 1)) _) as [[r d1] tr]
    eqn:E.
  assert (H200 : status r = 200) by (vm_compute in E; inversion E; reflexivity).
  destruct (H H200) as [_ H2].
  destruct (serve (createWorkAssignment quiet (assign_to 1 2)) d1)
    as [[r' d2] tr'].
  cbv zeta in H2. destruct H2 as (Hr & _ & Hopen). split; assumption.
Defined.

(* ===================================================================== *)
(** * Assignment in bulk                                                  *)
(* ===================================================================== *)

Lemma assigned_in_bulk_nil now c who due notes d :
  assigned_in_bulk now c who due notes [] d = d.
Proof.
  unfold assigned_in_bulk, set_work_assignments, set_aggregated_locations,
    set_next_work_assignment.
  cbn [new_assignments List.length Z.of_nat rows aggregated_locations
         work_assignments users reports pothole_detections road_anomalies
         contractors].
  rewrite app_nil_r, Z.add_0_r, update_where_none;
    [destruct d as [[] []]; reflexivity|].
  apply not_true_is_false; intros H;
    apply existsb_exists in H as (x & _ & Hx); discriminate Hx.
Qed.

Lemma assigned_one_more now c who due notes id ids d :
  assigned_in_bulk now c who due notes ids
    (assigned_in_bulk now c who due notes [id] d)
  = assigned_in_bulk now c who due notes (id :: ids) d.
Proof.
  unfold assigned_in_bulk, set_work_assignments, set_aggregated_locations,
    set_next_work_assignment.
  cbn [rows auto_increment work_assignments aggregated_locations users
         reports pothole_detections road_anomalies contractors
         next_report next_pothole_detection next_road_anomaly
         next_aggregated_location next_work_assignment
         new_assignments List.length].
  replace (Z.of_nat (S (List.length ids)))
    with (Z.of_nat 1 + Z.of_nat (List.length ids)) by lia.
  rewrite Z.add_assoc, <- app_assoc.
  rewrite update_where_twice by (intros; reflexivity).
  rewrite (update_where_ext
             (fun x => listed [id] (al_id x) || listed ids (al_id x))
             (fun r => listed (id :: ids) (al_id r))).
  - reflexivity.
  - intros r _. unfold listed. cbn [existsb]. rewrite orb_false_r.
    reflexivity.
Qed.

Lemma batchAssign_loop_run env req c ids :
  (forall n, fault env n = false) ->
  as_contractorId req = Some c ->
  forall due, due_of env (as_dueDate req) = Some due ->
  forall s acc,
  exists s',
    batchAssign_loop env req ids acc s
    = (Ok (acc ++ consecutive (next_work_assignment (auto_increment (db s)))
                    (List.length ids)), s')
    /\ db s' = assigned_in_bulk (NOW env) c (as_user req) due (as_notes req)
                 ids (db s)
    /\ undo s' = undo s
    /\ trace s' = trace s ++ assign_statements ids.
Proof.
  intros Hq Hc due Hdue. induction ids as [|id ids IH]; intros s acc;
    cbn [batchAssign_loop].
  - exists s. rewrite assigned_in_bulk_nil, !app_nil_r. repeat split.
  - assert (Hd : (match str_or_null (as_dueDate req) with
                  | Some dueDate =>
                      t <- toMySQLDatetime env (Some dueDate) ;; ret (Some t)
                  | None => ret None
                  end) s = (Ok due, s)).
    { unfold due_of in Hdue.
      destruct (str_or_null (as_dueDate req)) as [x|] eqn:E.
      - pose proof (str_or_null_some _ _ E) as E0. rewrite E0 in E.
        unfold toMySQLDatetime, bind. rewrite E.
        destruct (Date_iso env x); [|discriminate].
        cbn in Hdue. injection Hdue as <-. reflexivity.
      - injection Hdue as <-. reflexivity. }
    rewrite (bind_ok _ _ _ _ _ Hd).
    unfold insert_work_assignment at 1. unfold bind at 1.
    rewrite query_run by (apply Hq || reflexivity). rewrite Hc. cbn [db].
    unfold update_location_status at 1. unfold bind at 1.
    rewrite query_run by (apply Hq || reflexivity).
    cbn [db undo issued trace].
    match goal with
    | |- context [batchAssign_loop _ _ _ ?a' ?s1] =>
        destruct (IH s1 a') as (s' & Hrun & Hdb & Hundo & Htrace)
    end.
    exists s'. cbn [db undo trace] in Hdb, Hundo, Htrace, Hrun.
    split; [|split; [|split; [exact Hundo|]]].
    + rewrite Hrun. unfold with_rows.
      cbn [auto_increment set_next_work_assignment next_work_assignment
             List.length consecutive].
      rewrite <- app_assoc. reflexivity.
    + rewrite Hdb, <- assigned_one_more. f_equal.
      unfold assigned_in_bulk, with_rows, set_work_assignments,
        set_aggregated_locations, set_next_work_assignment.
      cbn [rows auto_increment work_assignments aggregated_locations users
             reports pothole_detections road_anomalies contractors
             next_report next_pothole_detection next_road_anomaly
             next_aggregated_location next_work_assignment
             new_assignments List.length Z.of_nat Pos.of_succ_nat].
      f_equal. f_equal.
      apply update_where_ext. intros r _. unfold listed. cbn [existsb].
      rewrite orb_false_r. reflexivity.
    + rewrite Htrace, <- !app_assoc. reflexivity.
Qed.

(** X10. With no statement rejected (a listed location that does not
    exist makes the INSERT fail on its foreign key, which is such a
    rejection), an active contractor and a due date that is absent or
    readable, the admin [batchAssign] on a list of locations that is not
    empty answers 201 with consecutive new ids, one per listed id; it
    appends one 'assigned' row per listed id, in the order of the list
    and twice for an id listed twice, and sets every listed location to
    'assigned'. *)
Theorem batchAssign_in_bulk (env : environment) (req : assign_request)
    (d : database) (ids : list Z) (c : Z) (due : option string) :
  (forall n, fault env n = false) ->
  as_locationIds req = Some ids -> ids <> [] ->
  as_contractorId req = Some c -> c <> 0 ->
  existsb (fun k => (c_id k =? c) && c_is_active k) (contractors (rows d))
  = true ->
  due_of env (as_dueDate req) = Some due ->
  serve (batchAssign env req) d
  = (respond 201
       (Assignments
          (count_text (List.length ids) " locations assigned successfully")
          (consecutive (next_work_assignment (auto_increment d))
             (List.length ids))),
     assigned_in_bulk (NOW env) c (as_user req) due (as_notes req) ids d,
     [EvGetConnection; EvBeginTransaction; EvQuery Read "contractors"]
     ++ assign_statements ids ++ [EvCommit; EvRelease]).
Proof.
  intros Hq Hids Hne Hc Hc0 Hcon Hdue.
  unfold serve, batchAssign, transactional, batchAssign_try.
  rewrite bind_begin, Hids.
  destruct ids as [|id ids]; [contradiction Hne; reflexivity|].
  cbv beta iota. cbn [getConnection log db undo issued trace app].
  rewrite Hc. cbn [id_truthy].
  destruct (Z.eqb_spec c 0) as [|_]; [contradiction|]. cbn [negb].
  rewrite (bind_ok _ _ _ _ _
             (select_active_contractor_run env c _ (Hq _))).
  cbn [db]. destruct (filter _ (contractors (rows d))) eqn:E2.
  { apply filter_empty_existsb in E2. congruence. }
  match goal with
  | |- context [bind (batchAssign_loop _ _ _ ?a) _ ?s1] =>
      destruct (batchAssign_loop_run env req c (id :: ids) Hq Hc due Hdue
                  s1 a) as (s' & Hrun & Hdb & Hundo & Htrace)
  end.
  rewrite (bind_ok _ _ _ _ _ Hrun).
  cbn [db undo trace] in Hdb, Hundo, Htrace.
  cbn [commit bind ret release log db trace fst snd].
  rewrite Hdb, Htrace, <- !app_assoc. reflexivity.
Qed.

Lemma batchAssign_in_bulk_sample :
  let '(r, d', _) :=
    serve (batchAssign quiet (assign_to 1 2)) (sample_db LPending []) in
  r = respond 201 (Assignments "1 locations assigned successfully" [10])
  /\ map wa_status (work_assignments (rows d')) = [WAssigned]
  /\ map al_status (aggregated_locations (rows d')) = [LAssigned].
Proof.
  rewrite (batchAssign_in_bulk quiet (assign_to 1 2) (sample_db LPending [])
             [1] 2 None (fun _ => eq_refl) eq_refl ltac:(discriminate)
             eq_refl ltac:(discriminate) eq_refl eq_refl).
  vm_compute. repeat split.
Defined.

Lemma undo_kept_query {A} t env a table schema used
    (run : database -> result (A * database)) :
  keeps (fun _ u => u = Some t) (query env a table schema used run).
Proof.
  intros s r s' H HJ. rewrite <- HJ. revert H. unfold query.
  destruct (fault env (issued s)); [intros H; inversion H; reflexivity|].
  destruct (negb (known_columns schema used));
    [intros H; inversion H; reflexivity|].
  destruct (run (db s)) as [[v d] | e]; intros H; inversion H; reflexivity.
Qed.

Lemma undo_kept_batchAssign_loop t env req ids :
  forall acc, keeps (fun _ u => u = Some t) (batchAssign_loop env req ids acc).
Proof.
  induction ids as [|id ids IH]; intros acc; cbn [batchAssign_loop].
  - apply keeps_ret.
  - apply keeps_bind.
    { destruct (str_or_null (as_dueDate req)); [|apply keeps_ret].
      apply keeps_bind; [apply keeps_toMySQLDatetime|].
      intros x. apply keeps_ret. }
    intros due. apply keeps_bind; [apply undo_kept_query|]. intros n.
    apply keeps_bind; [apply undo_kept_query|]. intros m. apply IH.
Qed.

(** X11. [batchAssign] answers 201, 400, 404 or 500; whenever the answer
    is not 201 the rows of every table are what they were before the call,
    and after a 400 or a 404 the AUTO_INCREMENT counters are as well. *)
Theorem batchAssign_all_or_nothing (env : environment)
    (req : assign_request) (d : database) :
  let '(r, d', _) := serve (batchAssign env req) d in
  (status r = 201 \/ status r = 400 \/ status r = 404 \/ status r = 500) /\
  (status r <> 201 -> rows d' = rows d) /\
  (status r = 400 \/ status r = 404 -> d' = d).
Proof.
  unfold serve, batchAssign, transactional, batchAssign_try.
  rewrite bind_begin. cbn [getConnection log db undo issued trace app].
  destruct (as_locationIds req) as [[|id ids]|].
  1, 3: cbn; repeat split; auto.
  cbv beta iota.
  destruct (negb (id_truthy (as_contractorId req)));
    [cbn; repeat split; auto|].
  set (s1 := {| db := d; undo := Some (rows d); issued := 0;
                trace := [EvGetConnection; EvBeginTransaction] |}).
  destruct (select_active_contractor env (as_contractorId req) s1)
    as [[contractors | e] s2] eqn:H1.
  2: { rewrite (bind_throw _ _ _ _ _ H1).
       pose proof (undo_kept_query (rows d) _ _ _ _ _ _ _ _ _ H1 eq_refl)
         as Hu.
       cbn [release rollback log db trace status respond]. rewrite Hu.
       cbn [rows]. split; [auto|]. split; [reflexivity|].
       intros [Hc|Hc]; discriminate Hc. }
  rewrite (bind_ok _ _ _ _ _ H1).
  pose proof (query_inv _ _ _ _ _ _ _ _ _ H1) as Hd2. cbv beta in Hd2.
  injection Hd2 as _ Hd2. cbn [db s1] in Hd2.
  pose proof (undo_kept_query (rows d) _ _ _ _ _ _ _ _ _ H1 eq_refl) as Hu2.
  destruct contractors as [|con cons].
  { cbn [ret release log db trace status respond]. rewrite <- Hd2.
    repeat split; auto. }
  destruct (batchAssign_loop env req (id :: ids) [] s2)
    as [[assignmentIds | e] s3] eqn:H3.
  - rewrite (bind_ok _ _ _ _ _ H3).
    cbn [commit bind ret release log db trace status respond].
    split; [auto|]. split; [intros Hc; contradiction Hc; reflexivity|].
    intros [Hc|Hc]; discriminate Hc.
  - rewrite (bind_throw _ _ _ _ _ H3).
    pose proof (undo_kept_batchAssign_loop (rows d) _ _ _ _ _ _ _ H3 Hu2)
      as Hu3.
    cbn [release rollback log db trace status respond]. rewrite Hu3.
    cbn [rows]. split; [auto|]. split; [reflexivity|].
    intros [Hc|Hc]; discriminate Hc.
Qed.

(* ===================================================================== *)
(** * The status of a report                                              *)
(* ===================================================================== *)

(** The statuses [updateReportStatus] lets through are the members of
    the ENUM of [reports.status]. *)
Lemma reportStatuses_are_the_enum (s : string) :
  existsb (String.eqb s) reportStatuses
  = match report_status_of_string s with Some _ => true | None => false end.
Proof.
  unfold reportStatuses, report_status_of_string. cbn [existsb].
  destruct (s =? "pending")%string; [reflexivity|].
  destruct (s =? "reviewed")%string; [reflexivity|].
  destruct (s =? "assigned")%string; [reflexivity|].
  destruct (s =? "in_progress")%string; [reflexivity|].
  destruct (s =? "resolved")%string; reflexivity.
Qed.

Lemma report_status_not_empty (s : string) st :
  report_status_of_string s = Some st -> s <> "".
Proof. intros H ->. discriminate H. Qed.

(** X12. [updateReportStatus] answers 400 "Invalid status", sending no
    statement, unless the status is one of the five members of the ENUM;
    otherwise it sends one UPDATE and answers 500 when the engine rejects
    it, 404 "Report not found" when no report has the identifier, and 200
    with the new status otherwise, in which case the reports with that
    identifier carry the new status and nothing else changed.  The store
    is untouched on every other path. *)
Theorem updateReportStatus_effect (env : environment)
    (req : status_request) (d : database) :
  let hit := fun x => (r_report_id x =? st_reportId req)%string in
  let '(r, d', tr) := serve_of (updateReportStatus env req) d in
  match option_map (fun s => (s, report_status_of_string s))
          (st_status req) with
  | Some (s, Some st) =>
      tr = [EvQuery Write "reports"] /\
      if fault env 0
      then r = answer 500
                 (Plain (Failure "Failed to update status" ER_REJECTED))
           /\ d' = d
      else if existsb hit (reports (rows d))
      then r = answer 200 (StatusUpdated "Status updated successfully" s)
           /\ d' = with_rows (fun t =>
                     set_reports
                       (update_where hit (with_report_status st)
                          (reports t)) t) d
      else r = answer 404 (Plain (Message "Report not found")) /\ d' = d
  | _ => r = answer 400 (Plain (Message "Invalid status")) /\ d' = d
         /\ tr = []
  end.
Proof.
  cbv zeta. unfold serve_of, updateReportStatus, pooled_of,
    updateReportStatus_try.
  destruct (st_status req) as [s|]; cbn [option_map includes negb];
    [|repeat split].
  rewrite reportStatuses_are_the_enum.
  destruct (report_status_of_string s) as [st|] eqn:Est; cbn [negb];
    [|repeat split].
  rewrite (str_or_some s "" (report_status_not_empty s st Est)).
  unfold update_report_status, bind, query. cbn [issued db trace app].
  destruct (fault env 0); [repeat split|].
  change (negb (known_columns reports_columns ["status"; "report_id"]))
    with false. cbv iota.
  destruct (existsb _ (reports (rows d))) eqn:Ex.
  - rewrite Est. cbn [db trace]. rewrite affected_zero, Ex. cbn [negb ret].
    repeat split.
  - cbn. repeat split.
Qed.

Example updateReportStatus_reviewed :
  let '(r, d', _) :=
    serve_of (updateReportStatus quiet
                {| st_reportId := "RPT-1"; st_status := Some "reviewed" |})
      stored_db in
  r = answer 200 (StatusUpdated "Status updated successfully" "reviewed")
  /\ map r_status (reports (rows d')) = [RReviewed].
Proof. vm_compute. split; reflexivity. Qed.

(* ===================================================================== *)
(** * The status of an assignment                                         *)
(* ===================================================================== *)

(** The statuses [updateWorkAssignment] lets through are the members of
    the ENUM of [work_assignments.status]. *)
Lemma assignmentStatuses_are_the_enum (s : string) :
  existsb (String.eqb s) assignmentStatuses
  = match assignment_status_of_string s with
    | Some _ => true
    | None => false
    end.
Proof.
  unfold assignmentStatuses, assignment_status_of_string. cbn [existsb].
  destruct (s =? "assigned")%string; [reflexivity|].
  destruct (s =? "in_progress")%string; [reflexivity|].
  destruct (s =? "pending_verification")%string; [reflexivity|].
  destruct (s =? "completed")%string; [reflexivity|].
  destruct (s =? "verified")%string; reflexivity.
Qed.

(** The location status derived from an assignment status is a member
    of the ENUM of [aggregated_locations.status]. *)
Lemma locationStatus_is_known (s : string) (st : AssignmentStatus) :
  assignment_status_of_string s = Some st ->
  location_status_of_string (locationStatus_of s)
  = Some (location_status_for st)
  /\ closes s = match st with
                | WCompleted | WVerified => true
                | _ => false
                end.
Proof.
  unfold assignment_status_of_string, locationStatus_of, closes.
  destruct (String.eqb_spec s "assigned") as [->|_];
    [intros H; injection H as <-; split; reflexivity|].
  destruct (String.eqb_spec s "in_progress") as [->|_];
    [intros H; injection H as <-; split; reflexivity|].
  destruct (String.eqb_spec s "pending_verification") as [->|_];
    [intros H; injection H as <-; split; reflexivity|].
  destruct (String.eqb_spec s "completed") as [->|_];
    [intros H; injection H as <-; split; reflexivity|].
  destruct (String.eqb_spec s "verified") as [->|_];
    [intros H; injection H as <-; split; reflexivity|discriminate].
Qed.

(** X13. [updateWorkAssignment] answers 400 "Invalid status" for a
    status outside the ENUM and 400 "No updates provided" when neither a
    status nor notes are given (an empty status counts as none), both
    before any statement; and when the UPDATE is accepted but no
    assignment has the id it answers 404 after that one statement.  The
    store is unchanged in each case. *)
Theorem updateWorkAssignment_rejects (env : environment)
    (req : assignment_update) (d : database) :
  let not_found :=
    fault env 0 = false ->
    existsb (fun w => wa_id w =? au_assignmentId req)
      (work_assignments (rows d)) = false ->
    serve (updateWorkAssignment env req) d
    = (respond 404 (Message "Assignment not found"), d,
       [EvQuery Write "work_assignments"]) in
  match str_or_null (au_status req) with
  | Some s =>
      match assignment_status_of_string s with
      | None =>
          serve (updateWorkAssignment env req) d
          = (respond 400 (Message "Invalid status"), d, [])
      | Some _ => not_found
      end
  | None =>
      match au_notes req with
      | None =>
          serve (updateWorkAssignment env req) d
          = (respond 400 (Message "No updates provided"), d, [])
      | Some _ => not_found
      end
  end.
Proof.
  unfold serve, updateWorkAssignment, pooled, updateWorkAssignment_try.
  cbv zeta.
  destruct (str_or_null (au_status req)) as [s|] eqn:Es.
  - cbn [includes]. rewrite assignmentStatuses_are_the_enum.
    destruct (assignment_status_of_string s) as [st|] eqn:Est; cbn [negb];
      [|reflexivity].
    cbn [updates_of app]. intros Hf Hno.
    unfold update_assignment_fields, bind, query.
    cbn [issued db trace app]. rewrite Hf.
    assert (Hk : known_columns work_assignments_columns
                   (columns_of (Some s) (au_notes req) ++ ["id"]) = true).
    { unfold columns_of. destruct (closes s); destruct (au_notes req);
        reflexivity. }
    rewrite Hk, Hno. reflexivity.
  - destruct (au_notes req) as [n|] eqn:En; cbn [updates_of app];
      [|reflexivity].
    intros Hf Hno.
    unfold update_assignment_fields, bind, query.
    cbn [issued db trace app]. rewrite Hf.
    change (negb (known_columns _ _)) with false. cbv iota.
    rewrite Hno. reflexivity.
Qed.

Lemma updateWorkAssignment_rejects_sample :
  let d := sample_db LAssigned [sample_assignment 1 1 1 WInProgress] in
  serve (updateWorkAssignment quiet (update_of 99 "completed" None)) d
  = (respond 404 (Message "Assignment not found"), d,
     [EvQuery Write "work_assignments"]).
Proof.
  cbv zeta.
  apply (updateWorkAssignment_rejects quiet (update_of 99 "completed" None)
           (sample_db LAssigned [sample_assignment 1 1 1 WInProgress]));
    reflexivity.
Defined.

(** X14. With its three statements accepted, [updateWorkAssignment] with
    a status of the ENUM on the id of an existing assignment answers 200;
    the assignment gets the status, and the notes when given, with
    [completed_at] stamped exactly for 'completed' and 'verified'; and the
    location of the assignment gets the same status, except that
    'completed' puts the location into 'pending_verification'.  No other
    table changes. *)
Theorem updateWorkAssignment_effect (env : environment)
    (req : assignment_update) (d : database) (s : string)
    (st : AssignmentStatus) (w : work_assignments_row)
    (rest : list work_assignments_row) :
  fault env 0 = false -> fault env 1 = false -> fault env 2 = false ->
  str_or_null (au_status req) = Some s ->
  assignment_status_of_string s = Some st ->
  filter (fun x => wa_id x =? au_assignmentId req)
    (work_assignments (rows d)) = w :: rest ->
  let '(r, d', tr) := serve (updateWorkAssignment env req) d in
  r = respond 200 (Message "Assignment updated successfully") /\
  tr = [EvQuery Write "work_assignments"; EvQuery Read "work_assignments";
        EvQuery Write "aggregated_locations"] /\
  work_assignments (rows d')
  = update_where (fun x => wa_id x =? au_assignmentId req)
      (assignment_changed (Some st)
         match st with
         | WCompleted | WVerified => Some (NOW env)
         | _ => None
         end (au_notes req))
      (work_assignments (rows d)) /\
  aggregated_locations (rows d')
  = update_where (fun r => al_id r =? wa_aggregated_location_id w)
      (with_location_status (location_status_for st))
      (aggregated_locations (rows d)) /\
  same_elsewhere d d'.
Proof.
  intros Hf0 Hf1 Hf2 Es Est Hw.
  destruct (locationStatus_is_known s st Est) as [Hloc Hcl].
  assert (Hstamp : (if closes s then Some (NOW env) else None)
                   = match st with
                     | WCompleted | WVerified => Some (NOW env)
                     | _ => None
                     end)
    by (rewrite Hcl; destruct st; reflexivity).
  unfold serve, updateWorkAssignment, pooled, updateWorkAssignment_try.
  cbv zeta. rewrite Es. cbn [includes].
  rewrite assignmentStatuses_are_the_enum, Est. cbn [negb updates_of app].
  unfold update_assignment_fields at 1. unfold bind at 1.
  rewrite query_run;
    [|exact Hf0
     |unfold columns_of; destruct (closes s); destruct (au_notes req);
      reflexivity].
  cbn [db]. rewrite (filter_cons_existsb _ _ _ _ Hw), Est, Hstamp.
  rewrite affected_zero, (filter_cons_existsb _ _ _ _ Hw). cbn [negb].
  unfold select_assignment_by_id at 1. unfold bind at 1 2.
  rewrite query_run by (exact Hf1 || reflexivity).
  cbn [db]. unfold with_rows at 1.
  cbn [rows work_assignments set_work_assignments].
  rewrite filter_update_where by (intros x Hx; exact Hx).
  rewrite Hw. cbn [map assignment_changed wa_aggregated_location_id].
  unfold update_location_status_to at 1. unfold bind at 1.
  rewrite query_run by (exact Hf2 || reflexivity).
  cbn [db]. unfold with_rows at 1.
  cbn [rows aggregated_locations set_work_assignments]. rewrite Hloc.
  destruct (existsb _ (aggregated_locations (rows d))) eqn:Hex;
    cbn [ret db trace app].
  - unfold with_rows.
    cbn [rows work_assignments aggregated_locations set_work_assignments
           set_aggregated_locations].
    repeat split.
  - unfold with_rows.
    cbn [rows work_assignments aggregated_locations set_work_assignments
           set_aggregated_locations].
    rewrite (update_where_none _ _ _ Hex). repeat split.
Qed.

Lemma updateWorkAssignment_effect_sample :
  let d := sample_db LAssigned [sample_assignment 1 1 1 WInProgress] in
  let '(r, d', _) :=
    serve (updateWorkAssignment quiet (update_of 1 "completed" None)) d in
  r = respond 200 (Message "Assignment updated successfully") /\
  map wa_status (work_assignments (rows d')) = [WCompleted] /\
  map wa_completed_at (work_assignments (rows d'))
  = [Some "2024-05-01 10:00:00"] /\
  map al_status (aggregated_locations (rows d')) = [LPendingVerification].
Proof.
  cbv zeta.
  pose proof (updateWorkAssignment_effect quiet
                (update_of 1 "completed" None)
                (sample_db LAssigned [sample_assignment 1 1 1 WInProgress])
                "completed" WCompleted (sample_assignment 1 1 1 WInProgress)
                [] eq_refl eq_refl eq_refl eq_refl eq_refl eq_refl) as H.
  destruct (serve (updateWorkAssignment quiet _) _) as [[r d'] tr].
  destruct H as (Hr & _ & Hw & Hl & _).
  rewrite Hw, Hl. repeat split. exact Hr.
Defined.

(* ===================================================================== *)
(** * Job statistics                                                      *)
(* ===================================================================== *)

Lemma sum_case_counts (st : AssignmentStatus) (w : work_assignments_row)
    (l : list work_assignments_row) :
  sum_case st (w :: l) = Some (in_status st (w :: l)).
Proof.
  unfold sum_case, in_status. f_equal.
  induction (w :: l) as [|a l' IH]; [reflexivity|].
  cbn [fold_right filter]. rewrite IH.
  destruct (assignment_status_eqb (wa_status a) st); cbn [List.length]; lia.
Qed.

Lemma statuses_partition (l : list work_assignments_row) :
  count_rows l
  = in_status WAssigned l + in_status WInProgress l
    + in_status WPendingVerification l + in_status WCompleted l
    + in_status WVerified l.
Proof.
  unfold count_rows, in_status. induction l as [|a l IH]; [reflexivity|].
  cbn [filter List.length].
  destruct (wa_status a); cbn [assignment_status_eqb List.length]; lia.
Qed.

(** X15. With both SELECTs accepted, [getStats] changes nothing and
    answers 404 when the user owns no contractor profile; otherwise it
    reports the jobs of the first profile of the user: all four buckets are
    NULL when there is no job, and else [total_jobs] is the sum of the four
    buckets plus the number of jobs in 'pending_verification', for which
    there is no bucket. *)
Theorem getStats_counts (env : environment) (user : Z) (d : database) :
  fault env 0 = false -> fault env 1 = false ->
  let '(r, d', _) := serve_of (getStats env user) d in
  d' = d /\
  match filter (fun c => match c_user_id c with
                         | Some u => u =? user
                         | None => false
                         end) (contractors (rows d)) with
  | [] => r = answer 404 (Plain (Message "Contractor profile not found"))
  | contractor :: _ =>
      let mine := jobs_of (c_id contractor) d in
      match mine with
      | [] => r = answer 200 (JobStats 0 None None None None)
      | _ :: _ =>
          r = answer 200
                (JobStats (count_rows mine)
                   (Some (in_status WAssigned mine))
                   (Some (in_status WInProgress mine))
                   (Some (in_status WCompleted mine))
                   (Some (in_status WVerified mine)))
          /\ count_rows mine
             = in_status WAssigned mine + in_status WInProgress mine
               + in_status WCompleted mine + in_status WVerified mine
               + in_status WPendingVerification mine
      end
  end.
Proof.
  intros Hf0 Hf1. unfold serve_of, getStats, pooled_of, getStats_try.
  unfold select_contractor_by_user at 1. unfold bind at 1.
  rewrite query_run by (exact Hf0 || reflexivity). cbn [db].
  destruct (filter _ (contractors (rows d))) as [|contractor others];
    [cbn; split; reflexivity|].
  unfold select_job_stats at 1. unfold bind at 1.
  rewrite query_run by (exact Hf1 || reflexivity).
  cbn [db ret trace]. split; [reflexivity|]. cbv zeta.
  fold (jobs_of (c_id contractor) d).
  destruct (jobs_of (c_id contractor) d) as [|w l] eqn:E;
    [reflexivity|].
  rewrite !sum_case_counts. split; [reflexivity|].
  rewrite statuses_partition. lia.
Qed.

Lemma getStats_counts_sample :
  let '(r, _, _) :=
    serve_of (getStats quiet 7)
      (sample_db LAssigned
         [sample_assignment 1 1 2 WInProgress;
          sample_assignment 2 1 2 WPendingVerification;
          sample_assignment 3 1 1 WAssigned]) in
  r = answer 200 (JobStats 2 (Some 0) (Some 1) (Some 0) (Some 0)).
Proof.
  pose proof (getStats_counts quiet 7
                (sample_db LAssigned
                   [sample_assignment 1 1 2 WInProgress;
                    sample_assignment 2 1 2 WPendingVerification;
                    sample_assignment 3 1 1 WAssigned])
                eq_refl eq_refl) as H.
  destruct (serve_of (getStats quiet 7) _) as [[r d'] tr].
  destruct H as [_ H]. cbn in H. destruct H as [H _]. exact H.
Defined.

(* ===================================================================== *)
(** * Routes that are never reached                                       *)
(* ===================================================================== *)

Lemma dispatch_some routes method path r params :
  dispatch routes method path = Some (r, params) ->
  In r routes /\ route_matches r method path = Some params.
Proof.
  induction routes as [|a routes IH]; cbn [dispatch]; [discriminate|].
  destruct (route_matches a method path) as [ps|] eqn:E.
  - intros H. inversion H; subst. split; [left; reflexivity|exact E].
  - intros H. destruct (IH H) as [Hin Hm]. split; [right; exact Hin|exact Hm].
Qed.

(** A request that a route takes never gets past it. *)
Lemma dispatch_not_past pre a post method path r params :
  route_matches a method path <> None ->
  dispatch (pre ++ a :: post) method path = Some (r, params) ->
  In r (pre ++ [a]).
Proof.
  intros Ha. induction pre as [|x pre IH]; cbn [app dispatch].
  - destruct (route_matches a method path) as [ps|];
      [|contradiction Ha; reflexivity].
    intros H. inversion H; subst. left. reflexivity.
  - destruct (route_matches x method path) as [ps|].
    + intros H. inversion H; subst. left. reflexivity.
    + intros H. right. apply IH, H.
Qed.

Lemma to_lower_empty (s : string) : to_lower s = "" -> s = "".
Proof. destruct s; [reflexivity|discriminate]. Qed.

(** A path that a pattern takes also goes through the pattern with one
    of its literal segments turned into a parameter. *)
Lemma match_literal_as_parameter (l name : string)
    (before after : list segment) :
  l <> "" ->
  forall segs,
    match_segments (before ++ Lit l :: after) segs <> None ->
    match_segments (before ++ Par name :: after) segs <> None.
Proof.
  intros Hl. induction before as [|b before IH]; intros segs; cbn [app].
  - destruct segs as [|s segs]; cbn [match_segments]; [auto|].
    destruct (eqb_ci l s) eqn:E; [|intros H; contradiction H; reflexivity].
    destruct (String.eqb_spec s "") as [->|_].
    + unfold eqb_ci in E. apply String.eqb_eq in E. cbn in E.
      apply to_lower_empty in E. contradiction.
    + destruct (match_segments after segs); cbn; [discriminate|auto].
  - destruct b as [x|x]; destruct segs as [|s segs]; cbn [match_segments];
      auto.
    + destruct (eqb_ci x s); [apply IH|auto].
    + destruct (s =? "")%string; [auto|].
      specialize (IH segs).
      destruct (match_segments (before ++ Lit l :: after) segs);
        destruct (match_segments (before ++ Par name :: after) segs);
        cbn; try discriminate; auto.
      intros _. apply IH. discriminate.
Qed.

Lemma shadowed_by_parameter (a b : route) (l name : string) before after
    method path :
  verb a = verb b ->
  option_map (map segment_of) (segments (path_pattern a))
  = Some (before ++ Par name :: after) ->
  option_map (map segment_of) (segments (path_pattern b))
  = Some (before ++ Lit l :: after) ->
  l <> "" ->
  route_matches b method path <> None -> route_matches a method path <> None.
Proof.
  intros Hv Ha Hb Hl. unfold route_matches. rewrite Hv.
  destruct (_ || _); [|auto].
  destruct (segments (path_pattern a)) as [pa|]; [|discriminate].
  destruct (segments (path_pattern b)) as [pb|]; [|discriminate].
  cbn in Ha, Hb. injection Ha as ->. injection Hb as ->.
  destruct (segments path) as [segs|]; [|auto].
  apply match_literal_as_parameter, Hl.
Qed.

(** X16. No request reaches [batchVerify] through the admin router:
    "/verify/:locationId" is registered before "/verify/batch" and takes
    every request that "/verify/batch" would take, so POST /verify/batch
    runs [verifyWork] with [locationId] "batch".  Every other route of the
    router is reached by some request. *)
Theorem admin_batchVerify_unreachable :
  (forall method path r params,
     dispatch admin_routes method path = Some (r, params) ->
     handler r <> "batchVerify") /\
  (exists r,
     dispatch admin_routes "POST" "/verify/batch"
     = Some (r, [("locationId", "batch")]) /\ handler r = "verifyWork") /\
  Forall (fun r => handler r <> "batchVerify" ->
                   exists params,
                     dispatch admin_routes (verb r) (canonical r)
                     = Some (r, params))
    admin_routes.
Proof.
  split; [|split].
  - intros method path r params H Hh.
    destruct (dispatch_some _ _ _ _ _ H) as [Hin Hm].
    assert (Hr : r = nth 11 admin_routes r).
    { cbn in Hin.
      repeat (destruct Hin as [<- | Hin];
              [try discriminate Hh; reflexivity|]).
      destruct Hin. }
    assert (Ha : route_matches (nth 10 admin_routes r) method path <> None).
    { apply (shadowed_by_parameter _ (nth 11 admin_routes r)
               "batch" "locationId" [Lit "verify"] []);
        try reflexivity; try discriminate.
      rewrite <- Hr, Hm. discriminate. }
    apply (dispatch_not_past (firstn 10 admin_routes) _
             (skipn 11 admin_routes)) in H; [|exact Ha].
    cbn in H. repeat (destruct H as [<- | H]; [discriminate Hh|]).
    destruct H.
  - eexists. split; [vm_compute; reflexivity|reflexivity].
  - unfold admin_routes.
    repeat constructor; intros Hh; try (contradiction Hh; reflexivity).
    all: eexists; vm_compute; reflexivity.
Qed.

(** X17. No request reaches [getWorkAssignments] through the report
    router: "/:reportId" is registered before "/assignments" and takes
    every GET that "/assignments" would take, so GET /assignments runs
    [getReportById] with [reportId] "assignments", behind the
    authentication middleware.  Every other route of the router is
    reached by some request. *)
Theorem report_getWorkAssignments_unreachable :
  (forall method path r params,
     dispatch report_routes method path = Some (r, params) ->
     handler r <> "getWorkAssignments") /\
  (exists r,
     dispatch report_routes "GET" "/assignments"
     = Some (r, [("reportId", "assignments")])
     /\ handler r = "getReportById" /\ stack r = ["auth"]) /\
  Forall (fun r => handler r <> "getWorkAssignments" ->
                   exists params,
                     dispatch report_routes (verb r) (canonical r)
                     = Some (r, params))
    report_routes.
Proof.
  split; [|split].
  - intros method path r params H Hh.
    destruct (dispatch_some _ _ _ _ _ H) as [Hin Hm].
    assert (Hr : r = nth 6 report_routes r).
    { cbn in Hin.
      repeat (destruct Hin as [<- | Hin];
              [try discriminate Hh; reflexivity|]).
      destruct Hin. }
    assert (Ha : route_matches (nth 2 report_routes r) method path <> None).
    { apply (shadowed_by_parameter _ (nth 6 report_routes r)
               "assignments" "reportId" [] []);
        try reflexivity; try discriminate.
      rewrite <- Hr, Hm. discriminate. }
    apply (dispatch_not_past (firstn 2 report_routes) _
             (skipn 3 report_routes)) in H; [|exact Ha].
    cbn in H. repeat (destruct H as [<- | H]; [discriminate Hh|]).
    destruct H.
  - eexists. split; [vm_compute; reflexivity|split; reflexivity].
  - unfold report_routes.
    repeat constructor; intros Hh; try (contradiction Hh; reflexivity).
    all: eexists; vm_compute; reflexivity.
Qed.

(* ===================================================================== *)
(** * The optional bearer token                                           *)
(* ===================================================================== *)

Lemma split_on_free (c : ascii) (t : string) :
  mentions c t = false -> split_on c t = [t].
Proof.
  induction t as [|x t IH]; cbn [mentions split_on]; [reflexivity|].
  destruct (Ascii.eqb x c); [discriminate|]. cbn [orb]. intros H.
  rewrite (IH H). reflexivity.
Qed.

Lemma split_on_first (c : ascii) (t rest : string) :
  mentions c t = false ->
  split_on c (t ++ String c rest) = t :: split_on c rest.
Proof.
  induction t as [|x t IH]; cbn [mentions split_on String.append].
  - rewrite Ascii.eqb_refl. reflexivity.
  - destruct (Ascii.eqb x c); [discriminate|]. cbn [orb]. intros H.
    rewrite (IH H). reflexivity.
Qed.

Lemma prefix_append (a b : string) : prefix a (a ++ b) = true.
Proof.
  induction a as [|x a IH]; cbn [String.append prefix];
    [destruct b; reflexivity|].
  destruct (ascii_dec x x); [exact IH|contradiction].
Qed.

Lemma prefix_mentions (c : ascii) (a h : string) :
  prefix a h = true -> mentions c a = true -> mentions c h = true.
Proof.
  revert h. induction a as [|x a IH]; intros h; cbn [prefix mentions];
    [intros _ H; discriminate H|].
  destruct h as [|y h]; cbn [prefix]; [intros H; discriminate H|].
  destruct (ascii_dec x y) as [<-|]; [|intros H; discriminate H].
  intros Hp Hm. cbn [mentions]. destruct (Ascii.eqb x c); [reflexivity|].
  cbn [orb] in *. apply IH; assumption.
Qed.

(** X18. [optionalAuthMiddleware] hands to [jwt.verify] the text between
    the first and the second space of the Authorization header: a token
    without a space after "Bearer " is verified as it is, whatever follows
    a further space is ignored, and a header that does not start with
    "Bearer " (in this spelling), or no header, leaves the request
    anonymous. *)
Theorem optionalAuth_reads_second_word {payload : Type}
    (jwt_verify : string -> option payload) (token : string) :
  mentions " " token = false ->
  optionalAuthMiddleware jwt_verify (Some ("Bearer " ++ token)%string)
  = jwt_verify token
  /\ (forall rest,
        optionalAuthMiddleware jwt_verify
          (Some ("Bearer " ++ token ++ " " ++ rest)%string)
        = jwt_verify token)
  /\ optionalAuthMiddleware jwt_verify (Some ("bearer " ++ token)%string) = None
  /\ optionalAuthMiddleware jwt_verify (Some token) = None
  /\ optionalAuthMiddleware jwt_verify None = None.
Proof.
  intros Ht. split; [|split; [|split; [|split]]].
  - unfold optionalAuthMiddleware.
    change (str_or_null (Some ("Bearer " ++ token)%string))
      with (Some ("Bearer " ++ token)%string).
    cbv beta iota. rewrite prefix_append. cbn [negb].
    change ("Bearer " ++ token)%string
      with ("Bearer" ++ String " " token)%string.
    rewrite split_on_first by reflexivity.
    rewrite split_on_free by exact Ht. reflexivity.
  - intros rest. unfold optionalAuthMiddleware.
    change (str_or_null (Some ("Bearer " ++ token ++ " " ++ rest)%string))
      with (Some ("Bearer " ++ token ++ " " ++ rest)%string).
    cbv beta iota. rewrite prefix_append. cbn [negb].
    change ("Bearer " ++ token ++ " " ++ rest)%string
      with ("Bearer" ++ String " " (token ++ String " " rest))%string.
    rewrite split_on_first by reflexivity.
    rewrite split_on_first by exact Ht. reflexivity.
  - reflexivity.
  - unfold optionalAuthMiddleware. destruct token as [|a token]; [reflexivity|].
    change (str_or_null (Some (String a token))) with (Some (String a token)).
    assert (H : prefix "Bearer " (String a token) = false).
    { destruct (prefix "Bearer " (String a token)) eqn:E; [|reflexivity].
      apply (prefix_mentions " ") in E; [congruence|reflexivity]. }
    cbv beta iota. rewrite H. reflexivity.
  - reflexivity.
Qed.

Lemma optionalAuth_reads_second_word_sample :
  optionalAuthMiddleware (fun token => Some token)
    (Some "Bearer abc.def sent twice")
  = Some "abc.def".
Proof.
  exact (proj1 (proj2 (optionalAuth_reads_second_word
                         (fun token => Some token) "abc.def" eq_refl))
           "sent twice").
Defined.
